(** * INMET station pipeline: a shallow embedding of [inmet_process.py]

    The development follows the source file top to bottom:
    - [Re]: the backtracking matcher behind
      [re.search(r'INMET_.*_([A-Z]\d{3})_.*', filename)];
    - [Path]: [os.path.basename], [os.path.join] and [str.replace];
    - [Frame]: the part of the pandas data model the script relies on;
    - [Py]: a state-and-exception monad for the Python statements;
    - [process_station_csv] and [calculate_completeness] themselves.

    A float is binary64: it is kept as the rational it is, and the
    division and the rounding of line 97 round their exact result to the
    nearest float ([Num.binary64]).  The cells of a column of numbers are
    kept as the rationals their text denotes. *)

From Stdlib Require Import ZArith QArith Qround Qabs Qpower Lia Lqa Ascii String.
From stdpp Require Import base option list strings pretty gmap.

Local Open Scope string_scope.
Local Open Scope list_scope.

(* ===================================================================== *)
(** ** The regular expression of line 34 *)
(* ===================================================================== *)

Module Re.

(** Characters are the 8-bit code points of [ascii]; a name is matched as
    the list of its characters.  Below 256 the decimal digits that [\d]
    accepts are [0] to [9]. *)
Definition chars (s : string) : list ascii := list_ascii_of_string s.
Definition text (l : list ascii) : string := string_of_list_ascii l.

Definition in_range (lo hi c : ascii) : bool :=
  ((nat_of_ascii lo <=? nat_of_ascii c)%nat && (nat_of_ascii c <=? nat_of_ascii hi)%nat)%bool.

(** One-character matchers: a literal, [.], [[A-Z]] and [\d]. *)
Inductive atom : Type :=
  | Lit (c : ascii)
  | Dot
  | Upper
  | Digit.

Definition atom_matches (a : atom) (c : ascii) : bool :=
  match a with
  | Lit c' => bool_decide (c = c')
  | Dot => negb (bool_decide (c = "010"%char))   (* [.] rejects the line feed *)
  | Upper => in_range "A" "Z" c
  | Digit => in_range "0" "9" c
  end.

(** A pattern is a sequence of atoms, each taken once or under a greedy [*]. *)
Inductive item : Type :=
  | One (a : atom)
  | Star (a : atom).

Definition regex := list item.

Section Matcher.
Context {R : Type}.

(** Greedy [a*]: take one more character when possible, and fall back to
    the continuation [k] on the shorter match when the rest fails. *)
Fixpoint star (a : atom) (k : list ascii -> option R) (s : list ascii) : option R :=
  match s with
  | c :: s' =>
      if atom_matches a c
      then match star a k s' with
           | Some r => Some r
           | None => k s
           end
      else k s
  | [] => k []
  end.

(** [run p s k] matches [p] on a prefix of [s] and hands the rest to [k];
    the first success in backtracking order is the result. *)
Fixpoint run (p : regex) (s : list ascii) (k : list ascii -> option R) : option R :=
  match p with
  | [] => k s
  | One a :: p' =>
      match s with
      | c :: s' => if atom_matches a c then run p' s' k else None
      | [] => None
      end
  | Star a :: p' => star a (fun s' => run p' s' k) s
  end.
End Matcher.

Definition lits (s : string) : regex := map (fun c => One (Lit c)) (chars s).

(** [INMET_.*_]  [([A-Z]\d{3})]  [_.*] *)
Definition before_group : regex := lits "INMET_" ++ [Star Dot; One (Lit "_")].
Definition group1 : regex := [One Upper; One Digit; One Digit; One Digit].
Definition after_group : regex := [One (Lit "_"); Star Dot].

(** A match anchored at the head of [s]; the result is [group(1)]. *)
Definition match_at (s : list ascii) : option (list ascii) :=
  run before_group s (fun s1 =>
  run group1 s1 (fun s2 =>
  run after_group s2 (fun _ =>
    Some (take (length s1 - length s2) s1)))).

(** [re.search]: the leftmost position at which the pattern matches. *)
Fixpoint search_from (s : list ascii) : option (list ascii) :=
  match match_at s with
  | Some g => Some g
  | None =>
      match s with
      | [] => None
      | _ :: s' => search_from s'
      end
  end.

(** [re.search(r'INMET_.*_([A-Z]\d{3})_.*', name)] followed by [.group(1)]. *)
Definition search (name : string) : option string :=
  text <$> search_from (chars name).

(** *** Declarative reading of a pattern *)

Fixpoint matches (p : regex) (l : list ascii) : Prop :=
  match p with
  | [] => l = []
  | One a :: p' => exists c l', l = c :: l' /\ atom_matches a c = true /\ matches p' l'
  | Star a :: p' =>
      exists l1 l2, l = l1 ++ l2 /\ Forall (fun c => atom_matches a c = true) l1 /\ matches p' l2
  end.

(** A station code: one upper-case letter and three digits. *)
Definition is_code (c : list ascii) : Prop := matches group1 c.

(** No line feed occurs in [l]. *)
Definition one_line (l : list ascii) : Prop :=
  Forall (fun c => atom_matches Dot c = true) l.

(** [embedded c s]: [s] reads [... INMET_ a _ c _ ...] with [a] on one line. *)
Definition embedded (c s : list ascii) : Prop :=
  exists pre a b,
    s = pre ++ chars "INMET_" ++ a ++ chars "_" ++ c ++ chars "_" ++ b
    /\ one_line a /\ is_code c.

End Re.

(* ===================================================================== *)
(** ** Strings and paths *)
(* ===================================================================== *)

Module Path.

(** [str.startswith] *)
Definition startswith (s pre : string) : bool := String.prefix pre s.

(** [sub in s] *)
Fixpoint contains (sub s : string) : bool :=
  if String.prefix sub s then true
  else match s with
       | "" => false
       | String _ s' => contains sub s'
       end.

(** [s.replace(old, new)] for a non-empty [old]: occurrences are replaced
    from the left and do not overlap; [skip] counts the characters of the
    occurrence just replaced that are still to be passed over. *)
Fixpoint replace_from (skip : nat) (old new s : string) : string :=
  match s with
  | "" => ""
  | String c s' =>
      match skip with
      | S n => replace_from n old new s'
      | O =>
          if String.prefix old s
          then new ++ replace_from (String.length old - 1) old new s'
          else String c (replace_from 0 old new s')
      end
  end.

Definition replace (s old new : string) : string := replace_from 0 old new s.

(** [posixpath.basename]: what follows the last slash. *)
Fixpoint basename_from (acc p : string) : string :=
  match p with
  | "" => acc
  | String c p' =>
      if Ascii.eqb c "/" then basename_from "" p'
      else basename_from (acc ++ String c "") p'
  end.

Definition basename (p : string) : string := basename_from "" p.

Fixpoint endswith_slash (p : string) : bool :=
  match p with
  | "" => false
  | String c "" => Ascii.eqb c "/"
  | String _ p' => endswith_slash p'
  end.

(** [posixpath.join(a, b)] *)
Definition join2 (a b : string) : string :=
  if startswith b "/" then b
  else if (String.eqb a "" || endswith_slash a)%bool then a ++ b
  else a ++ "/" ++ b.

(** [posixpath.join(a, *ps)] *)
Definition join (a : string) (ps : list string) : string := foldl join2 a ps.

(** [s.endswith(suffix)] *)
Definition endswith (s suffix : string) : bool :=
  let n := String.length s in
  let m := String.length suffix in
  ((m <=? n)%nat && String.eqb (String.substring (n - m) m s) suffix)%bool.

(** [c.isspace()] for a code point below 256. *)
Definition is_space (c : ascii) : bool :=
  let n := nat_of_ascii c in
  ((n =? 32)%nat || ((9 <=? n)%nat && (n <=? 13)%nat) || ((28 <=? n)%nat && (n <=? 31)%nat)
   || (n =? 133)%nat || (n =? 160)%nat)%bool.

Fixpoint lstrip (s : string) : string :=
  match s with
  | String c s' => if is_space c then lstrip s' else s
  | "" => ""
  end.

Fixpoint rstrip (s : string) : string :=
  match s with
  | "" => ""
  | String c s' =>
      match rstrip s' with
      | "" => if is_space c then "" else String c ""
      | t => String c t
      end
  end.

(** [s.strip()] *)
Definition strip (s : string) : string := rstrip (lstrip s).

(** The upper-case letters below 256 are [A-Z] and the Latin-1 letters
    192 to 222, the multiplication sign 215 excepted. *)
Definition lower_char (c : ascii) : ascii :=
  let n := nat_of_ascii c in
  if (Re.in_range "A" "Z" c
      || ((192 <=? n)%nat && (n <=? 222)%nat && negb (n =? 215)%nat))%bool
  then ascii_of_nat (n + 32) else c.

(** [s.lower()] *)
Fixpoint lower (s : string) : string :=
  match s with
  | "" => ""
  | String c s' => String (lower_char c) (lower s')
  end.

End Path.

(* ===================================================================== *)
(** ** Numbers: [int], [round] and [Timedelta.total_seconds] *)
(* ===================================================================== *)

Module Num.

(** [int(x)] truncates toward zero. *)
Definition py_int (x : Q) : Z := Z.quot (Qnum x) (Z.pos (Qden x)).

(** The integer nearest to [x], ties going to the even neighbour. *)
Definition round_half_even (x : Q) : Z :=
  let f := Qfloor x in
  match (x - inject_Z f ?= 1 # 2)%Q with
  | Lt => f
  | Gt => (f + 1)%Z
  | Eq => if Z.even f then f else (f + 1)%Z
  end.

(** The exponent [e] of the binade of [x]: [2^52 <= |x| / 2^e < 2^53]. *)
Definition exponent (x : Q) : Z :=
  let e0 := (Z.log2 (Z.abs (Qnum x)) - Z.log2 (Z.pos (Qden x)) - 52)%Z in
  if Qle_bool (2 ^ 52 * 2 ^ e0)%Q (Qabs x) then e0 else (e0 - 1)%Z.

(** The binary64 float nearest to [x], ties going to the even
    significand of 53 bits: the rounding of every operation of IEEE 754
    arithmetic.  The range of the exponent is left unbounded: the numbers
    of the script are counts and their ratios, far from overflow and from
    the subnormal range. *)
Definition binary64 (x : Q) : Q :=
  let x := Qred x in
  if Qeq_bool x 0 then 0%Q
  else Qred (inject_Z (round_half_even (x / 2 ^ exponent x)) * 2 ^ exponent x)%Q.

(** [a / b] on a [numpy.int64] and an [int]: both become floats, and the
    quotient is rounded. *)
Definition truediv (a b : Z) : Q :=
  binary64 (binary64 (inject_Z a) / binary64 (inject_Z b))%Q.

(** [round(x, 2)] on a [numpy.float64]: numpy scales by [10**2], rounds to
    the nearest integer (ties to even) and divides by [10**2].  The
    result, the float nearest to a whole number [h] of hundredths, is
    written [h / 100], in lowest terms. *)
Definition round2 (x : Q) : Q := Qred (round_half_even (binary64 (x * 100)%Q) # 100).

(** Timestamps and their differences count nanoseconds, as
    [datetime64[ns]] and [timedelta64[ns]] do.  The seconds of a span and
    their quotient by 3600 (line 92) are kept exact: they are only read
    through [int], and for spans of whole seconds the float quotient has
    the integer part of the exact one. *)
Definition total_seconds (td : Z) : Q := td # 1000000000.

Definition hour_ns : Z := 3600 * 1000000000.

End Num.

(* ===================================================================== *)
(** ** Exceptions *)
(* ===================================================================== *)

Module Py.

Inductive exn : Type :=
  | KeyError (key : string)
  | ValueError (msg : string)
  | TypeError (msg : string)
  | FileNotFoundError (path : string)
  | EmptyDataError
  | ParserError
  | ReferenceError.

(** What a Python expression or statement yields: a value or a raised
    exception. *)
Inductive outcome (A : Type) : Type :=
  | Return (a : A)
  | Raise (e : exn).
Arguments Return {A} a.
Arguments Raise {A} e.

Definition and_then {A B : Type} (o : outcome A) (f : A -> outcome B) : outcome B :=
  match o with
  | Return a => f a
  | Raise e => Raise e
  end.

Definition exn_text (e : exn) : string :=
  match e with
  | KeyError k => "'" ++ k ++ "'"
  | ValueError m => m
  | TypeError m => m
  | FileNotFoundError p => "[Errno 2] No such file or directory: '" ++ p ++ "'"
  | EmptyDataError => "No columns to parse from file"
  | ParserError => "Error tokenizing data"
  | ReferenceError => "dangling reference"
  end.

End Py.

(* ===================================================================== *)
(** ** The pandas data model used by the script *)
(* ===================================================================== *)

Module Frame.
Import Py.

(** A cell or an index label.  [NA] stands for both [NaN] and [NaT];
    [Stamp t] is a timestamp of [t] nanoseconds since the epoch; [Pos i]
    is a label of the default [RangeIndex]. *)
Inductive value : Type :=
  | NA
  | Str (s : string)
  | Num (x : Q)
  | Stamp (t : Z)
  | Pos (i : nat).

#[global] Instance Q_eq_dec : EqDecision Q.
Proof. solve_decision. Defined.

#[global] Instance value_eq_dec : EqDecision value.
Proof. solve_decision. Defined.

(** A row: its index label and its cells in column order. *)
Definition row : Type := value * list value.

Record DataFrame : Type := mkFrame {
  index_name : option string;
  columns : list string;
  rows : list row
}.

(** A file in CSV form, as the reader sees it: the header fields, and
    for every record its fields, [None] being an empty field. *)
Record CsvFile : Type := mkCsv {
  header : list string;
  records : list (list (option string))
}.

Definition notna (v : value) : Prop := v <> NA.

Definition index (df : DataFrame) : list value := map fst (rows df).

(** The column positions carrying [label]. *)
Fixpoint positions_from (i : nat) (label : string) (cols : list string) : list nat :=
  match cols with
  | [] => []
  | c :: cols' =>
      if decide (c = label) then i :: positions_from (S i) label cols'
      else positions_from (S i) label cols'
  end.

Definition positions (label : string) (cols : list string) : list nat :=
  positions_from 0 label cols.

Definition cell (i : nat) (r : row) : value := default NA (r.2 !! i).

Definition key (ps : list nat) (r : row) : list value := map (fun i => cell i r) ps.

(** [df.empty]: no rows or no columns. *)
Definition empty (df : DataFrame) : bool :=
  ((length (rows df) =? 0)%nat || (length (columns df) =? 0)%nat)%bool.

(** [df.columns = labels] *)
Definition set_columns (labels : list string) (df : DataFrame) : DataFrame :=
  mkFrame (index_name df) labels (rows df).

(** [df[label]] used as a Series.  With a repeated label pandas returns a
    frame instead, which every caller in this script hands to an operation
    that rejects frames ([pd.to_datetime], [pd.to_numeric]); the exception
    is raised here. *)
Definition getitem (df : DataFrame) (label : string) : outcome (list value) :=
  match positions label (columns df) with
  | [] => Raise (KeyError label)
  | [i] => Return (map (cell i) (rows df))
  | _ => Raise (TypeError "a DataFrame where a Series is required")
  end.

(** [df[label] = vals], [vals] being a Series on the index of [df]: an
    existing column is overwritten (every one of them when the label is
    repeated), a new label is appended as the last column. *)
Definition setitem (label : string) (vals : list value) (df : DataFrame) : outcome DataFrame :=
  if negb (length vals =? length (rows df))%nat
  then Raise (ValueError "Length of values does not match length of index")
  else
    match positions label (columns df) with
    | [] =>
        Return (mkFrame (index_name df) (columns df ++ [label])
                  (zip_with (fun (r : row) v => (r.1, r.2 ++ [v])) (rows df) vals))
    | ps =>
        Return (mkFrame (index_name df) (columns df)
                  (zip_with (fun (r : row) v => (r.1, foldr (fun i cs => <[i:=v]> cs) r.2 ps))
                     (rows df) vals))
    end.

(** [df.dropna(subset=[label])]: rows with a missing cell under [label]
    are removed. *)
Definition dropna (label : string) (df : DataFrame) : outcome DataFrame :=
  match positions label (columns df) with
  | [] => Raise (KeyError label)
  | ps =>
      Return (mkFrame (index_name df) (columns df)
                (filter (fun r => Forall notna (key ps r)) (rows df)))
  end.

(** Rows whose key was not seen before, in order. *)
Fixpoint keep_first (seen : list (list value)) (ps : list nat) (rs : list row) : list row :=
  match rs with
  | [] => []
  | r :: rs' =>
      if decide (key ps r ∈ seen) then keep_first seen ps rs'
      else r :: keep_first (key ps r :: seen) ps rs'
  end.

(** [df.drop_duplicates(subset=[label], keep='first')] *)
Definition drop_duplicates (label : string) (df : DataFrame) : outcome DataFrame :=
  match positions label (columns df) with
  | [] => Raise (KeyError label)
  | ps => Return (mkFrame (index_name df) (columns df) (keep_first [] ps (rows df)))
  end.

(** [df.set_index(label)]: the column becomes the index and leaves the
    columns.  A repeated label is rejected. *)
Definition set_index (label : string) (df : DataFrame) : outcome DataFrame :=
  match positions label (columns df) with
  | [] => Raise (KeyError label)
  | [i] =>
      Return (mkFrame (Some label) (delete i (columns df))
                (map (fun r : row => (cell i r, delete i r.2)) (rows df)))
  | _ => Raise (ValueError "Index data must be 1-dimensional")
  end.

(** [df[[label]]]: a new frame on the same index holding the column(s)
    named [label]. *)
Definition select (label : string) (df : DataFrame) : outcome DataFrame :=
  match positions label (columns df) with
  | [] => Raise (KeyError label)
  | ps =>
      Return (mkFrame (index_name df) (map (fun _ => label) ps)
                (map (fun r : row => (r.1, key ps r)) (rows df)))
  end.

(** [df.rename(columns={old: new})] *)
Definition rename (old new : string) (df : DataFrame) : DataFrame :=
  mkFrame (index_name df)
    (map (fun c => if decide (c = old) then new else c) (columns df)) (rows df).

(** [s.min()] and [s.max()] of a datetime Series skip [NaT]; they are
    [NaT] when nothing is left. *)
Definition stamps (vals : list value) : list Z :=
  omap (fun v => match v with Stamp t => Some t | _ => None end) vals.

Definition series_min (vals : list value) : value :=
  match stamps vals with
  | [] => NA
  | t :: ts => Stamp (foldr Z.min t ts)
  end.

Definition series_max (vals : list value) : value :=
  match stamps vals with
  | [] => NA
  | t :: ts => Stamp (foldr Z.max t ts)
  end.

(** [a + b] on the cells of string Series: a missing operand gives a
    missing result. *)
Definition str_add (a b : value) : outcome value :=
  match a, b with
  | NA, _ | _, NA => Return NA
  | Str x, Str y => Return (Str (x ++ y))
  | _, _ => Raise (TypeError "unsupported operand type(s) for +")
  end.

Fixpoint traverse {A B : Type} (f : A -> outcome B) (l : list A) : outcome (list B) :=
  match l with
  | [] => Return []
  | a :: l' => and_then (f a) (fun b => and_then (traverse f l') (fun bs => Return (b :: bs)))
  end.

(** [series + scalar] and [series + series] (same index). *)
Definition add_scalar (s : list value) (c : string) : outcome (list value) :=
  traverse (fun v => str_add v (Str c)) s.

Definition add_series (s1 s2 : list value) : outcome (list value) :=
  traverse (fun p : value * value => str_add p.1 p.2) (zip s1 s2).

(** The values read by default as missing ([na_values] of [read_csv]). *)
Definition na_values : list string :=
  [""; "#N/A"; "#N/A N/A"; "#NA"; "-1.#IND"; "-1.#QNAN"; "-NaN"; "-nan";
   "1.#IND"; "1.#QNAN"; "<NA>"; "N/A"; "NA"; "NULL"; "NaN"; "None"; "n/a";
   "nan"; "null"].

Definition read_field (f : option string) : value :=
  match f with
  | None => NA
  | Some s => if decide (s ∈ na_values) then NA else Str s
  end.

(** A record shorter than the header is padded with missing cells; a
    longer one is a tokenizing error. *)
Definition read_cells (n : nat) (fields : list (option string)) : list value :=
  map read_field fields ++ replicate (n - length fields) NA.

Definition read_record (n : nat) (i : nat) (fields : list (option string)) : outcome row :=
  if (n <? length fields)%nat then Raise ParserError
  else Return (Pos i, read_cells n fields).

Fixpoint read_records (n i : nat) (recs : list (list (option string))) : outcome (list row) :=
  match recs with
  | [] => Return []
  | fields :: recs' =>
      and_then (read_record n i fields) (fun r =>
      and_then (read_records n (S i) recs') (fun rs => Return (r :: rs)))
  end.

(** [pd.read_csv] on the contents of a file, cells kept as text. *)
Definition parse_csv (f : CsvFile) : outcome DataFrame :=
  match header f with
  | [] => Raise EmptyDataError
  | cols =>
      and_then (read_records (length cols) 0 (records f)) (fun rs =>
      Return (mkFrame None cols rs))
  end.

End Frame.

(* ===================================================================== *)
(** ** Library functions the script calls *)
(* ===================================================================== *)

(** The element-level behaviour of the calls into [unidecode] and pandas
    that parse or print text.  The script is verified for every
    implementation of this interface; [Reference] below gives one.

    - [unidecode]: [unidecode.unidecode];
    - [strptime]: one cell under [pd.to_datetime(..., format='%Y/%m/%d
      %H%M UTC', errors='coerce')], [None] being [NaT];
    - [parse_float]: one cell under [pd.to_numeric(..., errors='coerce')],
      [None] being [NaN];
    - [to_datetime]: [pd.to_datetime(series)] with the format inferred, on
      a whole column, raising where pandas raises;
    - [repr_float], [repr_timestamp]: how [to_csv] prints a value. *)
Class PandasOps : Type := {
  unidecode : string -> string;
  strptime : string -> option Z;
  parse_float : string -> option Q;
  to_datetime : list Frame.value -> Py.outcome (list Frame.value);
  repr_float : Q -> string;
  repr_timestamp : Z -> string
}.

(* ===================================================================== *)
(** ** Python statements: state and exceptions *)
(* ===================================================================== *)

Module Import Interp.
Import Py Frame.

Inductive level : Type := INFO | WARNING | ERROR.

(** The state a call can touch: the frames it holds references to, the
    files under the output root, and the log. *)
Record world : Type := mkWorld {
  heap : gmap nat DataFrame;
  files : gmap string CsvFile;
  log : list (level * string)
}.

Definition set_heap (h : gmap nat DataFrame) (w : world) : world :=
  mkWorld h (files w) (log w).

Definition M (A : Type) : Type := world -> outcome A * world.

Definition ret {A} (a : A) : M A := fun w => (Return a, w).

Definition raise {A} (e : exn) : M A := fun w => (Raise e, w).

Definition bind {A B} (m : M A) (f : A -> M B) : M B :=
  fun w =>
    match m w with
    | (Return a, w') => f a w'
    | (Raise e, w') => (Raise e, w')
    end.

Definition lift {A} (o : outcome A) : M A := fun w => (o, w).

Definition get_world : M world := fun w => (Return w, w).

(** [try: body  except Exception as e: handler(e)] *)
Definition try_except {A} (body : M A) (handler : exn -> M A) : M A :=
  fun w =>
    match body w with
    | (Return a, w') => (Return a, w')
    | (Raise e, w') => handler e w'
    end.

(** A new frame object. *)
Definition new_object (df : DataFrame) : M nat :=
  fun w =>
    let l := fresh (dom (heap w)) in
    (Return l, set_heap (<[l := df]> (heap w)) w).

Definition deref (l : nat) : M DataFrame :=
  fun w =>
    match heap w !! l with
    | Some df => (Return df, w)
    | None => (Raise ReferenceError, w)
    end.

Definition store (l : nat) (df : DataFrame) : M unit :=
  fun w => (Return tt, set_heap (<[l := df]> (heap w)) w).

(** An in-place method of the frame at [l]. *)
Definition update (l : nat) (f : DataFrame -> outcome DataFrame) : M unit :=
  bind (deref l) (fun df => bind (lift (f df)) (fun df' => store l df')).

Definition write_file (path : string) (f : CsvFile) : M unit :=
  fun w => (Return tt, mkWorld (heap w) (<[path := f]> (files w)) (log w)).

Definition logging (lv : level) (msg : string) : M unit :=
  fun w => (Return tt, mkWorld (heap w) (files w) (log w ++ [(lv, msg)])).

(** What a call returned, if it returned. *)
Definition returned {A} (r : outcome A * world) : option A :=
  match r.1 with
  | Return a => Some a
  | Raise _ => None
  end.

Fixpoint mapM {A B} (f : A -> M B) (l : list A) : M (list B) :=
  match l with
  | [] => ret []
  | a :: l' => bind (f a) (fun b => bind (mapM f l') (fun bs => ret (b :: bs)))
  end.

End Interp.

Declare Scope py_scope.
Delimit Scope py_scope with py.
Notation "x <- c1 ;; c2" := (bind c1 (fun x => c2))
  (at level 100, c1 at next level, right associativity) : py_scope.
Notation "c1 ;; c2" := (bind c1 (fun _ => c2))
  (at level 100, right associativity) : py_scope.

Local Open Scope py_scope.

(* ===================================================================== *)
(** ** The script *)
(* ===================================================================== *)

(** [zipfile.ZipInfo], of which only the member name is read. *)
Record ZipInfo : Type := { filename : string }.

(** The dictionary [calculate_completeness] returns. *)
Record CompletenessRecord : Type := {
  station_code : string;
  completeness : Q
}.

Section Script.
Context {ops : PandasOps}.
Import Py Frame.

(** One cell under [pd.to_numeric(..., errors='coerce')]. *)
Definition to_numeric_value (v : value) : value :=
  match v with
  | NA => NA
  | Str s => match parse_float s with Some x => Num x | None => NA end
  | Num x => Num x
  | Stamp t => Num (inject_Z t)
  | Pos i => Num (inject_Z (Z.of_nat i))
  end.

Definition to_numeric (s : list value) : list value := map to_numeric_value s.

(** One cell under [pd.to_datetime(..., format='%Y/%m/%d %H%M UTC',
    errors='coerce')]. *)
Definition to_datetime_format_value (v : value) : value :=
  match v with
  | Str s => match strptime s with Some t => Stamp t | None => NA end
  | Stamp t => Stamp t
  | _ => NA
  end.

Definition to_datetime_format (s : list value) : list value :=
  map to_datetime_format_value s.

(** [df.to_csv(path)]: the index first, then the columns; a missing
    value is an empty field. *)
Definition render (v : value) : option string :=
  match v with
  | NA => None
  | Str s => Some s
  | Num x => Some (repr_float x)
  | Stamp t => Some (repr_timestamp t)
  | Pos i => Some (pretty i)
  end.

Definition to_csv (df : DataFrame) : CsvFile :=
  mkCsv (default "" (index_name df) :: columns df)
        (map (fun r : row => render r.1 :: map render r.2) (rows df)).

(** Lines 40-41.  A member's payload is given in CSV form past the eight
    preamble lines, split on [;]. *)
Definition read_member (zip_file : gmap string CsvFile) (info : ZipInfo) : M nat :=
  match zip_file !! filename info with
  | None => raise (KeyError (filename info))
  | Some f => df <- lift (parse_csv f) ;; new_object df
  end.

(** Line 44, one label. *)
Definition normalize_label (col : string) : string :=
  Path.lower (Path.strip (unidecode col)).

(** Line 47, the Series handed to [pd.to_datetime]. *)
Definition datetime_text (d : DataFrame) : outcome (list value) :=
  and_then (getitem d "data") (fun data =>
  and_then (add_scalar data " ") (fun dated =>
  and_then (getitem d "hora utc") (fun hora =>
  add_series dated hora))).

(** Lines 44-50: the table indexed by timestamp, built in place. *)
Definition index_by_datetime (df : nat) : M unit :=
  update df (fun d => Return (set_columns (map normalize_label (columns d)) d)) ;;
  d <- deref df ;;
  text <- lift (datetime_text d) ;;
  update df (setitem "datetime" (to_datetime_format text)) ;;
  update df (dropna "datetime") ;;
  update df (drop_duplicates "datetime") ;;
  update df (set_index "datetime").

(** Lines 53 and 65: [next((col for col in df.columns if marker in col), None)] *)
Definition find_column (marker : string) (d : DataFrame) : option string :=
  List.find (fun col => Path.contains marker col) (columns d).

(** Lines 55-58 and 67-70: the series of column [col], as a new object. *)
Definition project_column (df : nat) (col : string) : M nat :=
  d <- deref df ;;
  selected <- lift (select col d) ;;
  var_df <- new_object selected ;;
  update var_df (fun v => Return (rename col "value" v)) ;;
  v <- deref var_df ;;
  vals <- lift (getitem v "value") ;;
  update var_df (setitem "value" (to_numeric vals)) ;;
  update var_df (dropna "value") ;;
  ret var_df.

(** Lines 53-58 and 65-70: the series of the first column whose label
    contains [marker], if there is one ([if prec_col:] also rejects an
    empty label). *)
Definition project (df : nat) (marker : string) : M (option nat) :=
  d <- deref df ;;
  match find_column marker d with
  | Some col =>
      if String.eqb col "" then ret None
      else var_df <- project_column df col ;; ret (Some var_df)
  | None => ret None
  end.

(** Lines 59-62 and 71-74.  Directories are not modelled: a file is
    known by its full path. *)
Definition persist (var_df : nat) (output_root segment year code : string) : M unit :=
  let output_path := Path.join output_root ["inmet_stations"; "processed"; segment; year] in
  let output_file := Path.join output_path [(code ++ ".csv")%string] in
  v <- deref var_df ;;
  write_file output_file (to_csv v).

Definition process_variable (df : nat) (marker segment output_root year code : string)
  : M unit :=
  found <- project df marker ;;
  match found with
  | Some var_df => persist var_df output_root segment year code
  | None => ret tt
  end.

(** The word [Estacao] with its cedilla and tilde, as Latin-1 code points. *)
Definition estacao : string := "Esta" ++ String "231" (String "227" "o").

Definition process_station_csv (csv_file_info : ZipInfo) (zip_file : gmap string CsvFile)
    (output_root year : string) : M unit :=
  match Re.search (filename csv_file_info) with
  | None => ret tt
  | Some code =>
      try_except
        (df <- read_member zip_file csv_file_info ;;
         index_by_datetime df ;;
         process_variable df "precipitacao total" "total_precipitation" output_root year code ;;
         process_variable df "bulbo seco" "2m_air_temperature" output_root year code ;;
         logging INFO (estacao ++ " " ++ code ++ " processada com sucesso.")%string)
        (fun e =>
           logging WARNING
             ("Erro ao processar a " ++ Path.lower estacao ++ " " ++ code ++ " do arquivo "
              ++ filename csv_file_info ++ ": " ++ exn_text e)%string)
  end.

(** Line 85: [pd.read_csv(file_path)] *)
Definition read_csv (file_path : string) : M nat :=
  w <- get_world ;;
  match files w !! file_path with
  | None => raise (FileNotFoundError file_path)
  | Some f => df <- lift (parse_csv f) ;; new_object df
  end.

(** Line 91: [pd.to_numeric(df['value'], errors='coerce').notna().sum()] *)
Definition count_valid (vals : list value) : Z :=
  Z.of_nat (length (filter notna (to_numeric vals))).

(** Line 92.  With a [NaT] bound the difference is [NaT], its
    [total_seconds()] is [nan], and [int] rejects it. *)
Definition expected_of (start_dt end_dt : value) : outcome Z :=
  match start_dt, end_dt with
  | Stamp s, Stamp e => Return (Num.py_int (Num.total_seconds (e - s) / 3600) + 1)%Z
  | _, _ => Raise (ValueError "cannot convert float NaN to integer")
  end.

(** Lines 85-98, the body of the [try]. *)
Definition completeness_body (code file_path : string) : M CompletenessRecord :=
  df <- read_csv file_path ;;
  d <- deref df ;;
  if empty d then ret {| station_code := code; completeness := 0 |}
  else
    raw <- lift (getitem d "datetime") ;;
    parsed <- lift (to_datetime raw) ;;
    update df (setitem "datetime" parsed) ;;
    d <- deref df ;;
    col <- lift (getitem d "datetime") ;;
    let start_dt := series_min col in
    let end_dt := series_max col in
    vals <- lift (getitem d "value") ;;
    let valid_records := count_valid vals in
    expected_records <- lift (expected_of start_dt end_dt) ;;
    if (expected_records <=? 0)%Z
    then ret {| station_code := code; completeness := 0 |}
    else
      ret {| station_code := code;
             completeness := Num.round2 (Num.truediv valid_records expected_records) |}.

Definition calculate_completeness (file_path : string) : M CompletenessRecord :=
  let code := Path.replace (Path.basename file_path) ".csv" "" in
  try_except (completeness_body code file_path)
    (fun _ => ret {| station_code := code; completeness := 0 |}).

(** Line 115: one record per station file, in the order of the files. *)
Definition report_data (station_files : list string) : M (list CompletenessRecord) :=
  mapM calculate_completeness station_files.

End Script.

(* ===================================================================== *)
(** ** A reference implementation of the library interface *)
(* ===================================================================== *)

(** Enough of [unidecode], [strptime] and the float and timestamp text
    forms to run the script on files in the station and output layouts.
    Text is read in its fixed-width form only. *)
Module Reference.
Import Py Frame.

Definition digit_of (c : ascii) : option Z :=
  if Re.in_range "0" "9" c then Some (Z.of_nat (nat_of_ascii c) - 48)%Z else None.

Fixpoint number_from (acc : Z) (s : string) : option Z :=
  match s with
  | "" => Some acc
  | String c s' =>
      match digit_of c with
      | Some d => number_from (10 * acc + d)%Z s'
      | None => None
      end
  end.

(** A non-empty run of decimal digits. *)
Definition number (s : string) : option Z :=
  match s with
  | "" => None
  | _ => number_from 0 s
  end.

Definition is_leap (y : Z) : bool :=
  ((y mod 4 =? 0) && (negb (y mod 100 =? 0) || (y mod 400 =? 0)))%Z%bool.

Definition days_in_month (y m : Z) : Z :=
  if (m =? 2)%Z then (if is_leap y then 29 else 28)%Z
  else if ((m =? 4) || (m =? 6) || (m =? 9) || (m =? 11))%Z%bool then 30%Z
  else 31%Z.

(** Days from 1970-01-01 to the given civil date (proleptic Gregorian). *)
Definition days_from_civil (y m d : Z) : Z :=
  let y' := if (m <=? 2)%Z then (y - 1)%Z else y in
  let era := (y' / 400)%Z in
  let yoe := (y' - era * 400)%Z in
  let mp := ((m + 9) mod 12)%Z in
  let doy := ((153 * mp + 2) / 5 + d - 1)%Z in
  let doe := (yoe * 365 + yoe / 4 - yoe / 100 + doy)%Z in
  (era * 146097 + doe - 719468)%Z.

(** The civil date [(y, m, d)] of a day count. *)
Definition civil_from_days (z : Z) : Z * Z * Z :=
  let z' := (z + 719468)%Z in
  let era := (z' / 146097)%Z in
  let doe := (z' - era * 146097)%Z in
  let yoe := ((doe - doe / 1460 + doe / 36524 - doe / 146096) / 365)%Z in
  let doy := (doe - (365 * yoe + yoe / 4 - yoe / 100))%Z in
  let mp := ((5 * doy + 2) / 153)%Z in
  let d := (doy - (153 * mp + 2) / 5 + 1)%Z in
  let m := if (mp <? 10)%Z then (mp + 3)%Z else (mp - 9)%Z in
  let y := (yoe + era * 400)%Z in
  (if (m <=? 2)%Z then (y + 1)%Z else y, m, d).

Definition second_ns : Z := 1000000000.

(** Nanoseconds since the epoch of a civil date and time, when valid. *)
Definition stamp_of (y m d hh mm ss : Z) : option Z :=
  if ((1 <=? m) && (m <=? 12) && (1 <=? d) && (d <=? days_in_month y m)
      && (hh <=? 23) && (mm <=? 59) && (ss <=? 59))%Z%bool
  then Some ((((days_from_civil y m d * 24 + hh) * 60 + mm) * 60 + ss) * second_ns)%Z
  else None.

Definition field (i n : nat) (s : string) : option Z := number (String.substring i n s).

Definition literal (i : nat) (lit s : string) : bool :=
  String.eqb (String.substring i (String.length lit) s) lit.

(** [YYYY/MM/DD HHMM UTC] *)
Definition strptime_station (s : string) : option Z :=
  if ((String.length s =? 19)%nat
      && literal 4 "/" s && literal 7 "/" s && literal 10 " " s && literal 15 " UTC" s)%bool
  then
    y ← field 0 4 s; m ← field 5 2 s; d ← field 8 2 s;
    hh ← field 11 2 s; mm ← field 13 2 s;
    stamp_of y m d hh mm 0
  else None.

(** [YYYY-MM-DD HH:MM:SS], the form [to_csv] prints. *)
Definition parse_iso (s : string) : option Z :=
  if ((String.length s =? 19)%nat
      && literal 4 "-" s && literal 7 "-" s && literal 10 " " s
      && literal 13 ":" s && literal 16 ":" s)%bool
  then
    y ← field 0 4 s; m ← field 5 2 s; d ← field 8 2 s;
    hh ← field 11 2 s; mm ← field 14 2 s; ss ← field 17 2 s;
    stamp_of y m d hh mm ss
  else None.

Definition to_datetime_cell (v : value) : outcome value :=
  match v with
  | NA => Return NA
  | Str s =>
      match parse_iso s with
      | Some t => Return (Stamp t)
      | None => Raise (ValueError "time data doesn't match format")
      end
  | Stamp t => Return (Stamp t)
  | _ => Raise (TypeError "not convertible to datetime")
  end.

Definition pad (width : nat) (n : Z) : string :=
  let s := pretty n in
  String.string_of_list_ascii (replicate (width - String.length s) "0"%char) ++ s.

Definition format_iso (t : Z) : string :=
  let secs := (t / second_ns)%Z in
  let '(y, m, d) := civil_from_days (secs / 86400) in
  let sod := (secs mod 86400)%Z in
  pad 4 y ++ "-" ++ pad 2 m ++ "-" ++ pad 2 d ++ " "
  ++ pad 2 (sod / 3600) ++ ":" ++ pad 2 (sod mod 3600 / 60) ++ ":" ++ pad 2 (sod mod 60).

(** Text before and after the first occurrence of [sep]. *)
Fixpoint split_at (sep : ascii) (s : string) : string * option string :=
  match s with
  | "" => ("", None)
  | String c s' =>
      if Ascii.eqb c sep then ("", Some s')
      else let '(a, b) := split_at sep s' in (String c a, b)
  end.

Definition unsigned_decimal (s : string) : option Q :=
  match split_at "." s with
  | (ip, None) => n ← number ip; Some (inject_Z n)
  | (ip, Some fp) =>
      n ← number ip; f ← number fp;
      Some (Qred (inject_Z n + (f # Pos.of_nat (10 ^ String.length fp)%nat))%Q)
  end.

(** A decimal numeral with an optional sign. *)
Definition parse_decimal (s : string) : option Q :=
  match s with
  | String "-" s' => q ← unsigned_decimal s'; Some (Qred (- q))
  | String "+" s' => unsigned_decimal s'
  | _ => unsigned_decimal s
  end.

Fixpoint fraction_digits (fuel : nat) (r d : Z) : string :=
  match fuel with
  | O => ""
  | S fuel' =>
      if (r =? 0)%Z then ""
      else pretty (r * 10 / d)%Z ++ fraction_digits fuel' (r * 10 mod d)%Z d
  end.

Definition format_float (x : Q) : string :=
  let n := Z.abs (Qnum x) in
  let d := Z.pos (Qden x) in
  let frac := fraction_digits 17 (n mod d)%Z d in
  (if (Qnum x <? 0)%Z then "-" else "")
  ++ pretty (n / d)%Z ++ "." ++ (if String.eqb frac "" then "0" else frac).

(** Latin-1 letters to their base letter; other code points above 127
    are dropped, except the degree sign. *)
Definition fold_char (c : ascii) : string :=
  let n := nat_of_ascii c in
  let within lo hi := ((lo <=? n)%nat && (n <=? hi)%nat)%bool in
  if (n <? 128)%nat then String c ""
  else if (n =? 176)%nat then "deg"
  else if within 192 197 then "A" else if (n =? 199)%nat then "C"
  else if within 200 203 then "E" else if within 204 207 then "I"
  else if (n =? 209)%nat then "N"
  else if within 210 214 then "O" else if within 217 220 then "U"
  else if within 224 229 then "a" else if (n =? 231)%nat then "c"
  else if within 232 235 then "e" else if within 236 239 then "i"
  else if (n =? 241)%nat then "n"
  else if within 242 246 then "o" else if within 249 252 then "u"
  else "".

Fixpoint fold_ascii (s : string) : string :=
  match s with
  | "" => ""
  | String c s' => fold_char c ++ fold_ascii s'
  end.

#[export] Instance ops : PandasOps := {|
  unidecode := fold_ascii;
  strptime := strptime_station;
  parse_float := parse_decimal;
  to_datetime := traverse to_datetime_cell;
  repr_float := format_float;
  repr_timestamp := format_iso
|}.

End Reference.

(* ===================================================================== *)
(** ** The blocks of the script as functions of the frames they read *)
(* ===================================================================== *)

Section Readings.
Context {ops : PandasOps}.
Import Py Frame.

(** Lines 44-47: the frame once the [datetime] column is assigned. *)
Definition stamped (d0 : DataFrame) : outcome DataFrame :=
  let d := set_columns (map normalize_label (columns d0)) d0 in
  and_then (datetime_text d) (fun text =>
  setitem "datetime" (to_datetime_format text) d).

(** Lines 48-50 on that frame. *)
Definition indexed (d1 : DataFrame) : outcome DataFrame :=
  and_then (dropna "datetime" d1) (fun d2 =>
  and_then (drop_duplicates "datetime" d2) (fun d3 =>
  set_index "datetime" d3)).

(** Lines 55-58 on the table. *)
Definition projection (col : string) (t : DataFrame) : outcome DataFrame :=
  and_then (select col t) (fun selected =>
  let v := rename col "value" selected in
  and_then (getitem v "value") (fun vals =>
  and_then (setitem "value" (to_numeric vals) v) (fun v' =>
  dropna "value" v'))).

(** Lines 86-98 on the frame read from the file. *)
Definition ratio (d : DataFrame) : outcome Q :=
  if empty d then Return 0%Q
  else
    and_then (getitem d "datetime") (fun raw =>
    and_then (to_datetime raw) (fun parsed =>
    and_then (setitem "datetime" parsed d) (fun d' =>
    and_then (getitem d' "datetime") (fun col =>
    and_then (getitem d' "value") (fun vals =>
    and_then (expected_of (series_min col) (series_max col)) (fun expected_records =>
    if (expected_records <=? 0)%Z then Return 0%Q
    else Return (Num.round2 (Num.truediv (count_valid vals) expected_records)))))))).

(** Lines 92-98, given the timestamps and the values of the frame. *)
Definition ratio_from (parsed vals : list value) : outcome Q :=
  and_then (expected_of (series_min parsed) (series_max parsed)) (fun expected_records =>
  if (expected_records <=? 0)%Z then Return 0%Q
  else Return (Num.round2 (Num.truediv (count_valid vals) expected_records))).

(** The ratio reported for a path, given the file found there. *)
Definition ratio_of_file (f : option CsvFile) : Q :=
  match f with
  | None => 0%Q
  | Some f =>
      match and_then (parse_csv f) ratio with
      | Return q => q
      | Raise _ => 0%Q
      end
  end.

End Readings.

(* ===================================================================== *)
(** ** Predicates used in the statements *)
(* ===================================================================== *)

Module Spec.
Import Py Frame.


(** The specification's reading of the station code of a report line:
    the name without its suffix. *)
Definition without_suffix (s suffix : string) : string :=
  if Path.endswith s suffix
  then String.substring 0 (String.length s - String.length suffix) s
  else s.

(** Every row has one cell per column. *)
Definition well_formed (d : DataFrame) : Prop :=
  Forall (fun r : row => length r.2 = length (columns d)) (rows d).

(** [r] is a row of [rs], and no row before it has the same cell in
    column [i]. *)
Definition first_with (i : nat) (rs : list row) (r : row) : Prop :=
  exists l1 l2, rs = l1 ++ r :: l2 /\ forall y, y ∈ l1 -> cell i y <> cell i r.

(** The row of the indexed table made from row [r] of the frame whose
    column [i] holds the timestamps. *)
Definition indexed_row (i : nat) (r : row) : row := (cell i r, delete i r.2).

(** A cell of a datetime column. *)
Definition stamp_or_na (v : value) : Prop := v = NA \/ exists ts, v = Stamp ts.

(** From [w] to [w'] the files and the log are unchanged, and every
    frame object of [w] still has its value. *)
Definition kept_world (w w' : world) : Prop :=
  files w' = files w /\ log w' = log w
  /\ forall l d, heap w !! l = Some d -> heap w' !! l = Some d.

(** The timestamps of a column are all present, pairwise distinct, and
    a whole number of hours apart. *)
Definition hourly (parsed : list value) : Prop :=
  exists ts, parsed = map Stamp ts /\ NoDup ts
             /\ forall t t', t ∈ ts -> t' ∈ ts -> ((t - t') mod Num.hour_ns = 0)%Z.

(** [x] is [q] rounded to two decimals, as far as floats allow: a whole
    number [h] of hundredths at most half a hundredth from [q], give or
    take the error of the float operations, which is below [q * 2^-50]
    hundredths. *)
Definition rounded_to_hundredths (q x : Q) : Prop :=
  exists h : Z,
    (x == inject_Z h / 100)%Q
    /\ (Qabs (inject_Z h - 100 * q) <= (1 # 2) + 100 * q * (1 # 2 ^ 50))%Q.

(** [x] is [y] up to the relative error [r]. *)
Definition close (r x y : Q) : Prop := (y * (1 - r) <= x <= y * (1 + r))%Q.

(** The labels of a [RangeIndex] of [n] rows. *)
Definition range_index (n : nat) : list value := map Pos (seq 0 n).

End Spec.

(* ===================================================================== *)
(** ** Sample archive members and files *)
(* ===================================================================== *)

Module Sample.
Import Py Frame.

(** Header labels of a station file, in Latin-1. *)
Definition precipitation : string :=
  "PRECIPITA" ++ String "199" (String "195" ("O TOTAL, HOR" ++ String "193" "RIO (mm)")).

Definition temperature : string :=
  "TEMPERATURA DO AR - BULBO SECO, HORARIA (" ++ String "176" "C)".

Definition station_header : list string :=
  ["Data"; "Hora UTC"; precipitation; temperature; "Unnamed: 4"].

Definition record (date hour rain temp : string) : list (option string) :=
  [Some date; Some hour; Some rain; Some temp; None].

(** Four hours; the first hour comes twice, one date does not parse, and
    one temperature is not a number. *)
Definition hourly_member : CsvFile :=
  mkCsv station_header
    [record "2020/01/01" "0000 UTC" "0" "21.5";
     record "2020/01/01" "0100 UTC" "1.2" "abc";
     record "2020/01/01" "0000 UTC" "7" "20";
     record "2020/01/01" "0200 UTC" "0" "22";
     record "2020/01/01" "0300 UTC" "0" "23";
     record "2020/13/01" "0300 UTC" "0" "23"].

(** Two observations half an hour apart. *)
Definition half_hour_member : CsvFile :=
  mkCsv station_header
    [record "2020/01/01" "0000 UTC" "0" "21.5";
     record "2020/01/01" "0030 UTC" "0.2" "21.7"].

Definition archive : gmap string CsvFile :=
  {[ "INMET_X_A001_TEST.CSV" := hourly_member;
     "2020/INMET_SE_SP_A002_TEST.CSV" := half_hour_member ]}.

Definition hourly_info : ZipInfo := {| filename := "INMET_X_A001_TEST.CSV" |}.
Definition half_hour_info : ZipInfo := {| filename := "2020/INMET_SE_SP_A002_TEST.CSV" |}.


Definition blank : world := mkWorld ∅ ∅ [].

(** The state once both members are processed for 2020 under [out]. *)
Definition processed : world :=
  let ops := Reference.ops in
  ((process_station_csv hourly_info archive "out" "2020" ;;
    process_station_csv half_hour_info archive "out" "2020") blank).2.

Definition rain_A001 : string := "out/inmet_stations/processed/total_precipitation/2020/A001.csv".
Definition temp_A001 : string := "out/inmet_stations/processed/2m_air_temperature/2020/A001.csv".
Definition rain_A002 : string := "out/inmet_stations/processed/total_precipitation/2020/A002.csv".

(** The state after line 41, and after line 50, for the hourly member. *)
Definition loaded : world :=
  let ops := Reference.ops in (read_member archive hourly_info blank).2.

Definition tabled : world :=
  let ops := Reference.ops in (index_by_datetime 0 loaded).2.

(** Files put under the output root by hand. *)
Definition series (recs : list (list (option string))) : CsvFile :=
  mkCsv ["datetime"; "value"] recs.

Definition three_of_four : list (list (option string)) :=
  [[Some "2020-01-01 00:00:00"; Some "21.5"];
   [Some "2020-01-01 02:00:00"; Some "22.0"];
   [Some "2020-01-01 03:00:00"; Some "23.0"]].

Definition four_of_four : list (list (option string)) :=
  [[Some "2020-01-01 00:00:00"; Some "21.5"];
   [Some "2020-01-01 01:00:00"; Some "20.9"];
   [Some "2020-01-01 02:00:00"; Some "22.0"];
   [Some "2020-01-01 03:00:00"; Some "23.0"]].

Definition shelf : world :=
  mkWorld ∅
    {[ "out/empty.csv" := series [];
       "out/one.csv" := series [[Some "2020-01-01 00:00:00"; Some "1.5"]];
       "out/three.csv" := series three_of_four;
       "out/four.csv" := series four_of_four;
       "out/a.csv.csv" := series three_of_four;
       "out/novalue.csv" := mkCsv ["datetime"; "rain"] [[Some "2020-01-01 00:00:00"; Some "1.5"]] ]}
    [].

End Sample.

(* ===================================================================== *)
(** ** The rest of the script: acquisition, fan-out, report *)
(* ===================================================================== *)

(** Text of the log messages, with the accented letters as Latin-1 code
    points. *)
Module Msg.

Definition i_acute : string := String "237" "".
Definition o_acute : string := String "243" "".
Definition c_cedilla : string := String "231" "".
Definition a_tilde : string := String "227" "".

Definition nao : string := "n" ++ a_tilde ++ "o".
Definition concluido : string := "conclu" ++ i_acute ++ "do".
Definition diretorio : string := "Diret" ++ o_acute ++ "rio".
Definition relatorio : string := "Relat" ++ o_acute ++ "rio".
Definition geracao : string := "gera" ++ c_cedilla ++ a_tilde ++ "o".

End Msg.

(** [zipfile.ZipFile]: the members in archive order ([infolist()]) and
    what [open] finds under a name. *)
Record Archive : Type := {
  infolist : list ZipInfo;
  members : gmap string Frame.CsvFile
}.

(** What [requests.get(url, timeout=60)] followed by
    [raise_for_status()] comes to: a [RequestException] (no connection, no
    answer in time, an error status) with its text, or a body, which is a
    zip archive or is not. *)
Inductive response : Type :=
  | Refused (reason : string)
  | Content (body : option Archive).

(** An exception at the top level of the script: [zipfile.BadZipFile], or
    one of those of [Py.exn]. *)
Inductive failure : Type :=
  | BadZipFile
  | Inner (e : Py.exn).

(** Statements that may end in a [failure]. *)
Definition Top (A : Type) : Type := world -> (failure + A) * world.

Definition finish {A} (a : A) : Top A := fun w => (inr a, w).

Definition throw {A} (e : failure) : Top A := fun w => (inl e, w).

Definition then_ {A B} (m : Top A) (f : A -> Top B) : Top B :=
  fun w =>
    match m w with
    | (inr a, w') => f a w'
    | (inl e, w') => (inl e, w')
    end.

(** A statement of [M] at the top level. *)
Definition run {A} (m : M A) : Top A :=
  fun w =>
    match m w with
    | (Py.Return a, w') => (inr a, w')
    | (Py.Raise e, w') => (inl (Inner e), w')
    end.

Fixpoint for_each {A} (f : A -> Top unit) (l : list A) : Top unit :=
  match l with
  | [] => finish tt
  | a :: l' => then_ (f a) (fun _ => for_each f l')
  end.

(** The tasks handed to a [ThreadPoolExecutor], run in the order in
    which they are submitted: every task is run, whatever the others
    do, and its outcome kept in its future. *)
Fixpoint submit_all (tasks : list (M unit)) : world -> list (Py.outcome unit) * world :=
  fun w =>
    match tasks with
    | [] => ([], w)
    | task :: tasks' =>
        let (o, w1) := task w in
        let (os, w2) := submit_all tasks' w1 in
        (o :: os, w2)
    end.

(** [for future in futures: future.result()]: the first exception kept
    in a future is raised again. *)
Fixpoint results (futures : list (Py.outcome unit)) : failure + unit :=
  match futures with
  | [] => inr tt
  | Py.Return _ :: futures' => results futures'
  | Py.Raise e :: _ => inl (Inner e)
  end.

(** What [os.path.isdir] and [os.listdir] answer for a path in a given
    state of the files: [None] when it is not a directory, else the names
    in it, in the order the system lists them. *)
Definition listing : Type := gmap string Frame.CsvFile -> string -> option (list string).

Section Controller.
Context {ops : PandasOps}.
Import Py Frame.

(** Line 19 *)
Definition archive_url (year : string) : string :=
  "https://portal.inmet.gov.br/uploads/dadoshistoricos/" ++ year ++ ".zip".

(** Lines 17-29.  Only a [RequestException] is caught; a body that is not
    a zip archive makes [zipfile.ZipFile] raise [BadZipFile]. *)
Definition download_inmet_zip (portal : string -> response) (year : string)
  : Top (option Archive) :=
  let url := archive_url year in
  then_ (run (logging INFO ("Baixando dados para o ano " ++ year ++ " de " ++ url)%string))
  (fun _ =>
  match portal url with
  | Refused reason =>
      then_ (run (logging ERROR
                    ("Falha no download para o ano " ++ year ++ ". Erro: " ++ reason)%string))
      (fun _ => finish None)
  | Content None => throw BadZipFile
  | Content (Some zip_file) =>
      then_ (run (logging INFO
                    ("Download do ano " ++ year ++ " " ++ Msg.concluido
                     ++ " com sucesso.")%string))
      (fun _ => finish (Some zip_file))
  end).

(** Line 129 *)
Definition is_csv_member (f : ZipInfo) : bool :=
  Path.endswith (Path.lower (filename f)) ".csv".

(** Lines 124-133. *)
Definition process_year_data (portal : string -> response) (year output_root : string)
  : Top unit :=
  then_ (download_inmet_zip portal year) (fun zip_file =>
  match zip_file with
  | None => finish tt
  | Some zip_file =>
      let csv_files := List.filter is_csv_member (infolist zip_file) in
      fun w =>
        let (futures, w') :=
          submit_all
            (map (fun csv_info =>
                    process_station_csv csv_info (members zip_file) output_root year)
                 csv_files) w in
        (results futures, w')
  end).

(** A text cell as [to_csv] writes it: nothing for the empty string. *)
Definition text_field (s : string) : option string :=
  if String.eqb s "" then None else Some s.

(** Lines 118-120: [pd.DataFrame(report_data).to_csv(path, sep=';',
    index=False)] *)
Definition report_csv (data : list CompletenessRecord) : CsvFile :=
  mkCsv ["station_code"; "completeness"]
        (map (fun r => [text_field (station_code r); render (Num (completeness r))]) data).

Definition processed_dir (output_root var year : string) : string :=
  Path.join output_root ["inmet_stations"; "processed"; var; year].

Definition report_path (output_root var year : string) : string :=
  Path.join output_root [(var ++ "_" ++ year ++ "_completeness.csv")%string].

(** Lines 107-121, the body of the loop for one variable. *)
Definition report_variable (ls : listing) (year output_root var : string) : M unit :=
  let dir := processed_dir output_root var year in
  w <- get_world ;;
  match ls (files w) dir with
  | None =>
      logging WARNING
        (Msg.diretorio ++ " de dados processados " ++ Msg.nao ++ " encontrado para "
         ++ var ++ "/" ++ year ++ ". Pulando " ++ Path.lower Msg.relatorio ++ ".")%string
  | Some names =>
      let station_files :=
        map (fun f => Path.join dir [f]) (List.filter (fun f => Path.endswith f ".csv") names) in
      data <- report_data station_files ;;
      match data with
      | [] => ret tt
      | _ =>
          let path := report_path output_root var year in
          write_file path (report_csv data) ;;
          logging INFO
            (Msg.relatorio ++ " de completude gerado em: " ++ path)%string
      end
  end.

(** Lines 102-121 *)
Definition generate_completeness_report (ls : listing) (year output_root : string) : M unit :=
  logging INFO
    ("Iniciando " ++ Msg.geracao ++ " de " ++ Path.lower Msg.relatorio
     ++ "s de completude para " ++ year ++ ".")%string ;;
  report_variable ls year output_root "total_precipitation" ;;
  report_variable ls year output_root "2m_air_temperature".

(** Lines 146-150, one turn of the loop over the years. *)
Definition run_year (portal : string -> response) (ls : listing) (output_root year : string)
  : Top unit :=
  then_ (run (logging INFO ("--- Iniciando processamento para o ano de " ++ year ++ " ---")%string))
  (fun _ =>
  then_ (process_year_data portal year output_root) (fun _ =>
  then_ (run (generate_completeness_report ls year output_root)) (fun _ =>
  run (logging INFO ("--- Finalizado processamento para o ano de " ++ year ++ " ---")%string)))).

(** Lines 145-150, the loop over the years given on the command line. *)
Definition run_years (portal : string -> response) (ls : listing) (years : list string)
    (output_root : string) : Top unit :=
  for_each (run_year portal ls output_root) years.

End Controller.

(* ===================================================================== *)
(** ** What one station member leaves behind *)
(* ===================================================================== *)

Section StationReadings.
Context {ops : PandasOps}.
Import Py Frame.

(** Lines 40-50: the table of a member. *)
Definition table_of (zip_file : gmap string CsvFile) (info : ZipInfo) : outcome DataFrame :=
  match zip_file !! filename info with
  | None => Raise (KeyError (filename info))
  | Some f => and_then (parse_csv f) (fun d0 => and_then (stamped d0) indexed)
  end.

(** Lines 53-62 and 65-74: the file written for a variable, if any. *)
Definition variable_file (marker : string) (t : DataFrame) : outcome (option CsvFile) :=
  match find_column marker t with
  | Some col =>
      if String.eqb col "" then Return None
      else and_then (projection col t) (fun s => Return (Some (to_csv s)))
  | None => Return None
  end.

(** The path of lines 59-61 and 71-73. *)
Definition station_path (output_root segment year code : string) : string :=
  Path.join (Path.join output_root ["inmet_stations"; "processed"; segment; year])
            [(code ++ ".csv")%string].

Definition put (path : string) (o : option CsvFile) (fs : gmap string CsvFile)
  : gmap string CsvFile :=
  match o with
  | Some f => <[path := f]> fs
  | None => fs
  end.

Definition success_line (code : string) : level * string :=
  (INFO, (estacao ++ " " ++ code ++ " processada com sucesso.")%string).

Definition warning_line (code name : string) (e : exn) : level * string :=
  (WARNING, ("Erro ao processar a " ++ Path.lower estacao ++ " " ++ code ++ " do arquivo "
             ++ name ++ ": " ++ exn_text e)%string).

(** The files and the log line a recognised member leaves: the two
    series when all goes well, what was written before the exception
    otherwise. *)
Definition station_effect (zip_file : gmap string CsvFile) (info : ZipInfo)
    (output_root year code : string) (fs : gmap string CsvFile)
  : gmap string CsvFile * (level * string) :=
  let rain := station_path output_root "total_precipitation" year code in
  let temp := station_path output_root "2m_air_temperature" year code in
  match table_of zip_file info with
  | Raise e => (fs, warning_line code (filename info) e)
  | Return t =>
      match variable_file "precipitacao total" t with
      | Raise e => (fs, warning_line code (filename info) e)
      | Return o1 =>
          match variable_file "bulbo seco" t with
          | Raise e => (put rain o1 fs, warning_line code (filename info) e)
          | Return o2 => (put temp o2 (put rain o1 fs), success_line code)
          end
      end
  end.

(** A file in the form of a series: the header [datetime], [value], and
    in every record a timestamp and a number as [to_csv] prints them, the
    timestamps pairwise distinct. *)
Definition series_file (f : CsvFile) : Prop :=
  exists obs : list (Z * Q),
    NoDup (map fst obs)
    /\ f = mkCsv ["datetime"; "value"]
             (map (fun o : Z * Q => [Some (repr_timestamp o.1); Some (repr_float o.2)]) obs).

End StationReadings.

(* ===================================================================== *)
(** ** Which code of a name is taken *)
(* ===================================================================== *)

(** The pattern of line 34 from the underscore before the group on,
    [_[A-Z]\d{3}_.*], matches at the head of [s]. *)
Definition code_here (s : list ascii) : bool :=
  match Re.run [Re.One (Re.Lit "_")] s (fun s1 =>
        Re.run Re.group1 s1 (fun s2 =>
        Re.run Re.after_group s2 (fun _ => Some tt))) with
  | Some _ => true
  | None => false
  end.

(** The same, with [group(1)] as its result: what is left of the pattern
    once [INMET_.*] is passed. *)
Definition tail_group (s : list ascii) : option (list ascii) :=
  Re.run [Re.One (Re.Lit "_")] s (fun s1 =>
  Re.run Re.group1 s1 (fun s2 =>
  Re.run Re.after_group s2 (fun _ => Some (take (length s1 - length s2) s1)))).

(** Beyond position [n], [s] nowhere reads [_<code>_]. *)
Definition no_code_after (n : nat) (s : list ascii) : bool :=
  forallb (fun i => negb (code_here (drop i s))) (seq (S n) (length s - n)).

(* ===================================================================== *)
(** ** What the report holds *)
(* ===================================================================== *)

Section ReportReadings.
Context {ops : PandasOps}.
Import Py Frame.

(** The record of a station file, given the files. *)
Definition station_record (fs : gmap string CsvFile) (path : string) : CompletenessRecord :=
  {| station_code := Path.replace (Path.basename path) ".csv" "";
     completeness := ratio_of_file (fs !! path) |}.

(** The records of the names listed in a directory, in the order of the
    listing. *)
Definition listed_records (fs : gmap string CsvFile) (dir : string) (names : list string)
  : list CompletenessRecord :=
  map (fun f => station_record fs (Path.join dir [f]))
      (List.filter (fun f => Path.endswith f ".csv") names).

Definition missing_line (var year : string) : level * string :=
  (WARNING,
   (Msg.diretorio ++ " de dados processados " ++ Msg.nao ++ " encontrado para "
    ++ var ++ "/" ++ year ++ ". Pulando " ++ Path.lower Msg.relatorio ++ ".")%string).

Definition report_line (path : string) : level * string :=
  (INFO, (Msg.relatorio ++ " de completude gerado em: " ++ path)%string).

Definition start_line (year : string) : level * string :=
  (INFO,
   ("Iniciando " ++ Msg.geracao ++ " de " ++ Path.lower Msg.relatorio
    ++ "s de completude para " ++ year ++ ".")%string).

(** The timestamps [s], [s] + 1 h, ... of [n] consecutive hours. *)
Definition hours (s : Z) (n : nat) : list Z :=
  map (fun k => (s + Z.of_nat k * Num.hour_ns)%Z) (seq 0 n).

End ReportReadings.

(* ===================================================================== *)
(** ** Sample members, portal and directory listing *)
(* ===================================================================== *)

Module Cases.
Import Py Frame Sample.

(** A member without the date column. *)
Definition undated_member : CsvFile :=
  mkCsv ["Hora UTC"; precipitation; temperature]
    [[Some "0000 UTC"; Some "0"; Some "21.5"]].

(** A member with neither variable. *)
Definition bare_member : CsvFile :=
  mkCsv ["Data"; "Hora UTC"; "UMIDADE RELATIVA DO AR, HORARIA (%)"]
    [[Some "2020/01/01"; Some "0000 UTC"; Some "80"]].

(** A member whose temperature comes under two labels that normalise to
    the same text. *)
Definition twin_member : CsvFile :=
  mkCsv ["Data"; "Hora UTC"; precipitation; "BULBO SECO"; "bulbo seco "]
    [[Some "2020/01/01"; Some "0000 UTC"; Some "0"; Some "21.5"; Some "21.6"]].

Definition undated_info : ZipInfo := {| filename := "INMET_S_B001_SEM_DATA.CSV" |}.
Definition bare_info : ZipInfo := {| filename := "INMET_S_B002_UMIDADE.CSV" |}.
Definition twin_info : ZipInfo := {| filename := "INMET_S_B003_DUPLA.CSV" |}.

Definition odd_archive : gmap string CsvFile :=
  {[ "INMET_S_B001_SEM_DATA.CSV" := undated_member;
     "INMET_S_B002_UMIDADE.CSV" := bare_member;
     "INMET_S_B003_DUPLA.CSV" := twin_member ]}.

(** The archive of the year 2020: the two station members, a text file,
    and a note whose name carries a station code but does not end in
    [.csv]. *)
Definition year_archive : Archive :=
  {| infolist := [hourly_info; {| filename := "LEIAME.txt" |}; half_hour_info;
                  {| filename := "INMET_X_A009_NOTA.TXT" |}];
     members := <["INMET_X_A009_NOTA.TXT" := hourly_member]>
                  (<["LEIAME.txt" := mkCsv [] []]> archive) |}.

(** A portal that has the year 2020, answers 2021 with a page that is
    no archive, and cannot be reached for any other year. *)
Definition portal (url : string) : response :=
  if String.eqb url "https://portal.inmet.gov.br/uploads/dadoshistoricos/2020.zip"
  then Content (Some year_archive)
  else if String.eqb url "https://portal.inmet.gov.br/uploads/dadoshistoricos/2021.zip"
  then Content None
  else Refused "Max retries exceeded".

(** What follows [dir/] in [path], when [path] lies below [dir]. *)
Definition below (dir path : string) : option string :=
  let pre := (dir ++ "/")%string in
  if Path.startswith path pre
  then Some (String.substring (String.length pre) (String.length path - String.length pre) path)
  else None.

(** A listing read off the files: a directory is there when a file lies
    below it, and its names are those of the files directly in it. *)
Definition listdir : listing :=
  fun fs dir =>
    match omap (below dir) (map fst (map_to_list fs)) with
    | [] => None
    | rests => Some (List.filter (fun n => negb (Path.contains "/" n)) rests)
    end.

(** Four consecutive hours, each with a value, not in order. *)
Definition full_day : list (list (option string)) :=
  [[Some "2020-01-01 01:00:00"; Some "20.9"];
   [Some "2020-01-01 00:00:00"; Some "21.5"];
   [Some "2020-01-01 02:00:00"; Some "22.0"];
   [Some "2020-01-01 03:00:00"; Some "23.0"]].

Definition full_shelf : world :=
  mkWorld ∅ {[ "out/full.csv" := series full_day ]} [].

(** Midnight of 2020-01-01, in nanoseconds. *)
Definition midnight : Z := 1577836800000000000.

(** Twenty-three observations over forty hours: the first twenty-two
    hours of a day, and the sixteenth hour of the next. *)
Definition sparse_stamps : list Z :=
  map (fun k => (midnight + Z.of_nat k * Num.hour_ns)%Z) (seq 0 22 ++ [39]).

Definition sparse_records : list (string * string) :=
  map (fun t => (@repr_timestamp Reference.ops t, "1.0")) sparse_stamps.

Definition sparse_shelf : world :=
  mkWorld ∅
    {[ "out/sparse.csv" :=
         mkCsv ["datetime"; "value"]
               (map (fun r : string * string => [Some r.1; Some r.2]) sparse_records) ]}
    [].

(** The state of [Sample.processed] under another log and with the
    frames of [Sample.tabled]. *)
Definition processed_later : world :=
  mkWorld (heap tabled) (files processed) [(INFO, "outra rodada")].

End Cases.

(* ===================================================================== *)
(** * Properties *)
(* ===================================================================== *)

(** ** Sample runs of the string functions *)

Example re_search_typical :
  Re.search "INMET_CO_DF_A001_BRASILIA_01-01-2020_A_31-12-2020.CSV" = Some "A001".
Proof. reflexivity. Qed.

Example re_search_folder :
  Re.search "2019/INMET_S_RS_B807_PORTO ALEGRE.CSV" = Some "B807".
Proof. reflexivity. Qed.

Example re_search_last_code :
  Re.search "INMET_N_A001_B002_x.csv" = Some "B002".
Proof. reflexivity. Qed.

Example re_search_too_short :
  Re.search "INMET_A001_x.csv" = None.
Proof. reflexivity. Qed.

Example replace_csv : Path.replace "A001.csv" ".csv" "" = "A001".
Proof. reflexivity. Qed.

Example replace_every_csv : Path.replace "a.csv.b.csv" ".csv" "" = "a.b".
Proof. reflexivity. Qed.

Example replace_overlap : Path.replace "aaaa" "aa" "b" = "bb".
Proof. reflexivity. Qed.

Example basename_nested : Path.basename "out/2020/A001.csv" = "A001.csv".
Proof. reflexivity. Qed.

Example join_segments :
  Path.join "out" ["inmet_stations"; "processed"; "total_precipitation"; "2020"]
  = "out/inmet_stations/processed/total_precipitation/2020".
Proof. reflexivity. Qed.

Example strip_lower : Path.lower (Path.strip "  Hora UTC ") = "hora utc".
Proof. reflexivity. Qed.

Example round2_tie_even : Num.round2 (Num.truediv 1 8) = (3 # 25)%Q.
Proof. reflexivity. Qed.

Example round2_tie_odd : Num.round2 (Num.truediv 3 8) = (19 # 50)%Q.
Proof. reflexivity. Qed.

Example round2_four_fifths : Num.round2 (Num.truediv 4 5) = (4 # 5)%Q.
Proof. reflexivity. Qed.

(** The float nearest to 23/40 lies below 0.575, and so does its
    hundredfold: the ratio is 0.57, not 0.58. *)
Example round2_float_quotient : Num.round2 (Num.truediv 23 40) = (57 # 100)%Q.
Proof. reflexivity. Qed.

Example py_int_truncates : Num.py_int (- (7 # 2)) = (-3)%Z.
Proof. reflexivity. Qed.


(* ===================================================================== *)
(** ** Facts about the matcher *)
(* ===================================================================== *)

Module ReFacts.
Import Re.

Section Backtracking.
Context {R : Type}.
Implicit Types (k : list ascii -> option R) (s l : list ascii).

Lemma star_sound a k s r :
  star a k s = Some r ->
  exists l1 l2, s = l1 ++ l2 /\ Forall (fun c => atom_matches a c = true) l1 /\ k l2 = Some r.
Proof.
  induction s as [|c s IH]; simpl; intros H.
  - exists [], []. auto.
  - destruct (atom_matches a c) eqn:Hc.
    + destruct (star a k s) as [r'|] eqn:Hs.
      * injection H as ->. destruct (IH eq_refl) as (l1 & l2 & -> & Hl1 & Hk).
        exists (c :: l1), l2. split; [done|]. split; [by constructor|done].
      * exists [], (c :: s). auto.
    + exists [], (c :: s). auto.
Qed.

Lemma star_complete a k l1 l2 :
  Forall (fun c => atom_matches a c = true) l1 ->
  is_Some (k l2) -> is_Some (star a k (l1 ++ l2)).
Proof.
  intros Hl1 Hk. induction Hl1 as [|c l1 Hc _ IH]; simpl.
  - destruct l2 as [|c l2]; simpl; [done|].
    destruct (atom_matches a c); [|done].
    by destruct (star a k l2).
  - rewrite Hc. by destruct IH as [r ->].
Qed.

Lemma run_sound p : forall s k r,
  run p s k = Some r ->
  exists l1 l2, s = l1 ++ l2 /\ matches p l1 /\ k l2 = Some r.
Proof.
  induction p as [|[a|a] p IH]; simpl; intros s k r H.
  - exists [], s. auto.
  - destruct s as [|c s]; [done|].
    destruct (atom_matches a c) eqn:Hc; [|done].
    destruct (IH _ _ _ H) as (l1 & l2 & -> & Hm & Hk).
    exists (c :: l1), l2. split; [done|]. split; [|done]. by exists c, l1.
  - apply star_sound in H as (l1 & l2 & -> & Hl1 & H).
    destruct (IH _ _ _ H) as (l3 & l4 & -> & Hm & Hk).
    exists (l1 ++ l3), l4. split; [by rewrite app_assoc|]. split; [|done].
    by exists l1, l3.
Qed.

Lemma run_complete p : forall l1 l2 k,
  matches p l1 -> is_Some (k l2) -> is_Some (run p (l1 ++ l2) k).
Proof.
  induction p as [|[a|a] p IH]; simpl; intros l1 l2 k Hm Hk.
  - by subst.
  - destruct Hm as (c & l' & -> & Hc & Hm). simpl. rewrite Hc. by apply IH.
  - destruct Hm as (l & l' & -> & Hl & Hm). rewrite <- app_assoc.
    apply star_complete; [done|]. by apply IH.
Qed.
End Backtracking.

Lemma matches_before_group l :
  matches before_group l <-> exists a, l = chars "INMET_" ++ a ++ chars "_" /\ one_line a.
Proof.
  unfold before_group, one_line; simpl. split.
  - intros (?&?&->&?%bool_decide_eq_true&?&?&->&?%bool_decide_eq_true&?&?&->&?%bool_decide_eq_true
            &?&?&->&?%bool_decide_eq_true&?&?&->&?%bool_decide_eq_true&?&?&->&?%bool_decide_eq_true
            &a&l2&->&Ha&?&?&->&?%bool_decide_eq_true&->).
    subst. by exists a.
  - intros (a & -> & Ha). repeat (eexists _, _; split; [reflexivity|]; split; [reflexivity|]).
    exists a, ["_"%char]. split; [done|]. split; [done|].
    by exists "_"%char, [].
Qed.

Lemma matches_after_group l :
  matches after_group l <-> exists b, l = chars "_" ++ b /\ one_line b.
Proof.
  unfold after_group, one_line; simpl. split.
  - intros (?&?&->&?%bool_decide_eq_true&b&?&->&Hb&->). subst.
    exists b. by rewrite app_nil_r.
  - intros (b & -> & Hb). eexists _, _. split; [reflexivity|]. split; [reflexivity|].
    exists b, []. by rewrite app_nil_r.
Qed.

Lemma take_group (l r : list ascii) :
  take (length (l ++ r) - length r) (l ++ r) = l.
Proof.
  replace (length (l ++ r) - length r) with (length l) by (rewrite length_app; lia).
  apply take_app_length.
Qed.

Lemma match_at_sound s g :
  match_at s = Some g ->
  exists a b, s = chars "INMET_" ++ a ++ chars "_" ++ g ++ chars "_" ++ b
              /\ one_line a /\ is_code g.
Proof.
  unfold match_at. intros H.
  apply run_sound in H as (l1 & s1 & -> & H1 & H).
  apply run_sound in H as (l2 & s2 & -> & H2 & H).
  apply run_sound in H as (l3 & s3 & -> & H3 & H).
  apply matches_before_group in H1 as (a & -> & Ha).
  apply matches_after_group in H3 as (b & -> & Hb).
  rewrite take_group in H. injection H as <-.
  exists a, (b ++ s3). split; [|done].
  by rewrite <- !app_assoc.
Qed.


Lemma search_from_sound s g : search_from s = Some g -> embedded g s.
Proof.
  induction s as [|c s IH]; cbn [search_from].
  - destruct (match_at []) eqn:H; [|done]. intros [= ->].
    apply match_at_sound in H as (a & b & Hs & ? & ?). by exists [], a, b.
  - destruct (match_at (c :: s)) eqn:H.
    + intros [= ->]. apply match_at_sound in H as (a & b & Hs & ? & ?).
      by exists [], a, b.
    + intros (pre & a & b & -> & ? & ?)%IH. by exists (c :: pre), a, b.
Qed.


Lemma chars_text l : chars (text l) = l.
Proof. apply list_ascii_of_string_of_list_ascii. Qed.

Lemma text_chars s : text (chars s) = s.
Proof. apply string_of_list_ascii_of_string. Qed.

Lemma is_code_length c : is_code c -> length c = 4.
Proof. intros (?&?&->&_&?&?&->&_&?&?&->&_&?&?&->&_&->). done. Qed.

End ReFacts.

(* ===================================================================== *)
(** ** Rounding and whole hours *)
(* ===================================================================== *)

Section NumFacts.
Import Num Spec.
Local Open Scope Q_scope.

Lemma pow2_pos e : 0 < 2 ^ e.
Proof. apply Qpower_0_lt; reflexivity. Qed.

Lemma pow2_succ e : 2 ^ (e + 1) == 2 * 2 ^ e.
Proof. rewrite Qpower_plus by discriminate. rewrite Qpower_1_r. ring. Qed.

Lemma pow2_le e e' : (e <= e')%Z -> 2 ^ e <= 2 ^ e'.
Proof. intros H. apply Qpower_le_compat_l; [exact H|discriminate]. Qed.

Lemma pow2_Z k : (0 <= k)%Z -> inject_Z (2 ^ k) == 2 ^ k.
Proof. intros H. rewrite Zpower_Qpower by exact H; reflexivity. Qed.

Lemma round_half_even_bounds x :
  (Qfloor x <= round_half_even x <= Qfloor x + 1)%Z.
Proof.
  unfold round_half_even. destruct (_ ?= _); [destruct (Z.even _)| |]; lia.
Qed.

Lemma round_half_even_mono x y : x <= y -> (round_half_even x <= round_half_even y)%Z.
Proof.
  intros Hxy. pose proof (Qfloor_resp_le _ _ Hxy) as Hf.
  destruct (Z.eq_dec (Qfloor x) (Qfloor y)) as [Heq|Hne].
  - unfold round_half_even. rewrite <- Heq.
    destruct (x - inject_Z (Qfloor x) ?= 1 # 2) eqn:Hx;
    destruct (y - inject_Z (Qfloor x) ?= 1 # 2) eqn:Hy;
      try (destruct (Z.even (Qfloor x))); try lia;
      first [apply Qeq_alt in Hx | apply Qlt_alt in Hx | apply Qgt_alt in Hx];
      first [apply Qeq_alt in Hy | apply Qlt_alt in Hy | apply Qgt_alt in Hy];
      exfalso; lra.
  - pose proof (round_half_even_bounds x). pose proof (round_half_even_bounds y). lia.
Qed.

Lemma round_half_even_Z n : round_half_even (inject_Z n) = n.
Proof.
  unfold round_half_even. rewrite Qfloor_Z.
  assert (H : inject_Z n - inject_Z n < 1 # 2) by lra.
  apply (proj1 (Qlt_alt _ _)) in H. rewrite H. reflexivity.
Qed.

Lemma round_half_even_le x n : x <= inject_Z n -> (round_half_even x <= n)%Z.
Proof. intros Hx. rewrite <- (round_half_even_Z n). apply round_half_even_mono, Hx. Qed.

Lemma round_half_even_ge x n : inject_Z n <= x -> (n <= round_half_even x)%Z.
Proof. intros Hx. rewrite <- (round_half_even_Z n). apply round_half_even_mono, Hx. Qed.

(** The nearest integer is at most one half away. *)
Lemma round_half_even_near x :
  x - (1 # 2) <= inject_Z (round_half_even x) <= x + (1 # 2).
Proof.
  pose proof (Qfloor_le x) as Hlo. pose proof (Qlt_floor x) as Hhi.
  rewrite inject_Z_plus in Hhi. change (inject_Z 1) with 1 in Hhi.
  unfold round_half_even.
  destruct (x - inject_Z (Qfloor x) ?= 1 # 2) eqn:Hc;
    first [apply Qeq_alt in Hc | apply Qlt_alt in Hc | apply Qgt_alt in Hc].
  - destruct (Z.even (Qfloor x)); rewrite ?inject_Z_plus; change (inject_Z 1) with 1; lra.
  - lra.
  - rewrite inject_Z_plus. change (inject_Z 1) with 1. lra.
Qed.

Lemma round_half_even_comp x y : x == y -> round_half_even x = round_half_even y.
Proof.
  intros Hxy. apply Z.le_antisymm; apply round_half_even_mono; rewrite Hxy; apply Qle_refl.
Qed.

(** The binade of a positive number. *)
Lemma exponent_spec x :
  0 < x -> 2 ^ 52 * 2 ^ exponent x <= x /\ x < 2 ^ 53 * 2 ^ exponent x.
Proof.
  intros Hx. destruct x as [n d]. unfold Qlt in Hx. simpl in Hx. rewrite Z.mul_1_r in Hx.
  unfold exponent. cbn [Qnum Qden]. rewrite (Z.abs_eq n) by lia.
  rewrite (Qabs_pos (n # d)) by (unfold Qle; simpl; lia).
  set (ln := Z.log2 n). set (ld := Z.log2 (Z.pos d)).
  assert (Hln : (2 ^ ln <= n < 2 ^ (ln + 1))%Z).
  { unfold ln. pose proof (Z.log2_spec n Hx). lia. }
  assert (Hld : (2 ^ ld <= Z.pos d < 2 ^ (ld + 1))%Z).
  { unfold ld. pose proof (Z.log2_spec (Z.pos d) eq_refl). lia. }
  assert (H0n : (0 <= ln)%Z) by apply Z.log2_nonneg.
  assert (H0d : (0 <= ld)%Z) by apply Z.log2_nonneg.
  assert (Hx' : n # d == inject_Z n / inject_Z (Z.pos d)) by (apply Qmake_Qdiv).
  assert (Hd : 0 < inject_Z (Z.pos d)) by (unfold Qlt; simpl; lia).
  assert (Qn1 : 2 ^ ln <= inject_Z n) by (rewrite <- pow2_Z by lia; rewrite <- Zle_Qle; lia).
  assert (Qn2 : inject_Z n < 2 ^ (ln + 1)) by (rewrite <- pow2_Z by lia; rewrite <- Zlt_Qlt; lia).
  assert (Qd1 : 2 ^ ld <= inject_Z (Z.pos d)) by (rewrite <- pow2_Z by lia; rewrite <- Zle_Qle; lia).
  assert (Qd2 : inject_Z (Z.pos d) < 2 ^ (ld + 1)) by (rewrite <- pow2_Z by lia; rewrite <- Zlt_Qlt; lia).
  set (e0 := (ln - ld - 52)%Z).
  assert (Lo : 2 ^ 52 * 2 ^ (e0 - 1) <= n # d).
  { rewrite Hx'. apply Qle_shift_div_l; [exact Hd|].
    assert (E : 2 ^ 52 * 2 ^ (e0 - 1) * 2 ^ (ld + 1) == 2 ^ ln).
    { rewrite <- !Qpower_plus by discriminate. unfold e0.
      replace (52 + (ln - ld - 52 - 1) + (ld + 1))%Z with ln by lia. reflexivity. }
    pose proof (pow2_pos 52). pose proof (pow2_pos (e0 - 1)).
    assert (0 < 2 ^ 52 * 2 ^ (e0 - 1)) by nra.
    revert E Qn1 Qd2 Hd H1. generalize (2 ^ 52 * 2 ^ (e0 - 1)) (2 ^ (ld + 1)) (2 ^ ln)
      (inject_Z (Z.pos d)) (inject_Z n). intros. nra. }
  assert (Hi : n # d < 2 ^ 53 * 2 ^ e0).
  { rewrite Hx'. apply Qlt_shift_div_r; [exact Hd|].
    assert (E : 2 ^ 53 * 2 ^ e0 * 2 ^ ld == 2 ^ (ln + 1)).
    { rewrite <- !Qpower_plus by discriminate. unfold e0.
      replace (53 + (ln - ld - 52) + ld)%Z with (ln + 1)%Z by lia. reflexivity. }
    pose proof (pow2_pos 53). pose proof (pow2_pos e0).
    assert (0 < 2 ^ 53 * 2 ^ e0) by nra.
    revert E Qn2 Qd1 Hd H1. generalize (2 ^ 53 * 2 ^ e0) (2 ^ ld) (2 ^ (ln + 1))
      (inject_Z (Z.pos d)) (inject_Z n). intros. nra. }
  destruct (Qle_bool (2 ^ 52 * 2 ^ e0) (n # d)) eqn:Ht.
  - apply Qle_bool_iff in Ht. split; assumption.
  - split; [exact Lo|].
    assert (Hn : ~ 2 ^ 52 * 2 ^ e0 <= n # d).
    { intros Hle. apply Qle_bool_iff in Hle. congruence. }
    apply Qnot_le_lt in Hn.
    assert (E : 2 ^ 53 * 2 ^ (e0 - 1) == 2 ^ 52 * 2 ^ e0).
    { rewrite <- !Qpower_plus by discriminate. replace (53 + (e0 - 1))%Z with (52 + e0)%Z by lia.
      reflexivity. }
    rewrite E. exact Hn.
Qed.

Lemma binary64_comp x y : x == y -> binary64 x = binary64 y.
Proof. intros Hxy. unfold binary64. by rewrite (Qred_complete _ _ Hxy). Qed.

Lemma binary64_zero : binary64 0 = 0.
Proof. reflexivity. Qed.

(** A positive number is rounded to a significand of 53 bits in its
    binade. *)
Lemma binary64_pos x :
  0 < x ->
  exists e m,
    binary64 x == inject_Z m * 2 ^ e
    /\ 2 ^ 52 * 2 ^ e <= x /\ x < 2 ^ 53 * 2 ^ e
    /\ m = round_half_even (x / 2 ^ e)
    /\ (2 ^ 52 <= m <= 2 ^ 53)%Z.
Proof.
  intros Hx. unfold binary64.
  assert (Hr : Qred x == x) by apply Qred_correct.
  set (x' := Qred x) in *.
  assert (Hx' : 0 < x') by (rewrite Hr; exact Hx).
  destruct (Qeq_bool x' 0) eqn:Hz.
  { apply Qeq_bool_iff in Hz. rewrite Hz in Hx'. discriminate. }
  destruct (exponent_spec x' Hx') as [Hlo Hhi].
  set (e := exponent x') in *.
  pose proof (pow2_pos e) as He.
  exists e, (round_half_even (x / 2 ^ e)).
  split.
  { rewrite Qred_correct. rewrite (round_half_even_comp (x' / 2 ^ e) (x / 2 ^ e)); [reflexivity|].
    rewrite Hr. reflexivity. }
  rewrite Hr in Hlo, Hhi. split; [exact Hlo|]. split; [exact Hhi|]. split; [reflexivity|].
  split.
  - apply round_half_even_ge. rewrite pow2_Z by lia.
    apply Qle_shift_div_l; [exact He|exact Hlo].
  - apply round_half_even_le. rewrite pow2_Z by lia.
    apply Qlt_le_weak. apply Qlt_shift_div_r; [exact He|exact Hhi].
Qed.

Lemma binary64_nonneg x : 0 <= x -> 0 <= binary64 x.
Proof.
  intros Hx. destruct (Qlt_le_dec 0 x) as [Hpos|Hle].
  - destruct (binary64_pos x Hpos) as (e & m & -> & _ & _ & _ & Hm & _).
    pose proof (pow2_pos e). assert (0 <= inject_Z m).
    { change 0 with (inject_Z 0). rewrite <- Zle_Qle. pose proof (Z.pow_pos_nonneg 2 52). lia. }
    nra.
  - rewrite (binary64_comp x 0) by lra. discriminate.
Qed.

Lemma binary64_mono x y : 0 <= x -> x <= y -> binary64 x <= binary64 y.
Proof.
  intros Hx Hxy. destruct (Qlt_le_dec 0 x) as [Hpos|Hle].
  2:{ rewrite (binary64_comp x 0) by lra. apply binary64_nonneg. lra. }
  assert (Hy : 0 < y) by lra.
  destruct (binary64_pos x Hpos) as (ex & mx & -> & Lx & Ux & Mx & Bx).
  destruct (binary64_pos y Hy) as (ey & my & -> & Ly & Uy & My & By).
  pose proof (pow2_pos ex) as Pex. pose proof (pow2_pos ey) as Pey.
  destruct (Z.lt_trichotomy ex ey) as [Hlt|[Heq|Hgt]].
  - assert (H1 : inject_Z mx <= 2 ^ 53).
    { rewrite <- pow2_Z by lia. rewrite <- Zle_Qle. lia. }
    assert (H2 : 2 ^ 52 <= inject_Z my).
    { rewrite <- pow2_Z by lia. rewrite <- Zle_Qle. lia. }
    assert (H3 : 2 * 2 ^ ex <= 2 ^ ey).
    { rewrite <- pow2_succ. apply pow2_le. lia. }
    assert (E : 2 ^ 53 == 2 * 2 ^ 52) by reflexivity.
    pose proof (pow2_pos 52).
    revert H1 H2 H3 E H Pex Pey.
    generalize (inject_Z mx) (inject_Z my) (2 ^ 53) (2 ^ 52) (2 ^ ex) (2 ^ ey). intros. nra.
  - subst ey. assert (mx <= my)%Z.
    { subst mx my. apply round_half_even_mono. unfold Qdiv.
      apply Qmult_le_compat_r; [exact Hxy|]. apply Qinv_le_0_compat. lra. }
    apply Qmult_le_compat_r; [|lra]. rewrite <- Zle_Qle. assumption.
  - exfalso. assert (H3 : 2 * 2 ^ ey <= 2 ^ ex).
    { rewrite <- pow2_succ. apply pow2_le. lia. }
    assert (E : 2 ^ 53 == 2 * 2 ^ 52) by reflexivity.
    pose proof (pow2_pos 52).
    revert Lx Uy H3 E H Pex Pey Hxy.
    generalize (2 ^ 53) (2 ^ 52) (2 ^ ex) (2 ^ ey). intros. nra.
Qed.

(** The relative error of one rounding is at most 2^-53. *)
Lemma binary64_error x :
  0 <= x -> x * (1 - (1 # 2 ^ 53)) <= binary64 x <= x * (1 + (1 # 2 ^ 53)).
Proof.
  intros Hx. destruct (Qlt_le_dec 0 x) as [Hpos|Hle].
  2:{ rewrite (binary64_comp x 0) by lra. assert (x == 0) as -> by lra. split; discriminate. }
  destruct (binary64_pos x Hpos) as (e & m & -> & Lx & Ux & Mx & Bx).
  pose proof (pow2_pos e) as Pe.
  pose proof (round_half_even_near (x / 2 ^ e)) as [N1 N2]. rewrite <- Mx in N1, N2.
  assert (T : x / 2 ^ e * 2 ^ e == x) by (field; lra).
  assert (E : 2 ^ 52 == 4503599627370496) by reflexivity.
  rewrite E in Lx. change (1 # 2 ^ 53) with (1 # 9007199254740992).
  clear Mx Ux. set (P := 2 ^ e) in *. set (t := x / P) in *. set (M := inject_Z m) in *.
  clearbody M t P.
  assert (A1 : (t - (1 # 2)) * P <= M * P) by (apply Qmult_le_compat_r; lra).
  assert (A2 : M * P <= (t + (1 # 2)) * P) by (apply Qmult_le_compat_r; lra).
  split; lra.
Qed.

Lemma binary64_one : binary64 1 = 1.
Proof. reflexivity. Qed.

Lemma binary64_hundred : binary64 100 = 100.
Proof. reflexivity. Qed.

Lemma binary64_count b : (0 < b)%Z -> 1 <= binary64 (inject_Z b).
Proof.
  intros Hb. rewrite <- binary64_one. apply binary64_mono; [discriminate|].
  change 1 with (inject_Z 1). rewrite <- Zle_Qle. lia.
Qed.

Lemma truediv_nonneg a b : (0 <= a)%Z -> (0 < b)%Z -> 0 <= truediv a b.
Proof.
  intros Ha Hb. apply binary64_nonneg.
  pose proof (binary64_count b Hb).
  assert (0 <= binary64 (inject_Z a)).
  { apply binary64_nonneg. change 0 with (inject_Z 0). rewrite <- Zle_Qle. lia. }
  apply Qle_shift_div_l; lra.
Qed.

Lemma truediv_mono a a' b :
  (0 <= a <= a')%Z -> (0 < b)%Z -> truediv a b <= truediv a' b.
Proof.
  intros Ha Hb. pose proof (binary64_count b Hb) as HB.
  assert (H0 : 0 <= binary64 (inject_Z a)).
  { apply binary64_nonneg. change 0 with (inject_Z 0). rewrite <- Zle_Qle. lia. }
  assert (H1 : binary64 (inject_Z a) <= binary64 (inject_Z a')).
  { apply binary64_mono.
    - change 0 with (inject_Z 0). rewrite <- Zle_Qle. lia.
    - rewrite <- Zle_Qle. lia. }
  apply binary64_mono.
  - apply Qle_shift_div_l; lra.
  - unfold Qdiv. apply Qmult_le_compat_r; [exact H1|]. apply Qinv_le_0_compat. lra.
Qed.

Lemma truediv_same b : (0 < b)%Z -> truediv b b = 1.
Proof.
  intros Hb. pose proof (binary64_count b Hb) as HB. unfold truediv.
  transitivity (binary64 1); [|reflexivity]. apply binary64_comp. field. lra.
Qed.

Lemma truediv_le_one a b : (0 <= a <= b)%Z -> (0 < b)%Z -> truediv a b <= 1.
Proof.
  intros Ha Hb. rewrite <- (truediv_same b Hb). by apply truediv_mono.
Qed.

Lemma round2_eq x : round2 x == round_half_even (binary64 (x * 100)) # 100.
Proof. apply Qred_correct. Qed.

Lemma hundredths_le a b : (a # 100) <= (b # 100) <-> (a <= b)%Z.
Proof. unfold Qle. simpl. lia. Qed.

Lemma round2_mono x y : 0 <= x -> x <= y -> round2 x <= round2 y.
Proof.
  intros Hx Hxy. rewrite !round2_eq. apply hundredths_le, round_half_even_mono.
  apply binary64_mono; lra.
Qed.

Lemma round2_zero : round2 0 = 0.
Proof. reflexivity. Qed.

Lemma round2_one x : x == 1 -> round2 x = 1.
Proof.
  intros Hx. unfold round2. rewrite (binary64_comp (x * 100) 100) by lra. reflexivity.
Qed.

Lemma round2_nonneg x : 0 <= x -> 0 <= round2 x.
Proof. intros Hx. rewrite <- round2_zero. apply round2_mono; [discriminate|exact Hx]. Qed.

Lemma round2_le_one x : 0 <= x -> x <= 1 -> round2 x <= 1.
Proof. intros H0 Hx. rewrite <- (round2_one 1) by reflexivity. by apply round2_mono. Qed.

(** The ratio of two counts, as the code rounds it. *)
Lemma rounded_nonneg a b : (0 <= a)%Z -> (0 < b)%Z -> 0 <= round2 (truediv a b).
Proof. intros. by apply round2_nonneg, truediv_nonneg. Qed.

Lemma rounded_le_one a b : (0 <= a <= b)%Z -> (0 < b)%Z -> round2 (truediv a b) <= 1.
Proof.
  intros Ha Hb. apply round2_le_one; [apply truediv_nonneg; lia|by apply truediv_le_one].
Qed.

Lemma rounded_mono a a' b :
  (0 <= a <= a')%Z -> (0 < b)%Z -> round2 (truediv a b) <= round2 (truediv a' b).
Proof.
  intros Ha Hb. apply round2_mono; [apply truediv_nonneg; lia|by apply truediv_mono].
Qed.

Lemma rounded_same b : (0 < b)%Z -> round2 (truediv b b) = 1.
Proof. intros Hb. rewrite truediv_same by done. reflexivity. Qed.

Lemma close_binary64 x : 0 <= x -> close (1 # 2 ^ 53) (binary64 x) x.
Proof. apply binary64_error. Qed.

Lemma close_trans r1 r2 x y z :
  0 <= r1 <= 1 -> 0 <= r2 <= 1 -> 0 <= z ->
  close r1 x y -> close r2 y z -> close (r1 + r2 + r1 * r2) x z.
Proof.
  unfold close. intros H1 H2 Hz [L1 U1] [L2 U2].
  assert (0 <= y) by nra.
  split; nra.
Qed.

Lemma close_div r A a B b :
  0 <= r -> r <= 1 # 2 -> 0 <= a -> 0 < b -> 0 < B ->
  close r A a -> close r B b -> close (4 * r) (A / B) (a / b).
Proof.
  unfold close. intros H0 Hr Ha Hb HB [LA UA] [LB UB].
  assert (Eq : a / b * b == a) by (field; lra).
  assert (EQ : A / B * B == A) by (field; lra).
  assert (Hq : 0 <= a / b) by (apply Qle_shift_div_l; lra).
  set (q := a / b) in *. set (Q' := A / B) in *. clearbody q Q'.
  assert (Hp : 0 <= q * b) by lra.
  assert (K1 : (1 - 4 * r) * (1 + r) <= 1 - r) by nra.
  assert (K2 : 1 + r <= (1 + 4 * r) * (1 - r)) by nra.
  assert (P1 : (q * b) * ((1 - 4 * r) * (1 + r)) <= (q * b) * (1 - r)) by nra.
  assert (P2 : (q * b) * (1 + r) <= (q * b) * ((1 + 4 * r) * (1 - r))) by nra.
  assert (M1 : (q * b) * (1 - r) == a * (1 - r)) by (rewrite Eq; reflexivity).
  assert (M2 : (q * b) * (1 + r) == a * (1 + r)) by (rewrite Eq; reflexivity).
  split.
  - destruct (Qlt_le_dec (1 - 4 * r) 0) as [Hneg|Hpos].
    + assert (0 <= Q').
      { assert (0 <= A) by nra. assert (0 <= Q' * B) by lra.
        destruct (Qlt_le_dec Q' 0) as [Hn|]; [|assumption]. exfalso. nra. }
      nra.
    + assert (q * (1 - 4 * r) * B <= Q' * B).
      { assert (q * (1 - 4 * r) * B <= q * (1 - 4 * r) * (b * (1 + r))).
        { assert (0 <= q * (1 - 4 * r)) by nra. nra. }
        assert (q * (1 - 4 * r) * (b * (1 + r)) == (q * b) * ((1 - 4 * r) * (1 + r))) by ring.
        lra. }
      apply Qmult_le_r with (z := B); assumption.
  - assert (Q' * B <= q * (1 + 4 * r) * B).
    { assert (q * (1 + 4 * r) * (b * (1 - r)) <= q * (1 + 4 * r) * B).
      { assert (0 <= q * (1 + 4 * r)) by nra. nra. }
      assert (q * (1 + 4 * r) * (b * (1 - r)) == (q * b) * ((1 + 4 * r) * (1 - r))) by ring.
      lra. }
    apply Qmult_le_r with (z := B); assumption.
Qed.

Lemma close_scale r c x y : 0 <= c -> close r x y -> close r (x * c) (y * c).
Proof. unfold close. intros Hc [L U]. split; nra. Qed.

Lemma close_weaken r r' x y : 0 <= y -> r <= r' -> close r x y -> close r' x y.
Proof. unfold close. intros Hy Hr [L U]. split; nra. Qed.

(** The rounded ratio is a whole number of hundredths, at most half a
    hundredth from the exact quotient, give or take the error of the
    float operations. *)
Lemma rounded_spec a b :
  (0 <= a)%Z -> (0 < b)%Z ->
  rounded_to_hundredths (inject_Z a / inject_Z b) (round2 (truediv a b)).
Proof.
  intros Ha Hb.
  assert (Qa : 0 <= inject_Z a) by (change 0 with (inject_Z 0); rewrite <- Zle_Qle; lia).
  assert (Qb : 0 < inject_Z b) by (change 0 with (inject_Z 0); rewrite <- Zlt_Qlt; lia).
  pose proof (binary64_count b Hb) as HB.
  assert (Hq : 0 <= inject_Z a / inject_Z b) by (apply Qle_shift_div_l; lra).
  pose proof (close_binary64 _ Qa) as CA.
  pose proof (close_binary64 (inject_Z b) (Qlt_le_weak _ _ Qb)) as CB.
  change (1 # 2 ^ 53) with (1 # 9007199254740992) in CA, CB.
  assert (CD : close (4 * (1 # 9007199254740992))
                 (binary64 (inject_Z a) / binary64 (inject_Z b)) (inject_Z a / inject_Z b)).
  { apply close_div; try assumption; try lra. }
  assert (HD : 0 <= binary64 (inject_Z a) / binary64 (inject_Z b)).
  { apply Qle_shift_div_l; [lra|]. pose proof (binary64_nonneg _ Qa). lra. }
  pose proof (close_binary64 _ HD) as CX.
  change (1 # 2 ^ 53) with (1 # 9007199254740992) in CX.
  fold (truediv a b) in CX.
  pose proof (close_trans (1 # 9007199254740992) (4 * (1 # 9007199254740992)) _ _ _
                ltac:(split; lra) ltac:(split; lra) Hq CX CD) as CXq.
  pose proof (truediv_nonneg a b Ha (ltac:(lia))) as HX.
  assert (HX100 : 0 <= truediv a b * 100) by lra.
  pose proof (close_scale _ 100 _ _ ltac:(lra) CXq) as CS.
  set (r1 := (1 # 9007199254740992) + 4 * (1 # 9007199254740992)
             + (1 # 9007199254740992) * (4 * (1 # 9007199254740992))) in *.
  pose proof (close_binary64 _ HX100) as CY.
  change (1 # 2 ^ 53) with (1 # 9007199254740992) in CY.
  assert (Hq100 : 0 <= inject_Z a / inject_Z b * 100) by lra.
  pose proof (close_trans (1 # 9007199254740992) r1 _ _ _
                ltac:(split; lra) ltac:(subst r1; split; lra) Hq100 CY CS) as CYq.
  apply (close_weaken _ (1 # 1125899906842624)) in CYq; [|exact Hq100|subst r1; lra].
  pose proof (round_half_even_near (binary64 (truediv a b * 100))) as [N1 N2].
  exists (round_half_even (binary64 (truediv a b * 100))). split.
  - rewrite round2_eq. apply Qmake_Qdiv.
  - change (1 # 2 ^ 50) with (1 # 1125899906842624).
    destruct CYq as [L U].
    set (q := inject_Z a / inject_Z b) in *.
    set (Y := binary64 (truediv a b * 100)) in *.
    set (h := inject_Z (round_half_even Y)) in *. clearbody h Y q.
    apply Qabs_Qle_condition. split; lra.
Qed.

Lemma hundredths_nonneg a : 0 <= (a # 100) <-> (0 <= a)%Z.
Proof. unfold Qle. simpl. lia. Qed.

Lemma hundredths_le_one a : (a # 100) <= 1 <-> (a <= 100)%Z.
Proof. unfold Qle. simpl. lia. Qed.

(** [int(td.total_seconds() / 3600)] counts the whole hours of a
    non-negative difference. *)
Lemma whole_hours td :
  (0 <= td)%Z -> py_int (total_seconds td / 3600) = (td / hour_ns)%Z.
Proof.
  intros Htd. unfold py_int, total_seconds, hour_ns. simpl.
  rewrite Z.mul_1_r. by apply Z.quot_div_nonneg.
Qed.

End NumFacts.

(* ===================================================================== *)
(** ** Running statements *)
(* ===================================================================== *)

Section Steps.
Import Py Frame.

Lemma update_return l f w d d' :
  heap w !! l = Some d -> f d = Return d' ->
  update l f w = (Return tt, set_heap (<[l := d']> (heap w)) w).
Proof. intros Hl Hf. unfold update, bind, deref, lift, store. by rewrite Hl, Hf. Qed.

Lemma update_raise l f w d e :
  heap w !! l = Some d -> f d = Raise e -> update l f w = (Raise e, w).
Proof. intros Hl Hf. unfold update, bind, deref, lift. by rewrite Hl, Hf. Qed.

Lemma deref_return l w d : heap w !! l = Some d -> deref l w = (Return d, w).
Proof. intros Hl. unfold deref. by rewrite Hl. Qed.

Lemma fresh_not_allocated (h : gmap nat DataFrame) l d :
  h !! l = Some d -> l <> fresh (dom h).
Proof.
  intros Hl ->. apply (is_fresh (dom h)). apply elem_of_dom. by exists d.
Qed.

End Steps.

(* ===================================================================== *)
(** ** Station identifier (lines 34-37) *)
(* ===================================================================== *)

Section StationCode.
Context {ops : PandasOps}.
Import Py Re ReFacts.

Lemma search_some name code :
  Re.search name = Some code -> embedded (chars code) (chars name).
Proof.
  unfold Re.search. destruct (search_from (chars name)) as [g|] eqn:Hg; [|done].
  intros [= <-]. rewrite chars_text. by apply search_from_sound.
Qed.



End StationCode.

(* ===================================================================== *)
(** ** Frames *)
(* ===================================================================== *)

Section FrameFacts.
Import Py Frame.

Lemma index_zip_with (g : row -> value -> list value) (rs : list row) (vals : list value) :
  length vals = length rs ->
  map fst (zip_with (fun r v => (r.1, g r v)) rs vals) = map fst rs.
Proof.
  revert vals. induction rs as [|r rs IH]; intros [|v vals]; simpl; try done.
  intros [= Hlen]. by rewrite IH.
Qed.

Lemma setitem_index label vals d d' :
  setitem label vals d = Return d' -> index d' = index d.
Proof.
  unfold setitem, index.
  destruct (length vals =? length (rows d))%nat eqn:Hlen; [|done].
  apply Nat.eqb_eq in Hlen. simpl.
  destruct (positions label (columns d)); intros [= <-]; simpl;
    by apply index_zip_with.
Qed.

Lemma select_index label d d' : select label d = Return d' -> index d' = index d.
Proof.
  unfold select, index. destruct (positions label (columns d)); [done|].
  intros [= <-]. simpl. by rewrite map_map.
Qed.

Lemma dropna_index label d d' :
  dropna label d = Return d' -> index d' `sublist_of` index d.
Proof.
  unfold dropna, index. destruct (positions label (columns d)); [done|].
  intros [= <-]. simpl. apply (fmap_sublist fst), sublist_filter.
Qed.

End FrameFacts.

(** *** Duplicates and filters *)

Section Dedup.
Import Py Frame.

Lemma keep_first_elem ps rs : forall seen r,
  r ∈ keep_first seen ps rs <->
  exists l1 l2, rs = l1 ++ r :: l2 /\ (key ps r ∉ seen)
                /\ forall y, y ∈ l1 -> key ps y <> key ps r.
Proof.
  induction rs as [|a rs IH]; intros seen r; simpl.
  - split; [by intros ?%elem_of_nil|]. intros ([|??] & ? & ? & _); done.
  - destruct (decide (key ps a ∈ seen)) as [Ha|Ha].
    + rewrite IH. split.
      * intros (l1 & l2 & -> & Hr & Hl1). exists (a :: l1), l2.
        split; [done|]. split; [done|].
        intros y [->|Hy]%elem_of_cons; [congruence|by apply Hl1].
      * intros ([|b l1] & l2 & Heq & Hr & Hl1); simplify_eq/=; [done|].
        exists l1, l2. split; [done|]. split; [done|].
        intros y Hy. apply Hl1. by right.
    + rewrite elem_of_cons, IH. split.
      * intros [->|(l1 & l2 & -> & Hr & Hl1)].
        { exists [], rs. split; [done|]. split; [done|]. by intros y ?%elem_of_nil. }
        apply not_elem_of_cons in Hr as [Hra Hr].
        exists (a :: l1), l2. split; [done|]. split; [done|].
        intros y [->|Hy]%elem_of_cons; [congruence|by apply Hl1].
      * intros ([|b l1] & l2 & Heq & Hr & Hl1); simplify_eq/=; [by left|].
        right. exists l1, l2. split; [done|]. split.
        { apply not_elem_of_cons. split; [|done]. intros Heq. eapply Hl1; [by left|done]. }
        intros y Hy. apply Hl1. by right.
Qed.

Lemma keep_first_sublist ps rs : forall seen, keep_first seen ps rs `sublist_of` rs.
Proof.
  induction rs as [|a rs IH]; intros seen; simpl; [done|].
  destruct (decide _); [by apply sublist_cons|by apply sublist_skip].
Qed.

Lemma keep_first_NoDup ps rs : forall seen,
  NoDup (map (key ps) (keep_first seen ps rs)).
Proof.
  induction rs as [|a rs IH]; intros seen; simpl; [constructor|].
  destruct (decide _) as [Ha|Ha]; [done|]. simpl. constructor; [|done].
  intros (r & Hr & Hin)%(list_elem_of_fmap_1 (key ps) _ _ ).
  apply keep_first_elem in Hin as (_ & _ & _ & Hseen & _).
  apply Hseen. rewrite Hr. by left.
Qed.

Lemma filter_split {A} (P : A -> Prop) `{forall x, Decision (P x)} (l : list A) :
  forall l1' r l2',
  filter P l = l1' ++ r :: l2' ->
  exists l1 l2, l = l1 ++ r :: l2 /\ filter P l1 = l1' /\ P r.
Proof.
  induction l as [|a l IH]; intros l1' r l2'.
  - rewrite filter_nil. by destruct l1'.
  - rewrite filter_cons. destruct (decide (P a)) as [Ha|Ha].
    + destruct l1' as [|b l1']; intros [= -> Heq].
      * exists [], l. split; [done|]. by rewrite filter_nil.
      * destruct (IH _ _ _ Heq) as (l1 & l2 & -> & <- & Hr).
        exists (b :: l1), l2. split; [done|]. split; [|done].
        by rewrite filter_cons_True.
    + intros Heq. destruct (IH _ _ _ Heq) as (l1 & l2 & -> & <- & Hr).
      exists (a :: l1), l2. split; [done|]. split; [|done].
      by rewrite filter_cons_False.
Qed.
End Dedup.

(** *** Column positions and frames read from CSV *)

Section WellFormed.
Import Py Frame Spec.

Lemma positions_from_elem label cols : forall k j,
  j ∈ positions_from k label cols <-> k <= j /\ cols !! (j - k) = Some label.
Proof.
  induction cols as [|c cols IH]; intros k j; simpl.
  - split; [by intros ?%elem_of_nil|]. by intros [_ ?].
  - destruct (decide (c = label)) as [->|Hc].
    + rewrite elem_of_cons, IH. split.
      * intros [->|[Hk Hj]]; [by rewrite Nat.sub_diag; split; [lia|]|].
        split; [lia|]. replace (j - k) with (S (j - S k)) by lia. done.
      * intros [Hk Hj]. destruct (decide (j = k)) as [->|Hne]; [by left|right].
        split; [lia|]. replace (j - k) with (S (j - S k)) in Hj by lia. done.
    + rewrite IH. split.
      * intros [Hk Hj]. split; [lia|]. replace (j - k) with (S (j - S k)) by lia. done.
      * intros [Hk Hj]. destruct (decide (j = k)) as [->|Hne].
        { rewrite Nat.sub_diag in Hj. simpl in Hj. congruence. }
        split; [lia|]. replace (j - k) with (S (j - S k)) in Hj by lia. done.
Qed.

Lemma positions_lt label cols j : j ∈ positions label cols -> j < length cols.
Proof.
  unfold positions. rewrite positions_from_elem, Nat.sub_0_r.
  intros [_ Hj]. by eapply lookup_lt_Some.
Qed.

Lemma positions_from_app label c1 c2 k :
  positions_from k label (c1 ++ c2)
  = positions_from k label c1 ++ positions_from (k + length c1) label c2.
Proof.
  revert k. induction c1 as [|c c1 IH]; intros k; simpl.
  - by rewrite Nat.add_0_r.
  - rewrite IH. replace (S k + length c1) with (k + S (length c1)) by lia.
    by destruct (decide _).
Qed.

Lemma read_records_spec n recs : forall i rs,
  read_records n i recs = Return rs ->
  Forall (fun r : row => length r.2 = n) rs
  /\ map fst rs = map Pos (seq i (length recs))
  /\ map snd rs = map (read_cells n) recs.
Proof.
  induction recs as [|fields recs IH]; intros i rs; simpl.
  - intros [= <-]. split; [constructor|done].
  - unfold read_record. destruct (n <? length fields)%nat eqn:Hlen; [done|]. simpl.
    apply Nat.ltb_ge in Hlen.
    destruct (read_records n (S i) recs) as [rs'|] eqn:Hrs; [|done]. simpl.
    intros [= <-]. destruct (IH _ _ Hrs) as (Hwf & Hidx & Hcells). split; [|split].
    + constructor; [|done]. unfold read_cells. simpl.
      rewrite length_app, length_map, length_replicate. lia.
    + simpl. by rewrite Hidx.
    + simpl. by rewrite Hcells.
Qed.

Lemma parse_csv_spec f d :
  parse_csv f = Return d ->
  well_formed d /\ columns d = header f /\ index d = range_index (length (records f))
  /\ map snd (rows d) = map (read_cells (length (header f))) (records f).
Proof.
  unfold parse_csv. destruct (header f) as [|c cols] eqn:Hh; [done|].
  destruct (read_records _ 0 (records f)) as [rs|] eqn:Hrs; [|done]. simpl.
  intros [= <-]. apply read_records_spec in Hrs as (Hwf & Hidx & Hcells).
  unfold well_formed, index. simpl. done.
Qed.

End WellFormed.

(** *** Assigning a column *)

Section Assign.
Import Py Frame Spec.

Lemma Forall_zip_with_rows (A : row -> Prop) (B : value -> Prop) (C : row -> Prop)
    (f : row -> value -> row) rs vals :
  (forall r v, A r -> B v -> C (f r v)) ->
  Forall A rs -> Forall B vals -> Forall C (zip_with f rs vals).
Proof.
  intros Hf Hrs. revert vals. induction Hrs as [|r rs Hr _ IH]; intros vals Hvals; simpl.
  - constructor.
  - destruct Hvals as [|v vals Hv Hvals]; constructor; auto.
Qed.

(** After [df[label] = vals] on a well-formed frame, a column that is the
    only one named [label] holds [vals]. *)
Lemma setitem_cells (B : value -> Prop) label vals d d' i :
  well_formed d -> Forall B vals ->
  setitem label vals d = Return d' ->
  positions label (columns d') = [i] ->
  well_formed d' /\ Forall (fun r => B (cell i r)) (rows d').
Proof.
  unfold setitem, well_formed. intros Hwf Hvals.
  destruct (length vals =? length (rows d))%nat; [|done]. simpl.
  destruct (positions label (columns d)) as [|j ps] eqn:Hps; intros [= <-]; simpl.
  - unfold positions. rewrite positions_from_app. fold (positions label (columns d)).
    rewrite Hps. simpl. rewrite decide_True by done. intros [= <-].
    split.
    + apply (Forall_zip_with_rows (fun r => length r.2 = length (columns d)) (fun _ => True));
        [|done|by apply Forall_true].
      intros r v Hr _. simpl. rewrite !length_app, Hr. done.
    + apply (Forall_zip_with_rows (fun r => length r.2 = length (columns d)) B); [|done..].
      intros r v Hr Hv. unfold cell. simpl.
      rewrite lookup_app_r by lia. rewrite Hr, Nat.sub_diag. done.
  - rewrite Hps. intros [= -> ->]. split.
    + apply (Forall_zip_with_rows (fun r => length r.2 = length (columns d)) (fun _ => True));
        [|done|by apply Forall_true].
      intros r v Hr _. simpl. by rewrite length_insert.
    + apply (Forall_zip_with_rows (fun r => length r.2 = length (columns d)) B); [|done..].
      intros r v Hr Hv. unfold cell. simpl.
      rewrite list_lookup_insert_eq; [done|]. rewrite Hr.
      apply (positions_lt label). rewrite Hps. by left.
Qed.

End Assign.

(** *** Reading a column back *)

Section Cells.
Import Py Frame Spec.

Lemma overwritten_cells i (rs : list row) : forall vals,
  Forall (fun r : row => i < length r.2) rs -> length vals = length rs ->
  map (cell i) (zip_with (fun (r : row) v => (r.1, <[i:=v]> r.2)) rs vals) = vals.
Proof.
  induction rs as [|r rs IH]; intros [|v vals] Hwf Hlen; simplify_eq/=; [done|].
  apply Forall_cons in Hwf as [Hr Hwf]. rewrite IH by done.
  unfold cell at 1. simpl. by rewrite list_lookup_insert_eq.
Qed.

Lemma other_cells i j (rs : list row) : forall vals,
  i <> j -> length vals = length rs ->
  map (cell j) (zip_with (fun (r : row) v => (r.1, <[i:=v]> r.2)) rs vals) = map (cell j) rs.
Proof.
  intros vals Hij. revert vals.
  induction rs as [|r rs IH]; intros [|v vals] Hlen; simplify_eq/=; [done|].
  rewrite IH by done. unfold cell at 1 3. simpl. by rewrite list_lookup_insert_ne.
Qed.

Lemma positions_label label cols j :
  j ∈ positions label cols -> cols !! j = Some label.
Proof. unfold positions. rewrite positions_from_elem, Nat.sub_0_r. by intros [_ ?]. Qed.

Lemma getitem_length d label vals :
  getitem d label = Return vals -> length vals = length (rows d).
Proof.
  unfold getitem. destruct (positions label (columns d)) as [|i [|??]]; try done.
  intros [= <-]. by rewrite length_map.
Qed.

(** Reading back the column just assigned, and any other column. *)
Lemma getitem_setitem label vals d d' old :
  well_formed d -> getitem d label = Return old ->
  setitem label vals d = Return d' ->
  getitem d' label = Return vals
  /\ forall label', label' <> label -> getitem d' label' = getitem d label'.
Proof.
  unfold getitem at 1, setitem, well_formed. intros Hwf.
  destruct (positions label (columns d)) as [|i [|??]] eqn:Hps; try done. intros _.
  destruct (length vals =? length (rows d))%nat eqn:Hlen; [|done]. simpl.
  apply Nat.eqb_eq in Hlen. intros [= <-].
  assert (Hi : i ∈ positions label (columns d)) by (rewrite Hps; by left).
  unfold getitem. simpl. rewrite Hps. split.
  - f_equal. apply overwritten_cells; [|done].
    eapply Forall_impl; [done|]. intros r ->. by eapply positions_lt.
  - intros label' Hne.
    destruct (positions label' (columns d)) as [|j [|??]] eqn:Hps'; try done.
    f_equal. apply other_cells; [|done]. intros ->.
    assert (Hj : j ∈ positions label' (columns d)) by (rewrite Hps'; by left).
    apply positions_label in Hi, Hj. congruence.
Qed.

End Cells.

(* ===================================================================== *)
(** ** The table indexed by timestamp (lines 44-50) *)
(* ===================================================================== *)

Section Normalisation.
Context {ops : PandasOps}.
Import Py Frame Spec.

Lemma to_datetime_format_stamps text : Forall stamp_or_na (to_datetime_format text).
Proof.
  unfold to_datetime_format. induction text as [|x text IH]; simpl; constructor; [|done].
  destruct x as [|s| | |]; simpl; try (by left); [|by right; eexists].
  destruct (strptime s); [by right; eexists|by left].
Qed.

Lemma stamped_spec d0 d1 i :
  well_formed d0 ->
  stamped d0 = Return d1 ->
  positions "datetime" (columns d1) = [i] ->
  index d1 = index d0 /\ Forall (fun r => stamp_or_na (cell i r)) (rows d1).
Proof.
  unfold stamped. intros Hwf.
  destruct (datetime_text _) as [text|]; [|done]. simpl.
  intros Hset Hi. split; [by apply setitem_index in Hset|].
  eapply (setitem_cells stamp_or_na) in Hset as [_ ?]; [done| |apply to_datetime_format_stamps|done].
  unfold well_formed in *. simpl. by rewrite length_map.
Qed.

Lemma indexed_spec d1 t :
  indexed d1 = Return t ->
  exists i,
    positions "datetime" (columns d1) = [i]
    /\ rows t = map (indexed_row i) (keep_first [] [i] (filter (fun r => Forall notna (key [i] r)) (rows d1))).
Proof.
  unfold indexed, dropna, drop_duplicates, set_index.
  destruct (positions "datetime" (columns d1)) as [|i [|j ps]] eqn:Hps;
    simpl; rewrite ?Hps; simpl; rewrite ?Hps; [done| |done].
  intros [= <-]. by exists i.
Qed.
Lemma NoDup_cells i (l : list row) :
  NoDup (map (key [i]) l) -> NoDup (map (cell i) l).
Proof.
  induction l as [|a l IH]; simpl; [intros; constructor|].
  rewrite !NoDup_cons. intros [Hnotin Hnd]. split; [|auto].
  intros Hin. apply Hnotin.
  change (cell i a ∈ cell i <$> l) in Hin.
  apply list_elem_of_fmap in Hin as (r & Hr & Hin).
  change ([cell i a] ∈ key [i] <$> l).
  apply list_elem_of_fmap. exists r. split; [|done]. unfold key. simpl. by rewrite Hr.
Qed.

Lemma indexed_table d1 t :
  indexed d1 = Return t ->
  exists i,
    positions "datetime" (columns d1) = [i]
    /\ NoDup (index t)
    /\ Forall notna (index t)
    /\ (forall x, x ∈ rows t <->
          exists r, first_with i (rows d1) r /\ cell i r <> NA /\ x = indexed_row i r)
    /\ exists kept, kept `sublist_of` rows d1 /\ rows t = map (indexed_row i) kept.
Proof.
  intros (i & Hi & Hrows)%indexed_spec. exists i. split; [done|].
  set (P := fun r : row => Forall notna (key [i] r)) in *.
  assert (HP : forall r, P r <-> cell i r <> NA).
  { intros r. unfold P, key. simpl. rewrite Forall_singleton. done. }
  set (kept := keep_first [] [i] (filter P (rows d1))) in *.
  assert (Hidx : index t = map (cell i) kept).
  { unfold index. rewrite Hrows, map_map. done. }
  split; [|split; [|split]].
  - rewrite Hidx. apply NoDup_cells, keep_first_NoDup.
  - rewrite Hidx. apply Forall_forall. intros v Hv.
    change (v ∈ cell i <$> kept) in Hv.
    apply list_elem_of_fmap in Hv as (r & -> & Hr).
    apply (sublist_subseteq _ _ (keep_first_sublist _ _ _)), list_elem_of_filter in Hr as [Hr _].
    by apply HP.
  - intros x. rewrite Hrows.
    change (map (indexed_row i) kept) with (indexed_row i <$> kept).
    rewrite list_elem_of_fmap. split.
    + intros (r & -> & Hr). exists r.
      apply keep_first_elem in Hr as (l1' & l2' & Hsplit & _ & Hfirst).
      apply filter_split in Hsplit as (l1 & l2 & Hd1 & <- & Hr).
      split; [|split; [by apply HP|done]].
      exists l1, l2. split; [done|]. intros y Hy Heq.
      apply (Hfirst y).
      * apply list_elem_of_filter. split; [|done]. apply HP. rewrite Heq. by apply HP.
      * unfold key. simpl. by rewrite Heq.
    + intros (r & (l1 & l2 & Hd1 & Hfirst) & Hr & ->). exists r. split; [done|].
      apply keep_first_elem. exists (filter P l1), (filter P l2). split.
      * rewrite Hd1, filter_app, filter_cons_True by (by apply HP). done.
      * split; [by intros ?%elem_of_nil|].
        intros y [_ Hy]%list_elem_of_filter [= Heq]. by apply (Hfirst y).
  - exists kept. split; [|done].
    etrans; [apply keep_first_sublist|apply sublist_filter].
Qed.

Lemma stamps_all (l : list value) :
  Forall (fun v => exists ts, v = Stamp ts) l -> l = map Stamp (stamps l).
Proof.
  induction 1 as [|v l [ts ->] _ IH]; [done|].
  unfold stamps in *. simpl. by f_equal.
Qed.

Lemma read_member_run zip info w o w' :
  read_member zip info w = (o, w') ->
  files w' = files w /\ log w' = log w /\
  match o with
  | Return l =>
      exists f d0, zip !! filename info = Some f /\ parse_csv f = Return d0
                   /\ heap w' = <[l := d0]> (heap w)
  | Raise _ => w' = w
  end.
Proof.
  unfold read_member, raise. destruct (zip !! filename info) as [f|].
  2:{ by intros [= <- <-]. }
  unfold bind, lift. destruct (parse_csv f) as [d0|e] eqn:Hd0; simpl.
  2:{ by intros [= <- <-]. }
  intros [= <- <-]. repeat (split; [done|]). by exists f, d0.
Qed.

Lemma index_by_datetime_run w l d0 o w' :
  heap w !! l = Some d0 ->
  index_by_datetime l w = (o, w') ->
  files w' = files w /\ log w' = log w /\
  (forall l' d, l' <> l -> heap w !! l' = Some d -> heap w' !! l' = Some d) /\
  match o with
  | Return _ =>
      exists d1 t, stamped d0 = Return d1 /\ indexed d1 = Return t
                   /\ heap w' = <[l := t]> (heap w)
  | Raise _ => True
  end.
Proof.
  intros Hl. unfold index_by_datetime, stamped, indexed.
  unfold bind at 1. erewrite update_return by (done || reflexivity).
  set (d := set_columns _ d0). set (w1 := set_heap _ w).
  assert (H1 : heap w1 !! l = Some d) by apply lookup_insert_eq.
  assert (K1 : forall l' x, l' <> l -> heap w !! l' = Some x -> heap w1 !! l' = Some x).
  { intros l' x Hne Hx. simpl. by rewrite lookup_insert_ne. }
  unfold bind at 1. rewrite (deref_return _ _ _ H1).
  unfold bind at 1, lift. destruct (datetime_text d) as [text|e]; simpl.
  2:{ intros [= <- <-]. done. }
  unfold bind at 1.
  destruct (setitem "datetime" (to_datetime_format text) d) as [d1|e] eqn:Hd1.
  2:{ erewrite update_raise by done. intros [= <- <-]. done. }
  erewrite update_return by done. set (w2 := set_heap _ w1).
  assert (H2 : heap w2 !! l = Some d1) by apply lookup_insert_eq.
  assert (K2 : forall l' x, l' <> l -> heap w !! l' = Some x -> heap w2 !! l' = Some x).
  { intros l' x Hne Hx. simpl. rewrite !lookup_insert_ne by done. done. }
  unfold bind at 1.
  destruct (dropna "datetime" d1) as [d2|e] eqn:Hd2.
  2:{ erewrite update_raise by done. intros [= <- <-]. done. }
  erewrite update_return by done. set (w3 := set_heap _ w2).
  assert (H3 : heap w3 !! l = Some d2) by apply lookup_insert_eq.
  assert (K3 : forall l' x, l' <> l -> heap w !! l' = Some x -> heap w3 !! l' = Some x).
  { intros l' x Hne Hx. simpl. rewrite !lookup_insert_ne by done. done. }
  unfold bind at 1.
  destruct (drop_duplicates "datetime" d2) as [d3|e] eqn:Hd3.
  2:{ erewrite update_raise by done. intros [= <- <-]. done. }
  erewrite update_return by done. set (w4 := set_heap _ w3).
  assert (H4 : heap w4 !! l = Some d3) by apply lookup_insert_eq.
  assert (K4 : forall l' x, l' <> l -> heap w !! l' = Some x -> heap w4 !! l' = Some x).
  { intros l' x Hne Hx. simpl. rewrite !lookup_insert_ne by done. done. }
  destruct (set_index "datetime" d3) as [t|e] eqn:Ht.
  2:{ erewrite update_raise by done. intros [= <- <-]. done. }
  erewrite update_return by done. intros [= <- <-].
  repeat (split; [done|]). split.
  { intros l' x Hne Hx. simpl. rewrite !lookup_insert_ne by done. done. }
  exists d1, t. rewrite Hd2. simpl. rewrite Hd3. simpl. split; [done|]. split; [done|].
  by rewrite !insert_insert_eq.
Qed.

End Normalisation.

(* ===================================================================== *)
(** ** Projection of a variable (lines 53-58 and 65-70) *)
(* ===================================================================== *)

Section Projection.
Context {ops : PandasOps}.
Import Py Frame.

Lemma projection_index col t s :
  projection col t = Return s -> index s `sublist_of` index t.
Proof.
  unfold projection. destruct (select col t) as [sel|] eqn:Hsel; [|done]. simpl.
  destruct (getitem _ "value") as [vals|]; [|done]. simpl.
  destruct (setitem _ _ _) as [s1|] eqn:Hs1; [|done]. simpl.
  intros Hs%dropna_index. apply setitem_index in Hs1. apply select_index in Hsel.
  rewrite Hs1 in Hs. unfold index in *. simpl in Hs. by rewrite Hsel in Hs.
Qed.

(** Objects allocated before a step are not touched by writes to a fresh
    location. *)
Ltac kept_objects w :=
  let l := fresh "l" in
  let d := fresh "d" in
  let Hl := fresh "Hl" in
  intros l d Hl; simpl; rewrite ?lookup_insert_ne; [done|..];
  intros <-; by eapply (fresh_not_allocated (heap w)).

Lemma project_column_run w df t col o w' :
  heap w !! df = Some t ->
  project_column df col w = (o, w') ->
  files w' = files w /\ log w' = log w /\
  (forall l d, heap w !! l = Some d -> heap w' !! l = Some d) /\
  match o with
  | Return v =>
      v = fresh (dom (heap w)) /\
      exists s, projection col t = Return s /\ heap w' = <[v := s]> (heap w)
  | Raise e => projection col t = Raise e
  end.
Proof.
  intros Hdf. unfold project_column, projection.
  unfold bind at 1. rewrite (deref_return _ _ _ Hdf).
  unfold bind at 1, lift. destruct (select col t) as [sel|e]; simpl.
  2:{ by intros [= <- <-]. }
  set (v := fresh (dom (heap w))).
  unfold bind at 1, new_object. fold v.
  set (w1 := set_heap (<[v:=sel]> (heap w)) w).
  assert (H1 : heap w1 !! v = Some sel) by apply lookup_insert_eq.
  unfold bind at 1. erewrite update_return by (done || reflexivity).
  set (w2 := set_heap _ w1).
  assert (H2 : heap w2 !! v = Some (rename col "value" sel)) by apply lookup_insert_eq.
  unfold bind at 1. rewrite (deref_return _ _ _ H2).
  unfold bind at 1. destruct (getitem _ "value") as [vals|e]; simpl.
  2:{ intros [= <- <-]. repeat (split; [done|]). split; [kept_objects w|done]. }
  unfold bind at 1.
  destruct (setitem "value" (to_numeric vals) (rename col "value" sel)) as [s1|e] eqn:Hs1.
  2:{ erewrite update_raise by done. intros [= <- <-].
      repeat (split; [done|]). split; [kept_objects w|done]. }
  erewrite update_return by done.
  set (w3 := set_heap _ w2).
  assert (H3 : heap w3 !! v = Some s1) by apply lookup_insert_eq.
  unfold bind at 1. simpl and_then.
  destruct (dropna "value" s1) as [s2|e] eqn:Hs2.
  2:{ erewrite update_raise by done. intros [= <- <-].
      repeat (split; [done|]). split; [kept_objects w|done]. }
  erewrite update_return by done. unfold ret. intros [= <- <-].
  repeat (split; [done|]). split; [kept_objects w|].
  split; [done|]. exists s2. split; [done|]. simpl.
  by rewrite !insert_insert_eq.
Qed.

Lemma project_run w df t marker o w' :
  heap w !! df = Some t ->
  project df marker w = (o, w') ->
  files w' = files w /\ log w' = log w /\
  (forall l d, heap w !! l = Some d -> heap w' !! l = Some d) /\
  match o with
  | Return (Some v) =>
      v = fresh (dom (heap w)) /\
      exists col s, find_column marker t = Some col /\ col <> ""
                    /\ projection col t = Return s /\ heap w' = <[v := s]> (heap w)
  | Return None =>
      w' = w /\ (find_column marker t = None \/ find_column marker t = Some "")
  | Raise e =>
      exists col, find_column marker t = Some col /\ col <> "" /\ projection col t = Raise e
  end.
Proof.
  intros Hdf. unfold project. unfold bind at 1. rewrite (deref_return _ _ _ Hdf).
  destruct (find_column marker t) as [col|] eqn:Hcol.
  2:{ intros [= <- <-]. repeat (split; [done|]). auto. }
  destruct (String.eqb_spec col "") as [->|Hne].
  { intros [= <- <-]. repeat (split; [done|]). auto. }
  unfold bind. destruct (project_column df col w) as [[v|e] w1] eqn:Hrun;
    apply (project_column_run _ _ _ _ _ _ Hdf) in Hrun as (Hf & Hl & Hk & Hv).
  - unfold ret. intros [= <- <-]. repeat (split; [done|]).
    destruct Hv as (-> & s & Hs & Hh). split; [done|]. by exists col, s.
  - intros [= <- <-]. repeat (split; [done|]). by exists col.
Qed.

End Projection.

(** *** Columns of a frame read from CSV *)

Section CsvColumns.
Import Py Frame Spec.

Lemma getitem_parse_csv f d label j :
  parse_csv f = Return d -> positions label (header f) = [j] ->
  getitem d label
  = Return (map (fun fields => default NA (read_cells (length (header f)) fields !! j))
              (records f)).
Proof.
  intros (_ & Hcols & _ & Hcells)%parse_csv_spec Hj.
  unfold getitem. rewrite Hcols, Hj. f_equal.
  rewrite <- (map_map (read_cells _) (fun cells => default NA (cells !! j))), <- Hcells.
  by rewrite map_map.
Qed.

Lemma parse_csv_rows f d : parse_csv f = Return d -> length (rows d) = length (records f).
Proof.
  intros (_ & _ & Hidx & _)%parse_csv_spec.
  apply (f_equal length) in Hidx. unfold index, range_index in Hidx.
  by rewrite !length_map, length_seq in Hidx.
Qed.

End CsvColumns.

(* ===================================================================== *)
(** ** Extremes of a datetime column *)
(* ===================================================================== *)

Section Extremes.
Import Py Frame Spec.
Local Open Scope Z_scope.

Lemma foldr_min_spec t ts :
  foldr Z.min t ts ∈ t :: ts /\ forall x, x ∈ t :: ts -> foldr Z.min t ts <= x.
Proof.
  induction ts as [|a ts [Hin Hle]]; simpl.
  - split; [by left|]. intros x ->%list_elem_of_singleton. lia.
  - split.
    + rewrite !elem_of_cons in *.
      destruct (Z.min_spec a (foldr Z.min t ts)) as [[_ ->]|[_ ->]]; tauto.
    + intros x Hx. assert (x = a \/ x ∈ t :: ts) as [->|Hx']
        by (rewrite !elem_of_cons in *; tauto).
      * lia.
      * specialize (Hle _ Hx'). lia.
Qed.

Lemma foldr_max_spec t ts :
  foldr Z.max t ts ∈ t :: ts /\ forall x, x ∈ t :: ts -> x <= foldr Z.max t ts.
Proof.
  induction ts as [|a ts [Hin Hle]]; simpl.
  - split; [by left|]. intros x ->%list_elem_of_singleton. lia.
  - split.
    + rewrite !elem_of_cons in *.
      destruct (Z.max_spec a (foldr Z.max t ts)) as [[_ ->]|[_ ->]]; tauto.
    + intros x Hx. assert (x = a \/ x ∈ t :: ts) as [->|Hx']
        by (rewrite !elem_of_cons in *; tauto).
      * lia.
      * specialize (Hle _ Hx'). lia.
Qed.

(** [min()] and [max()] of a datetime column are timestamps of the
    column and bound the others. *)
Lemma series_extremes parsed s e :
  series_min parsed = Stamp s -> series_max parsed = Stamp e ->
  s ∈ stamps parsed /\ e ∈ stamps parsed
  /\ forall t, t ∈ stamps parsed -> s <= t <= e.
Proof.
  unfold series_min, series_max. destruct (stamps parsed) as [|t ts]; [done|].
  intros [= <-] [= <-].
  destruct (foldr_min_spec t ts) as [? Hmin], (foldr_max_spec t ts) as [? Hmax].
  repeat split; auto.
Qed.



Lemma stamps_map ts : stamps (map Stamp ts) = ts.
Proof. unfold stamps. induction ts; simpl; by f_equal. Qed.

(** Distinct timestamps a whole number of hours apart are at most one
    per hour of the span. *)
Lemma hourly_count parsed s e :
  hourly parsed ->
  series_min parsed = Stamp s -> series_max parsed = Stamp e ->
  Z.of_nat (length parsed) <= (e - s) / Num.hour_ns + 1.
Proof.
  intros (ts & -> & Hnd & Hal) Hs He.
  destruct (series_extremes _ _ _ Hs He) as (Hsin & Hein & Hb).
  rewrite stamps_map in *. rewrite length_map.
  set (n := (e - s) / Num.hour_ns).
  assert (Hh : 0 < Num.hour_ns) by done.
  assert (Hnd' : NoDup ((fun t => (t - s) / Num.hour_ns) <$> ts)).
  { apply NoDup_fmap_2_strong; [|done]. intros x y Hx Hy Heq.
    pose proof (Hal _ _ Hx Hsin) as Hx0. pose proof (Hal _ _ Hy Hsin) as Hy0.
    pose proof (Z.div_mod (x - s) Num.hour_ns). pose proof (Z.div_mod (y - s) Num.hour_ns).
    lia. }
  assert (Hsub : (fun t => (t - s) / Num.hour_ns) <$> ts ⊆+ seqZ 0 (n + 1)).
  { apply NoDup_submseteq; [done|]. intros k (t & -> & Ht)%list_elem_of_fmap.
    apply elem_of_seqZ. specialize (Hb _ Ht). split.
    - apply Z.div_pos; lia.
    - unfold n. assert ((t - s) / Num.hour_ns <= (e - s) / Num.hour_ns); [|lia].
      apply Z.div_le_mono; lia. }
  apply submseteq_length in Hsub. rewrite length_fmap, length_seqZ in Hsub.
  assert (0 <= n) by (apply Z.div_pos; [specialize (Hb _ Hsin)|]; lia). lia.
Qed.

End Extremes.

(* ===================================================================== *)
(** ** The completeness ratio (lines 81-100) *)
(* ===================================================================== *)

Section Ratio.
Context {ops : PandasOps}.
Import Py Frame Spec.

Lemma ratio_read d :
  well_formed d -> empty d = false ->
  ratio d =
    and_then (getitem d "datetime") (fun raw =>
    and_then (to_datetime raw) (fun parsed =>
    if (length parsed =? length raw)%nat
    then and_then (getitem d "value") (fun vals => ratio_from parsed vals)
    else Raise (ValueError "Length of values does not match length of index"))).
Proof.
  intros Hwf Hne. unfold ratio. rewrite Hne.
  destruct (getitem d "datetime") as [raw|] eqn:Hraw; [|done]. simpl.
  destruct (to_datetime raw) as [parsed|]; [|done]. simpl.
  rewrite (getitem_length _ _ _ Hraw).
  destruct (setitem "datetime" parsed d) as [d'|e] eqn:Hset.
  - destruct (getitem_setitem _ _ _ _ _ Hwf Hraw Hset) as [Hsame Hother].
    unfold setitem in Hset.
    destruct (length parsed =? length (rows d))%nat; [|done]. simpl.
    rewrite Hsame. simpl. by rewrite Hother.
  - unfold setitem in Hset.
    destruct (length parsed =? length (rows d))%nat; simpl in *; [|congruence].
    by destruct (positions "datetime" (columns d)).
Qed.

Lemma completeness_body_run code path w o w' :
  completeness_body code path w = (o, w') ->
  kept_world w w' /\
  match files w !! path with
  | None => o = Raise (FileNotFoundError path)
  | Some f =>
      match and_then (parse_csv f) ratio with
      | Return q => o = Return {| station_code := code; completeness := q |}
      | Raise e => o = Raise e
      end
  end.
Proof.
  unfold completeness_body, read_csv, get_world. unfold bind at 1. unfold bind at 1.
  destruct (files w !! path) as [f|]; [|by intros [= <- <-]].
  unfold bind at 1, lift. destruct (parse_csv f) as [d|e]; simpl; [|by intros [= <- <-]].
  set (v := fresh (dom (heap w))). set (w1 := set_heap _ w).
  assert (H1 : heap w1 !! v = Some d) by apply lookup_insert_eq.
  assert (K1 : kept_world w w1).
  { repeat split; try done. intros l x Hx. simpl. rewrite lookup_insert_ne; [done|].
    intros <-. by eapply (fresh_not_allocated (heap w)). }
  unfold bind at 1. rewrite (deref_return _ _ _ H1).
  unfold ratio. destruct (empty d); [by intros [= <- <-]|].
  unfold bind at 1, lift. destruct (getitem d "datetime") as [raw|e]; simpl; [|by intros [= <- <-]].
  unfold bind at 1. destruct (to_datetime raw) as [parsed|e]; simpl; [|by intros [= <- <-]].
  unfold bind at 1.
  destruct (setitem "datetime" parsed d) as [d'|e] eqn:Hset; simpl.
  2:{ erewrite update_raise by done. by intros [= <- <-]. }
  erewrite update_return by done. set (w2 := set_heap _ w1).
  assert (H2 : heap w2 !! v = Some d') by apply lookup_insert_eq.
  assert (K2 : kept_world w w2).
  { repeat split; try done. intros l x Hx. simpl. rewrite !lookup_insert_ne; [done|..];
    intros <-; by eapply (fresh_not_allocated (heap w)). }
  unfold bind at 1. rewrite (deref_return _ _ _ H2).
  unfold bind at 1. destruct (getitem d' "datetime") as [col|e]; simpl; [|by intros [= <- <-]].
  unfold bind at 1. destruct (getitem d' "value") as [vals|e]; simpl; [|by intros [= <- <-]].
  unfold bind at 1.
  destruct (expected_of (series_min col) (series_max col)) as [n|e]; simpl; [|by intros [= <- <-]].
  destruct (n <=? 0)%Z; by intros [= <- <-].
Qed.

Lemma calculate_completeness_run path w :
  exists w',
    calculate_completeness path w
    = (Return {| station_code := Path.replace (Path.basename path) ".csv" "";
                 completeness := ratio_of_file (files w !! path) |}, w')
    /\ kept_world w w'.
Proof.
  unfold calculate_completeness, try_except.
  destruct (completeness_body _ path w) as [o w'] eqn:Hrun.
  apply completeness_body_run in Hrun as [Hk Ho]. exists w'. split; [|done].
  unfold ratio_of_file. destruct (files w !! path) as [f|]; [|by subst].
  destruct (and_then (parse_csv f) ratio); by subst.
Qed.

Lemma count_valid_filter vals :
  count_valid vals = Z.of_nat (length (filter (fun v => to_numeric_value v <> NA) vals)).
Proof.
  unfold count_valid, to_numeric. f_equal.
  induction vals as [|v vals IH]; [done|]. simpl.
  rewrite !filter_cons. unfold notna at 1.
  destruct (decide (to_numeric_value v <> NA)); simpl; by rewrite IH.
Qed.

Lemma count_valid_bounds vals : (0 <= count_valid vals <= Z.of_nat (length vals))%Z.
Proof.
  rewrite count_valid_filter. pose proof (length_filter (fun v => to_numeric_value v <> NA) vals).
  lia.
Qed.

Lemma count_valid_insert l1 l2 v :
  to_numeric_value v <> NA ->
  count_valid (l1 ++ v :: l2) = (count_valid (l1 ++ l2) + 1)%Z.
Proof.
  intros Hv. rewrite !count_valid_filter, !filter_app, filter_cons_True by done.
  rewrite !length_app. simpl. lia.
Qed.

Lemma ratio_from_shape parsed vals q :
  ratio_from parsed vals = Return q ->
  q = 0%Q \/
  exists s e,
    series_min parsed = Stamp s /\ series_max parsed = Stamp e
    /\ (0 < (e - s) / Num.hour_ns + 1)%Z
    /\ q = Num.round2 (Num.truediv (count_valid vals) ((e - s) / Num.hour_ns + 1)).
Proof.
  unfold ratio_from, expected_of.
  destruct (series_min parsed) as [| | |s|] eqn:Hs; try done.
  destruct (series_max parsed) as [| | |e|] eqn:He; try done. simpl.
  destruct (series_extremes _ _ _ Hs He) as (Hsin & _ & Hb). specialize (Hb _ Hsin).
  rewrite whole_hours by lia.
  destruct (_ <=? 0)%Z eqn:Hle; intros [= <-]; [by left|right].
  apply Z.leb_gt in Hle. by exists s, e.
Qed.

Lemma ratio_from_range parsed vals q :
  ratio_from parsed vals = Return q -> (0 <= q)%Q /\ exists h : Z, q = Qred (h # 100).
Proof.
  intros [->|(s & e & _ & _ & Hpos & ->)]%ratio_from_shape.
  - split; [done|]. by exists 0%Z.
  - split; [|by eexists].
    apply rounded_nonneg; [apply count_valid_bounds|done].
Qed.

Lemma ratio_range d q :
  ratio d = Return q -> (0 <= q)%Q /\ exists h : Z, q = Qred (h # 100).
Proof.
  unfold ratio. destruct (empty d).
  { intros [= <-]. split; [done|]. by exists 0%Z. }
  destruct (getitem d "datetime") as [raw|]; [|done]. simpl.
  destruct (to_datetime raw) as [parsed|]; [|done]. simpl.
  destruct (setitem _ _ _) as [d'|]; [|done]. simpl.
  destruct (getitem d' "datetime") as [col|]; [|done]. simpl.
  destruct (getitem d' "value") as [vals|]; [|done]. simpl.
  apply ratio_from_range.
Qed.

Lemma ratio_of_file_range o :
  (0 <= ratio_of_file o)%Q /\ exists h : Z, ratio_of_file o = Qred (h # 100).
Proof.
  assert (Hz : (0 <= 0)%Q /\ exists h : Z, 0%Q = Qred (h # 100)) by (split; [done|by exists 0%Z]).
  unfold ratio_of_file. destruct o as [f|]; [|done].
  destruct (parse_csv f) as [d|]; [|done]. simpl.
  destruct (ratio d) as [q|] eqn:Hq; [|done]. by apply ratio_range in Hq.
Qed.


Lemma getitem_columns d label vals :
  getitem d label = Return vals -> columns d <> [].
Proof.
  unfold getitem. intros H Hc. rewrite Hc in H. done.
Qed.

Lemma ratio_of_file_read f d raw parsed vals :
  parse_csv f = Return d -> rows d <> [] ->
  getitem d "datetime" = Return raw -> to_datetime raw = Return parsed ->
  length parsed = length raw ->
  getitem d "value" = Return vals ->
  ratio_of_file (Some f) = match ratio_from parsed vals with Return q => q | Raise _ => 0%Q end.
Proof.
  intros Hd Hrows Hraw Hparsed Hlen Hvals. unfold ratio_of_file. rewrite Hd. simpl.
  apply parse_csv_spec in Hd as (Hwf & _).
  rewrite ratio_read; [|done|].
  - rewrite Hraw. simpl. rewrite Hparsed. simpl. rewrite Hlen, Nat.eqb_refl, Hvals. done.
  - unfold empty. apply getitem_columns in Hraw.
    destruct (rows d), (columns d); done.
Qed.

Lemma mapM_run {A B} (f : A -> M B) (g : world -> A -> B) (l : list A) : forall w,
  (forall a w, exists w', f a w = (Return (g w a), w') /\ kept_world w w') ->
  (forall a w w', kept_world w w' -> g w' a = g w a) ->
  exists w', mapM f l w = (Return (map (g w) l), w') /\ kept_world w w'.
Proof.
  intros w Hf Hg. revert w. induction l as [|a l IH]; intros w; simpl.
  - exists w. by repeat split.
  - unfold bind. destruct (Hf a w) as (w1 & -> & Hk).
    destruct (IH w1) as (w2 & -> & Hk'). exists w2. split.
    + unfold ret. do 3 f_equal. clear IH. induction l as [|b l IHl]; simpl; [done|].
      by rewrite (Hg b w w1 Hk), IHl.
    + destruct Hk as (Hk1 & Hk2 & Hk3), Hk' as (Hk1' & Hk2' & Hk3').
      repeat split; [congruence..|]. intros l0 d Hl0. by apply Hk3', Hk3.
Qed.

End Ratio.

(* ===================================================================== *)
(** ** File names *)
(* ===================================================================== *)

Section FileNames.
Import Spec.

Lemma append_cons c (a b : string) : String c a +:+ b = String c (a +:+ b).
Proof. reflexivity. Qed.

Lemma length_append (a b : string) :
  String.length (a +:+ b) = String.length a + String.length b.
Proof. induction a as [|c a IH]; [done|]. rewrite append_cons. cbn. by rewrite IH. Qed.

Lemma substring_prefix (a b : string) :
  String.substring 0 (String.length a) (a +:+ b) = a.
Proof.
  induction a as [|c a IH]; [by destruct b|]. rewrite append_cons. cbn. by rewrite IH.
Qed.

Lemma substring_all (b : string) : String.substring 0 (String.length b) b = b.
Proof. induction b as [|c b IH]; [done|]. cbn. by rewrite IH. Qed.

Lemma substring_suffix (a b : string) :
  String.substring (String.length a) (String.length b) (a +:+ b) = b.
Proof.
  induction a as [|c a IH]; [apply substring_all|]. by rewrite append_cons.
Qed.

Lemma without_suffix_append stem suffix :
  without_suffix (stem +:+ suffix) suffix = stem.
Proof.
  unfold without_suffix, Path.endswith. rewrite length_append.
  replace (String.length stem + String.length suffix - String.length suffix)
    with (String.length stem) by lia.
  rewrite substring_suffix, String.eqb_refl, substring_prefix.
  replace (String.length suffix <=? String.length stem + String.length suffix)%nat with true;
    [done|]. symmetry. apply Nat.leb_le. lia.
Qed.

Lemma replace_extension stem :
  Path.contains "." stem = false -> Path.replace (stem +:+ ".csv") ".csv" "" = stem.
Proof.
  unfold Path.replace. induction stem as [|c stem IH]; [done|].
  rewrite append_cons. cbn [Path.replace_from Path.contains String.prefix].
  destruct (ascii_dec "." c) as [<-|Hc].
  - by destruct stem.
  - intros Hstem. by rewrite IH.
Qed.

End FileNames.

(* ===================================================================== *)
(** * The specification's claims *)
(* ===================================================================== *)

Section Claims.
Context {ops : PandasOps}.
Import Py Frame Spec.

(** C1 (as amended).  The ratio returned is never negative and is a
    whole number of hundredths.  It is at most 1 when the timestamps of the
    file are all present, pairwise distinct and a whole number of hours
    apart. *)
Theorem completeness_range w path :
  exists r w',
    calculate_completeness path w = (Return r, w')
    /\ (0 <= completeness r)%Q
    /\ (exists h : Z, completeness r = Qred (h # 100))
    /\ (forall f d raw parsed,
          files w !! path = Some f -> parse_csv f = Return d ->
          getitem d "datetime" = Return raw -> to_datetime raw = Return parsed ->
          hourly parsed ->
          (completeness r <= 1)%Q).
Proof.
  destruct (calculate_completeness_run path w) as (w' & Hrun & _).
  eexists _, w'. split; [done|]. cbn [completeness].
  destruct (ratio_of_file_range (files w !! path)) as [Hnn Hh].
  repeat (split; [done|]).
  intros f d raw parsed Hf Hd Hraw Hparsed Hhourly. rewrite Hf.
  unfold ratio_of_file. rewrite Hd. cbn [and_then].
  pose proof (parse_csv_spec _ _ Hd) as (Hwf & _).
  destruct (empty d) eqn:Hempty; [unfold ratio; by rewrite Hempty|].
  rewrite ratio_read, Hraw by done. cbn [and_then]. rewrite Hparsed. cbn [and_then].
  destruct (length parsed =? length raw)%nat eqn:Hlen; [|done].
  apply Nat.eqb_eq in Hlen.
  destruct (getitem d "value") as [vals|] eqn:Hvals; [|done]. cbn [and_then].
  destruct (ratio_from parsed vals) as [q|] eqn:Hq; [|done].
  apply ratio_from_shape in Hq as [->|(s & e & Hs & He & Hpos & ->)]; [done|].
  apply rounded_le_one; [|done].
  pose proof (hourly_count _ _ _ Hhourly Hs He).
  pose proof (count_valid_bounds vals).
  apply getitem_length in Hraw, Hvals. lia.
Qed.



(** C4.  The table the extractor builds from an archive member is indexed
    by timestamps only (no missing label), and no timestamp occurs twice.
    Its rows are made, in file order, from those records of the member
    whose timestamp parsed and was not met in an earlier record: of the
    records sharing a timestamp the first one is kept. *)
Theorem normalized_table_index zip info w l w1 w2 :
  read_member zip info w = (Return l, w1) ->
  index_by_datetime l w1 = (Return tt, w2) ->
  exists f d0 d1 t i ts,
    zip !! filename info = Some f /\ parse_csv f = Return d0
    /\ stamped d0 = Return d1 /\ heap w2 !! l = Some t
    /\ positions "datetime" (columns d1) = [i]
    /\ index d1 = range_index (length (records f))
    /\ index t = map Stamp ts /\ NoDup ts
    /\ (forall x, x ∈ rows t <->
          exists r, first_with i (rows d1) r /\ cell i r <> NA /\ x = indexed_row i r)
    /\ exists kept, kept `sublist_of` rows d1 /\ rows t = map (indexed_row i) kept.
Proof.
  intros Hread Hrun.
  apply read_member_run in Hread as (_ & _ & f & d0 & Hf & Hd0 & Hh1).
  assert (Hl : heap w1 !! l = Some d0) by (rewrite Hh1; apply lookup_insert_eq).
  apply (index_by_datetime_run _ _ _ _ _ Hl) in Hrun as (_ & _ & _ & d1 & t & Hd1 & Ht & Hh2).
  destruct (indexed_table _ _ Ht) as (i & Hi & Hnd & Hna & Hrows & kept & Hsub & Hkept).
  apply parse_csv_spec in Hd0 as Hspec. destruct Hspec as (Hwf & _ & Hidx0 & _).
  destruct (stamped_spec _ _ _ Hwf Hd1 Hi) as [Hidx1 Hcells].
  assert (Hts : index t = map Stamp (stamps (index t))).
  { apply stamps_all. unfold index. rewrite Hkept, map_map. simpl.
    apply Forall_forall. intros v Hv.
    change (v ∈ cell i <$> kept) in Hv.
    apply list_elem_of_fmap in Hv as (r & -> & Hr).
    assert (Hr1 : r ∈ rows d1) by (by eapply sublist_subseteq).
    rewrite Forall_forall in Hcells. destruct (Hcells _ Hr1) as [Hn|?]; [|done].
    exfalso. rewrite Forall_forall in Hna. apply (Hna (cell i r)); [|done].
    unfold index. rewrite Hkept, map_map. simpl.
    change (cell i r ∈ cell i <$> kept). apply list_elem_of_fmap. by exists r. }
  exists f, d0, d1, t, i, (stamps (index t)).
  repeat (split; [done|]).
  split; [rewrite Hh2; apply lookup_insert_eq|]. split; [done|].
  split; [congruence|]. split; [done|]. split.
  { rewrite Hts in Hnd. by apply (NoDup_fmap_1 Stamp). }
  split; [done|]. by exists kept.
Qed.

(** C5.  A file without data rows gives 0.00.  A file with exactly one
    row, whose timestamp parses and whose value is a number, gives 1.00. *)
Theorem completeness_boundary w path f :
  files w !! path = Some f ->
  (records f = [] ->
   exists r w', calculate_completeness path w = (Return r, w') /\ completeness r = 0%Q)
  /\ (forall d r0 a t v,
        parse_csv f = Return d -> rows d = [r0] ->
        getitem d "datetime" = Return [a] -> to_datetime [a] = Return [Stamp t] ->
        getitem d "value" = Return [v] -> to_numeric_value v <> NA ->
        exists r w', calculate_completeness path w = (Return r, w') /\ completeness r = 1%Q).
Proof.
  intros Hf. destruct (calculate_completeness_run path w) as (w' & Hrun & _). split.
  - intros Hrec. eexists _, w'. split; [done|]. cbn [completeness]. rewrite Hf.
    unfold ratio_of_file, parse_csv. rewrite Hrec. destruct (header f); [done|]. done.
  - intros d r0 a t v Hd Hrows Hraw Hparsed Hvals Hv.
    eexists _, w'. split; [done|]. cbn [completeness]. rewrite Hf.
    rewrite (ratio_of_file_read _ _ _ _ _ Hd ltac:(by rewrite Hrows) Hraw Hparsed eq_refl Hvals).
    unfold ratio_from, expected_of, series_min, series_max.
    change (stamps [Stamp t]) with [t]. cbn [and_then foldr].
    rewrite Z.sub_diag, whole_hours by done. cbn [Z.div Z.div_eucl Z.add Z.leb Z.compare].
    rewrite count_valid_filter, filter_cons_True by done. reflexivity.
Qed.

(** C6.  The series the projector builds from a table holds index labels
    of that table only, in the table's order: its index is a sub-list of
    the table's index, so no timestamp is new. *)
Theorem projected_index_within_table w df t marker v w' :
  heap w !! df = Some t ->
  project df marker w = (Return (Some v), w') ->
  exists s, heap w' !! v = Some s
            /\ index s `sublist_of` index t
            /\ (forall x, x ∈ index s -> x ∈ index t).
Proof.
  intros Hdf Hrun.
  apply (project_run _ _ _ _ _ _ Hdf) in Hrun as (_ & _ & _ & -> & col & s & _ & _ & Hs & Hh).
  exists s. rewrite Hh, lookup_insert_eq. split; [done|].
  apply projection_index in Hs. split; [done|].
  intros x. by apply sublist_subseteq.
Qed.

(** C7.  The calculator always returns.  Whatever exception the body
    of its [try] raises, the call returns the record with ratio 0.00 and
    raises nothing; so it does for a missing file, for a file that does not
    parse, and for a file without the [datetime] or the [value] column. *)
Theorem read_failure_swallowed w path :
  let code := Path.replace (Path.basename path) ".csv" "" in
  let zero := {| station_code := code; completeness := 0 |} in
  (exists r w', calculate_completeness path w = (Return r, w'))
  /\ (forall e w1,
        completeness_body code path w = (Raise e, w1) ->
        calculate_completeness path w = (Return zero, w1))
  /\ (files w !! path = None ->
      exists w', calculate_completeness path w = (Return zero, w'))
  /\ (forall f e,
        files w !! path = Some f -> parse_csv f = Raise e ->
        exists w', calculate_completeness path w = (Return zero, w'))
  /\ (forall f d label,
        files w !! path = Some f -> parse_csv f = Return d ->
        label = "datetime" \/ label = "value" -> label ∉ columns d ->
        exists w', calculate_completeness path w = (Return zero, w')).
Proof.
  intros code zero.
  destruct (calculate_completeness_run path w) as (w' & Hrun & _).
  split; [by eexists _, w'|]. split; [|split; [|split]].
  - intros e w1 Hbody. unfold calculate_completeness, try_except. fold code.
    by rewrite Hbody.
  - intros Hf. exists w'. by rewrite Hrun, Hf.
  - intros f e Hf He. exists w'. rewrite Hrun, Hf. unfold ratio_of_file. by rewrite He.
  - intros f d label Hf Hd Hlabel Hmissing. exists w'. rewrite Hrun, Hf.
    unfold zero, code. do 3 f_equal.
    unfold ratio_of_file. rewrite Hd. cbn [and_then].
    pose proof (parse_csv_spec _ _ Hd) as (Hwf & _).
    assert (Hpos : positions label (columns d) = []).
    { destruct (positions label (columns d)) as [|j ps] eqn:Hps; [done|].
      exfalso. apply Hmissing. eapply list_elem_of_lookup_2, (positions_label label).
      rewrite Hps. by left. }
    destruct (empty d) eqn:Hempty; [unfold ratio; by rewrite Hempty|].
    rewrite ratio_read by done.
    destruct Hlabel as [-> | ->].
    + unfold getitem at 1. by rewrite Hpos.
    + destruct (getitem d "datetime") as [raw|]; [|done]. cbn [and_then].
      destruct (to_datetime raw) as [parsed|]; [|done]. cbn [and_then].
      destruct (_ =? _)%nat; [|done].
      unfold getitem. by rewrite Hpos.
Qed.

(** C8.  Projecting a variable reads the table and nothing else: the
    table, every other frame, the files and the log are as before; and a
    second projection of the same variable ends the same way, with a series
    equal to the first one in a distinct object. *)
Theorem projection_is_pure w df t marker o1 w1 :
  heap w !! df = Some t ->
  project df marker w = (o1, w1) ->
  heap w1 !! df = Some t /\ files w1 = files w /\ log w1 = log w
  /\ (forall l d, heap w !! l = Some d -> heap w1 !! l = Some d)
  /\ exists o2 w2,
       project df marker w1 = (o2, w2)
       /\ heap w2 !! df = Some t /\ files w2 = files w /\ log w2 = log w
       /\ match o1, o2 with
          | Return (Some v1), Return (Some v2) =>
              v1 <> v2 /\ exists s, heap w2 !! v1 = Some s /\ heap w2 !! v2 = Some s
          | Return None, Return None => True
          | Raise e1, Raise e2 => e1 = e2
          | _, _ => False
          end.
Proof.
  intros Hdf Hrun.
  apply (project_run _ _ _ _ _ _ Hdf) in Hrun as (Hf1 & Hl1 & Hk1 & Ho1).
  pose proof (Hk1 _ _ Hdf) as Hdf1.
  repeat (split; [done|]).
  destruct (project df marker w1) as [o2 w2] eqn:Hrun2. exists o2, w2. split; [done|].
  apply (project_run _ _ _ _ _ _ Hdf1) in Hrun2 as (Hf2 & Hl2 & Hk2 & Ho2).
  split; [by apply Hk2|]. split; [congruence|]. split; [congruence|].
  destruct o1 as [[v1|]|e1], o2 as [[v2|]|e2].
  - destruct Ho1 as (-> & col & s & Hcol & _ & Hs & Hh1).
    destruct Ho2 as (-> & col' & s' & Hcol' & _ & Hs' & Hh2).
    assert (col' = col) as -> by congruence.
    assert (s' = s) as -> by congruence.
    assert (Hv1 : heap w1 !! fresh (dom (heap w)) = Some s)
      by (rewrite Hh1; apply lookup_insert_eq).
    split; [by apply (fresh_not_allocated (heap w1) _ s)|].
    exists s. split; [by apply Hk2|]. rewrite Hh2. apply lookup_insert_eq.
  - destruct Ho1 as (_ & col & s & Hcol & Hne & _). destruct Ho2 as (_ & [?|?]); congruence.
  - destruct Ho1 as (_ & col & s & Hcol & _ & Hs & _).
    destruct Ho2 as (col' & Hcol' & _ & Hs'). congruence.
  - destruct Ho2 as (_ & col & s & Hcol & Hne & _). destruct Ho1 as (_ & [?|?]); congruence.
  - done.
  - destruct Ho2 as (col & Hcol & Hne & _). destruct Ho1 as (_ & [?|?]); congruence.
  - destruct Ho1 as (col & Hcol & _ & Hs).
    destruct Ho2 as (_ & col' & s' & Hcol' & _ & Hs' & _). congruence.
  - destruct Ho1 as (col & Hcol & Hne & _). destruct Ho2 as (_ & [?|?]); congruence.
  - destruct Ho1 as (col & Hcol & _ & Hs). destruct Ho2 as (col' & Hcol' & _ & Hs'). congruence.
Qed.

(** C9.  Adding to a file one record whose value is a number, with the
    earliest and the latest timestamp unchanged, does not lower the
    ratio. *)
Theorem added_valid_row_monotone w w' path path' f f' l1 l2 fields j s
    d d' raw raw' parsed parsed' :
  files w !! path = Some f -> files w' !! path' = Some f' ->
  header f' = header f -> records f = l1 ++ l2 -> records f' = l1 ++ fields :: l2 ->
  positions "value" (header f) = [j] ->
  fields !! j = Some (Some s) -> s ∉ na_values -> is_Some (parse_float s) ->
  parse_csv f = Return d -> parse_csv f' = Return d' ->
  getitem d "datetime" = Return raw -> to_datetime raw = Return parsed ->
  getitem d' "datetime" = Return raw' -> to_datetime raw' = Return parsed' ->
  length parsed' = length raw' ->
  series_min parsed' = series_min parsed -> series_max parsed' = series_max parsed ->
  exists r r' w1 w1',
    calculate_completeness path w = (Return r, w1)
    /\ calculate_completeness path' w' = (Return r', w1')
    /\ (completeness r <= completeness r')%Q.
Proof.
  intros Hf Hf' Hh Hrec Hrec' Hj Hfield Hna [x Hx] Hd Hd' Hraw Hparsed Hraw' Hparsed' Hlen' Hmin Hmax.
  destruct (calculate_completeness_run path w) as (w1 & Hrun & _).
  destruct (calculate_completeness_run path' w') as (w1' & Hrun' & _).
  eexists _, _, w1, w1'. split; [done|]. split; [done|]. cbn [completeness].
  rewrite Hf, Hf'.
  pose proof (getitem_parse_csv _ _ _ _ Hd Hj) as Hvals.
  pose proof (getitem_parse_csv f' d' "value" j Hd') as Hvals'.
  rewrite Hh in Hvals'. specialize (Hvals' Hj).
  rewrite Hrec in Hvals. rewrite Hrec' in Hvals'.
  rewrite map_app in Hvals. rewrite map_app in Hvals'. cbn [map] in Hvals'.
  set (g := fun fields => default NA (read_cells (length (header f)) fields !! j)) in *.
  assert (Hnew : to_numeric_value (g fields) <> NA).
  { unfold g, read_cells. rewrite lookup_app_l.
    2:{ rewrite length_map. by eapply lookup_lt_Some. }
    change (map read_field fields) with (read_field <$> fields).
    rewrite list_lookup_fmap, Hfield. simpl. rewrite decide_False by done. simpl.
    by rewrite Hx. }
  assert (Hrows' : rows d' <> []).
  { intros Hnil. apply parse_csv_rows in Hd'. rewrite Hnil, Hrec', length_app in Hd'.
    simpl in Hd'. lia. }
  rewrite (ratio_of_file_read f' d' _ _ _ Hd' Hrows' Hraw' Hparsed' Hlen' Hvals').
  destruct (ratio_of_file_range (Some f')) as [Hnn' _].
  rewrite (ratio_of_file_read f' d' _ _ _ Hd' Hrows' Hraw' Hparsed' Hlen' Hvals') in Hnn'.
  unfold ratio_of_file at 1. rewrite Hd. cbn [and_then].
  pose proof (parse_csv_spec _ _ Hd) as (Hwf & _).
  destruct (empty d) eqn:Hempty; [unfold ratio; by rewrite Hempty|].
  rewrite ratio_read, Hraw by done. cbn [and_then]. rewrite Hparsed. cbn [and_then].
  destruct (length parsed =? length raw)%nat; [|done].
  rewrite Hvals. cbn [and_then].
  destruct (ratio_from parsed _) as [q|] eqn:Hq; [|done].
  apply ratio_from_shape in Hq as [->|(lo & hi & Hlo & Hhi & Hpos & ->)]; [done|].
  unfold ratio_from, expected_of. rewrite Hmin, Hmax, Hlo, Hhi. cbn [and_then].
  destruct (series_extremes _ _ _ Hlo Hhi) as (Hsin & _ & Hb). specialize (Hb _ Hsin).
  rewrite whole_hours by lia.
  destruct (_ <=? 0)%Z eqn:Hle; [apply Z.leb_le in Hle; lia|].
  apply rounded_mono; [|done].
  rewrite count_valid_insert by done.
  match goal with |- context [count_valid ?l] => pose proof (count_valid_bounds l) end. lia.
Qed.

(** C10 (as amended).  For every path the calculator returns a record.
    Its station code is the base name of the path with every occurrence of
    [.csv] removed; that is the base name without its [.csv] suffix when the
    rest of the base name holds no dot.  A file that is missing or does not
    parse gets ratio 0.00; and the report data holds one record per station
    file, in order, whether the file reads or not. *)
Theorem record_for_every_path w path :
  let code := Path.replace (Path.basename path) ".csv" "" in
  (exists r w',
     calculate_completeness path w = (Return r, w')
     /\ station_code r = code
     /\ (files w !! path = None \/ (exists f e, files w !! path = Some f /\ parse_csv f = Raise e)
         -> completeness r = 0%Q))
  /\ (forall stem,
        Path.contains "." stem = false -> Path.basename path = (stem ++ ".csv")%string ->
        code = stem /\ code = without_suffix (Path.basename path) ".csv")
  /\ (forall station_files,
        exists rs w',
          report_data station_files w = (Return rs, w')
          /\ map station_code rs
             = map (fun p => Path.replace (Path.basename p) ".csv" "") station_files).
Proof.
  intros code. split; [|split].
  - destruct (calculate_completeness_run path w) as (w' & Hrun & _).
    eexists _, w'. split; [done|]. split; [done|]. cbn [completeness].
    intros [->|(f & e & -> & He)]; [done|]. unfold ratio_of_file. by rewrite He.
  - intros stem Hstem Hbase. unfold code. rewrite Hbase.
    by rewrite replace_extension, without_suffix_append.
  - intros station_files. unfold report_data.
    destruct (mapM_run calculate_completeness
                (fun w p => {| station_code := Path.replace (Path.basename p) ".csv" "";
                               completeness := ratio_of_file (files w !! p) |})
                station_files w) as (w' & Hrun & _).
    + intros p w0. apply calculate_completeness_run.
    + intros p w0 w1 (Hfiles & _). by rewrite Hfiles.
    + eexists _, w'. split; [done|]. by rewrite map_map.
Qed.

End Claims.

(* ===================================================================== *)
(** * The claims on the sample archive *)
(* ===================================================================== *)

Section Instances.
Import Py Frame Spec Sample.


(** ** The sample archive, run *)

Example processed_files :
  map fst (map_to_list (files processed))
  = ["out/inmet_stations/processed/2m_air_temperature/2020/A001.csv";
     "out/inmet_stations/processed/2m_air_temperature/2020/A002.csv";
     "out/inmet_stations/processed/total_precipitation/2020/A001.csv";
     "out/inmet_stations/processed/total_precipitation/2020/A002.csv"].
Proof. vm_compute. reflexivity. Qed.

(** The repeated hour and the bad date are gone; the first 0000 record,
    with value 0, is the one kept. *)
Example rain_A001_file :
  files processed !! rain_A001
  = Some (series [[Some "2020-01-01 00:00:00"; Some "0.0"];
                  [Some "2020-01-01 01:00:00"; Some "1.2"];
                  [Some "2020-01-01 02:00:00"; Some "0.0"];
                  [Some "2020-01-01 03:00:00"; Some "0.0"]]).
Proof. vm_compute. reflexivity. Qed.

Example rain_A001_ratio :
  returned (calculate_completeness (ops := Reference.ops) rain_A001 processed)
  = Some {| station_code := "A001"; completeness := 1 |}.
Proof. vm_compute. reflexivity. Qed.

(** Three of the four hours of the span have a temperature. *)
Example temp_A001_ratio :
  returned (calculate_completeness (ops := Reference.ops) temp_A001 processed)
  = Some {| station_code := "A001"; completeness := 3 # 4 |}.
Proof. vm_compute. reflexivity. Qed.

Example unknown_member_ignored :
  process_station_csv (ops := Reference.ops) {| filename := "README.csv" |} archive
    "out" "2020" blank = (Return tt, blank).
Proof. reflexivity. Qed.

(** ** Instances of the theorems, with the reference library functions *)

Lemma completeness_range_witness :
  exists r w',
    calculate_completeness (ops := Reference.ops) rain_A001 processed = (Return r, w')
    /\ (0 <= completeness r)%Q /\ (completeness r <= 1)%Q.
Proof.
  destruct (@completeness_range Reference.ops processed rain_A001)
    as (r & w' & Hrun & Hnn & _ & Hle).
  exists r, w'. split; [exact Hrun|]. split; [exact Hnn|].
  eapply Hle.
  - vm_compute. reflexivity.
  - vm_compute. reflexivity.
  - vm_compute. reflexivity.
  - vm_compute. reflexivity.
  - exists [1577836800000000000; 1577840400000000000;
            1577844000000000000; 1577847600000000000]%Z.
    split; [reflexivity|]. split.
    + apply (bool_decide_unpack _). vm_compute. exact I.
    + intros t t' Ht Ht'.
      rewrite !elem_of_cons, elem_of_nil in Ht.
      rewrite !elem_of_cons, elem_of_nil in Ht'.
      destruct Ht as [->|[->|[->|[->|[]]]]]; destruct Ht' as [->|[->|[->|[->|[]]]]];
        reflexivity.
Defined.



Lemma normalized_table_index_witness :
  exists t ts,
    heap tabled !! 0 = Some t /\ index t = map Stamp ts /\ NoDup ts /\ length ts = 4.
Proof.
  edestruct (@normalized_table_index Reference.ops archive hourly_info blank 0 loaded tabled)
    as (f & d0 & d1 & t & i & ts & _ & _ & _ & Ht & _ & _ & Hidx & Hnd & _).
  - vm_compute. reflexivity.
  - vm_compute. reflexivity.
  - exists t, ts. split; [exact Ht|]. split; [exact Hidx|]. split; [exact Hnd|].
    vm_compute in Ht. injection Ht as <-.
    apply (f_equal length) in Hidx. rewrite length_map in Hidx. rewrite <- Hidx. reflexivity.
Defined.

Lemma completeness_boundary_witness :
  (exists r w',
     calculate_completeness (ops := Reference.ops) "out/empty.csv" shelf = (Return r, w')
     /\ completeness r = 0%Q)
  /\ (exists r w',
        calculate_completeness (ops := Reference.ops) "out/one.csv" shelf = (Return r, w')
        /\ completeness r = 1%Q).
Proof.
  split.
  - edestruct (@completeness_boundary Reference.ops shelf "out/empty.csv") as [Hzero _].
    + vm_compute. reflexivity.
    + apply Hzero. reflexivity.
  - edestruct (@completeness_boundary Reference.ops shelf "out/one.csv") as [_ Hone].
    + vm_compute. reflexivity.
    + eapply Hone.
      * vm_compute. reflexivity.
      * reflexivity.
      * vm_compute. reflexivity.
      * vm_compute. reflexivity.
      * vm_compute. reflexivity.
      * vm_compute. discriminate.
Defined.

Lemma projected_index_within_table_witness :
  exists t v w' s,
    heap tabled !! 0 = Some t
    /\ project (ops := Reference.ops) 0 "bulbo seco" tabled = (Return (Some v), w')
    /\ heap w' !! v = Some s
    /\ index s `sublist_of` index t.
Proof.
  edestruct (@projected_index_within_table Reference.ops)
    with (w := tabled) (df := 0) (marker := "bulbo seco") as (s & Hs & Hsub & _).
  - vm_compute. reflexivity.
  - vm_compute. reflexivity.
  - eexists _, _, _, s. split; [vm_compute; reflexivity|].
    split; [vm_compute; reflexivity|]. split; [exact Hs|exact Hsub].
Defined.

Lemma read_failure_swallowed_witness :
  (exists w', calculate_completeness (ops := Reference.ops) "out/novalue.csv" shelf
              = (Return {| station_code := "novalue"; completeness := 0 |}, w'))
  /\ (exists w', calculate_completeness (ops := Reference.ops) "out/absent.csv" shelf
                 = (Return {| station_code := "absent"; completeness := 0 |}, w')).
Proof.
  split.
  - destruct (@read_failure_swallowed Reference.ops shelf "out/novalue.csv")
      as (_ & _ & _ & _ & Hcol).
    eapply (Hcol _ _ "value").
    + vm_compute. reflexivity.
    + vm_compute. reflexivity.
    + by right.
    + vm_compute. intros H. repeat (apply elem_of_cons in H as [H|H]; [discriminate H|]).
      by apply elem_of_nil in H.
  - destruct (@read_failure_swallowed Reference.ops shelf "out/absent.csv")
      as (_ & _ & Hmissing & _).
    apply Hmissing. vm_compute. reflexivity.
Defined.

Lemma projection_is_pure_witness :
  exists t v1 w1 v2 w2 s,
    heap tabled !! 0 = Some t
    /\ project (ops := Reference.ops) 0 "precipitacao total" tabled = (Return (Some v1), w1)
    /\ project (ops := Reference.ops) 0 "precipitacao total" w1 = (Return (Some v2), w2)
    /\ heap w2 !! 0 = Some t /\ v1 <> v2
    /\ heap w2 !! v1 = Some s /\ heap w2 !! v2 = Some s.
Proof.
  edestruct (@projection_is_pure Reference.ops)
    with (w := tabled) (df := 0) (marker := "precipitacao total")
    as (_ & _ & _ & _ & o2 & w2 & Hrun2 & Ht2 & _ & _ & Hsame).
  - vm_compute. reflexivity.
  - vm_compute. reflexivity.
  - destruct o2 as [[v2|]|e]; try (exfalso; exact Hsame).
    destruct Hsame as (Hne & s & Hs1 & Hs2).
    eexists _, _, _, v2, w2, s. split; [vm_compute; reflexivity|].
    split; [vm_compute; reflexivity|].
    split; [exact Hrun2|]. split; [exact Ht2|]. split; [exact Hne|].
    split; [exact Hs1|exact Hs2].
Defined.

Lemma added_valid_row_monotone_witness :
  exists r r' w1 w1',
    calculate_completeness (ops := Reference.ops) "out/three.csv" shelf = (Return r, w1)
    /\ calculate_completeness (ops := Reference.ops) "out/four.csv" shelf = (Return r', w1')
    /\ (completeness r <= completeness r')%Q.
Proof.
  eapply (@added_valid_row_monotone Reference.ops shelf shelf "out/three.csv" "out/four.csv"
            (series three_of_four) (series four_of_four)
            [[Some "2020-01-01 00:00:00"; Some "21.5"]]
            [[Some "2020-01-01 02:00:00"; Some "22.0"]; [Some "2020-01-01 03:00:00"; Some "23.0"]]
            [Some "2020-01-01 01:00:00"; Some "20.9"] 1 "20.9").
  - vm_compute. reflexivity.
  - vm_compute. reflexivity.
  - reflexivity.
  - reflexivity.
  - reflexivity.
  - vm_compute. reflexivity.
  - reflexivity.
  - vm_compute. intros H. repeat (apply elem_of_cons in H as [H|H]; [discriminate H|]).
    by apply elem_of_nil in H.
  - vm_compute. by eexists.
  - vm_compute. reflexivity.
  - vm_compute. reflexivity.
  - vm_compute. reflexivity.
  - vm_compute. reflexivity.
  - vm_compute. reflexivity.
  - vm_compute. reflexivity.
  - reflexivity.
  - vm_compute. reflexivity.
  - vm_compute. reflexivity.
Defined.

Lemma record_for_every_path_witness :
  (exists r w',
     calculate_completeness (ops := Reference.ops) "out/absent.csv" shelf = (Return r, w')
     /\ station_code r = "absent" /\ completeness r = 0%Q)
  /\ Path.replace (Path.basename rain_A001) ".csv" "" = "A001".
Proof.
  destruct (@record_for_every_path Reference.ops shelf "out/absent.csv")
    as ((r & w' & Hrun & Hcode & Hzero) & _ & _).
  destruct (@record_for_every_path Reference.ops processed rain_A001) as (_ & Hstem & _).
  split.
  - exists r, w'. split; [exact Hrun|]. split; [exact Hcode|].
    apply Hzero. left. vm_compute. reflexivity.
  - apply (Hstem "A001"); reflexivity.
Defined.

(** ** Where the specification says more than the code does *)

(** C1 as stated fails: the series of two observations half an hour
    apart, written by [process_station_csv] itself, has one expected
    record and two valid ones, and gets ratio 2.00. *)
Lemma half_hour_series_above_one :
  exists r w',
    calculate_completeness (ops := Reference.ops) rain_A002 processed = (Return r, w')
    /\ completeness r = 2%Q /\ ~ (0 <= completeness r <= 1)%Q.
Proof.
  eexists _, _. split; [vm_compute; reflexivity|]. split; [reflexivity|].
  cbn [completeness]. intros [_ H]. unfold Qle in H. simpl in H. lia.
Qed.


(** C10 as stated fails: for [a.csv.csv] the station code is [a], the
    name without its suffix is [a.csv]. *)
Lemma doubled_extension_station_code :
  exists r w',
    calculate_completeness (ops := Reference.ops) "out/a.csv.csv" shelf = (Return r, w')
    /\ station_code r = "a"
    /\ without_suffix (Path.basename "out/a.csv.csv") ".csv" = "a.csv"
    /\ station_code r <> without_suffix (Path.basename "out/a.csv.csv") ".csv".
Proof.
  eexists _, _. split; [vm_compute; reflexivity|]. split; [reflexivity|].
  split; [reflexivity|]. cbn [station_code]. vm_compute. discriminate.
Qed.

End Instances.

(* ===================================================================== *)
(** ** One station member, from the archive to its files (lines 31-78) *)
(* ===================================================================== *)

Section Station.
Context {ops : PandasOps}.
Import Py Frame Spec.

Lemma read_member_outcome zip info w o w' :
  read_member zip info w = (o, w') ->
  files w' = files w /\ log w' = log w /\
  (forall l d, heap w !! l = Some d -> heap w' !! l = Some d) /\
  match o with
  | Return l =>
      l = fresh (dom (heap w)) /\
      exists f d0, zip !! filename info = Some f /\ parse_csv f = Return d0
                   /\ heap w' = <[l := d0]> (heap w)
  | Raise e =>
      w' = w /\
      match zip !! filename info with
      | Some f => parse_csv f = Raise e
      | None => e = KeyError (filename info)
      end
  end.
Proof.
  unfold read_member, raise. destruct (zip !! filename info) as [f|].
  2:{ by intros [= <- <-]. }
  unfold bind, lift. destruct (parse_csv f) as [d0|e] eqn:Hd0; simpl.
  2:{ by intros [= <- <-]. }
  intros [= <- <-]. repeat (split; [done|]). split.
  - intros l d Hl. simpl. rewrite lookup_insert_ne; [done|].
    intros <-. by eapply (fresh_not_allocated (heap w)).
  - split; [done|]. by exists f, d0.
Qed.

Lemma index_by_datetime_outcome w l d0 o w' :
  heap w !! l = Some d0 ->
  index_by_datetime l w = (o, w') ->
  match o with
  | Return _ =>
      exists t, and_then (stamped d0) indexed = Return t /\ heap w' = <[l := t]> (heap w)
  | Raise e => and_then (stamped d0) indexed = Raise e
  end.
Proof.
  intros Hl. unfold index_by_datetime, stamped, indexed.
  unfold bind at 1. erewrite update_return by (done || reflexivity).
  set (d := set_columns _ d0). set (w1 := set_heap _ w).
  assert (H1 : heap w1 !! l = Some d) by apply lookup_insert_eq.
  unfold bind at 1. rewrite (deref_return _ _ _ H1).
  unfold bind at 1, lift. destruct (datetime_text d) as [text|e]; simpl.
  2:{ intros [= <- <-]. done. }
  unfold bind at 1.
  destruct (setitem "datetime" (to_datetime_format text) d) as [d1|e] eqn:Hd1.
  2:{ erewrite update_raise by done. intros [= <- <-]. done. }
  erewrite update_return by done. set (w2 := set_heap _ w1).
  assert (H2 : heap w2 !! l = Some d1) by apply lookup_insert_eq.
  unfold bind at 1. simpl.
  destruct (dropna "datetime" d1) as [d2|e] eqn:Hd2.
  2:{ erewrite update_raise by done. intros [= <- <-]. done. }
  erewrite update_return by done. set (w3 := set_heap _ w2).
  assert (H3 : heap w3 !! l = Some d2) by apply lookup_insert_eq.
  unfold bind at 1. simpl.
  destruct (drop_duplicates "datetime" d2) as [d3|e] eqn:Hd3.
  2:{ erewrite update_raise by done. intros [= <- <-]. done. }
  erewrite update_return by done. set (w4 := set_heap _ w3).
  assert (H4 : heap w4 !! l = Some d3) by apply lookup_insert_eq.
  simpl.
  destruct (set_index "datetime" d3) as [t|e] eqn:Ht.
  2:{ erewrite update_raise by done. intros [= <- <-]. done. }
  erewrite update_return by done. intros [= <- <-].
  exists t. split; [done|]. simpl. by rewrite !insert_insert_eq.
Qed.

Lemma process_variable_run w df t marker segment output_root year code o w' :
  heap w !! df = Some t ->
  process_variable df marker segment output_root year code w = (o, w') ->
  log w' = log w /\
  (forall l d, heap w !! l = Some d -> heap w' !! l = Some d) /\
  match o with
  | Return _ =>
      exists r, variable_file marker t = Return r
                /\ files w' = put (station_path output_root segment year code) r (files w)
  | Raise e => variable_file marker t = Raise e /\ files w' = files w
  end.
Proof.
  intros Hdf. unfold process_variable, bind.
  destruct (project df marker w) as [[[v|]|e] w1] eqn:Hp;
    destruct (project_run _ _ _ _ _ _ Hdf Hp) as (Hf & Hlog & Hk & Ho).
  - destruct Ho as (-> & col & s & Hcol & Hne & Hs & Hh).
    unfold persist, bind.
    assert (Hv : heap w1 !! fresh (dom (heap w)) = Some s).
    { rewrite Hh. apply lookup_insert_eq. }
    rewrite (deref_return _ _ _ Hv). unfold write_file. intros [= <- <-]. simpl.
    split; [done|]. split; [done|].
    exists (Some (to_csv s)). unfold variable_file. rewrite Hcol.
    destruct (String.eqb_spec col ""); [done|]. rewrite Hs. simpl. split; [done|].
    by rewrite Hf.
  - destruct Ho as (-> & Hnone). unfold ret. intros [= <- <-].
    split; [done|]. split; [done|]. exists None. split; [|done].
    unfold variable_file. by destruct Hnone as [->| ->].
  - destruct Ho as (col & Hcol & Hne & Hs). intros [= <- <-].
    split; [done|]. split; [done|]. split; [|done].
    unfold variable_file. rewrite Hcol.
    destruct (String.eqb_spec col ""); [done|]. by rewrite Hs.
Qed.

Lemma process_station_csv_run info zip output_root year code w :
  Re.search (filename info) = Some code ->
  exists w',
    process_station_csv info zip output_root year w = (Return tt, w')
    /\ files w' = (station_effect zip info output_root year code (files w)).1
    /\ log w' = log w ++ [(station_effect zip info output_root year code (files w)).2]
    /\ forall l d, heap w !! l = Some d -> heap w' !! l = Some d.
Proof.
  intros Hcode. unfold process_station_csv, station_effect, table_of. rewrite Hcode.
  unfold try_except. unfold bind at 1.
  destruct (read_member zip info w) as [[df|e] w1] eqn:Hread;
    destruct (read_member_outcome _ _ _ _ _ Hread) as (Hf1 & Hl1 & Hk1 & Ho1).
  2:{ destruct Ho1 as (-> & He). eexists. split; [reflexivity|]. simpl.
      destruct (zip !! filename info) as [f|]; [rewrite He|subst e]; by simpl. }
  destruct Ho1 as (Hfresh & f & d0 & -> & -> & Hh1). simpl.
  assert (Hdf : heap w1 !! df = Some d0) by (rewrite Hh1; apply lookup_insert_eq).
  assert (Hne : forall l d, heap w !! l = Some d -> l <> df).
  { intros l d Hl. subst df. by eapply fresh_not_allocated. }
  unfold bind at 1.
  destruct (index_by_datetime df w1) as [[[]|e] w2] eqn:Hidx;
    destruct (index_by_datetime_run _ _ _ _ _ Hdf Hidx) as (Hf2 & Hl2 & Hk2 & _);
    pose proof (index_by_datetime_outcome _ _ _ _ _ Hdf Hidx) as Ho2.
  2:{ eexists. split; [reflexivity|]. rewrite Ho2. simpl.
      rewrite Hf2, Hl2, Hf1, Hl1. repeat (split; [done|]).
      intros l d Hl. apply Hk2; [by eapply Hne|by apply Hk1]. }
  destruct Ho2 as (t & -> & Hh2).
  assert (Ht : heap w2 !! df = Some t) by (rewrite Hh2; apply lookup_insert_eq).
  assert (K2 : forall l d, heap w !! l = Some d -> heap w2 !! l = Some d).
  { intros l d Hl. apply Hk2; [by eapply Hne|by apply Hk1]. }
  unfold bind at 1.
  destruct (process_variable df "precipitacao total" _ _ _ _ w2) as [[[]|e] w3] eqn:Hp1;
    destruct (process_variable_run _ _ _ _ _ _ _ _ _ _ Ht Hp1) as (Hl3 & Hk3 & Ho3).
  2:{ destruct Ho3 as (-> & Hf3). eexists. split; [reflexivity|]. simpl.
      rewrite Hf3, Hl3, Hf2, Hl2, Hf1, Hl1. repeat (split; [done|]).
      intros l d Hl. by apply Hk3, K2. }
  destruct Ho3 as (o1 & -> & Hf3).
  unfold bind at 1.
  destruct (process_variable df "bulbo seco" _ _ _ _ w3) as [[[]|e] w4] eqn:Hp2;
    destruct (process_variable_run _ _ _ _ _ _ _ _ _ _ (Hk3 _ _ Ht) Hp2) as (Hl4 & Hk4 & Ho4).
  2:{ destruct Ho4 as (-> & Hf4). eexists. split; [reflexivity|]. simpl.
      rewrite Hf4, Hl4, Hf3, Hl3, Hf2, Hl2, Hf1, Hl1. repeat (split; [done|]).
      intros l d Hl. by apply Hk4, Hk3, K2. }
  destruct Ho4 as (o2 & -> & Hf4).
  eexists. split; [reflexivity|]. simpl.
  rewrite Hf4, Hl4, Hf3, Hl3, Hf2, Hl2, Hf1, Hl1. repeat (split; [done|]).
  intros l d Hl. by apply Hk4, Hk3, K2.
Qed.

End Station.
Section StationTheorems.
Context {ops : PandasOps}.
Import Py Frame Spec.

Lemma put_lookup path o (fs : gmap string CsvFile) p :
  put path o fs !! p = if decide (p = path) then match o with Some f => Some f | None => fs !! p end
                       else fs !! p.
Proof.
  destruct o as [f|]; simpl.
  - destruct (decide (p = path)) as [->|Hne]; [apply lookup_insert_eq|by apply lookup_insert_ne].
  - by destruct (decide (p = path)).
Qed.

Lemma station_effect_lookup zip info output_root year code fs p :
  p <> station_path output_root "total_precipitation" year code ->
  p <> station_path output_root "2m_air_temperature" year code ->
  (station_effect zip info output_root year code fs).1 !! p = fs !! p.
Proof.
  intros H1 H2. unfold station_effect.
  destruct (table_of zip info) as [t|e]; [|done].
  destruct (variable_file "precipitacao total" t) as [o1|e]; [|done].
  destruct (variable_file "bulbo seco" t) as [o2|e]; simpl;
    rewrite ?put_lookup; repeat (destruct (decide _); [done|]); done.
Qed.

Lemma station_effect_again zip info output_root year code fs :
  (station_effect zip info output_root year code
     (station_effect zip info output_root year code fs).1).1
  = (station_effect zip info output_root year code fs).1.
Proof.
  unfold station_effect.
  destruct (table_of zip info) as [t|e]; [|done].
  destruct (variable_file "precipitacao total" t) as [[f1|]|e]; [| |done];
    (destruct (variable_file "bulbo seco" t) as [[f2|]|e]; cbn [fst];
     apply map_eq; intros p; rewrite ?put_lookup;
     repeat (destruct (decide _)); done).
Qed.

(** X1. [process_station_csv] never raises, whatever the member and the
    archive: it returns, every frame that existed before the call is
    unchanged, a member whose name is not recognised leaves no trace, and
    a recognised one adds exactly one line to the log, at level INFO or
    WARNING. *)
Theorem station_member_always_returns info zip output_root year w :
  exists w',
    process_station_csv info zip output_root year w = (Return tt, w')
    /\ (forall l d, heap w !! l = Some d -> heap w' !! l = Some d)
    /\ match Re.search (filename info) with
       | Some code => exists lv msg, log w' = log w ++ [(lv, msg)] /\ lv <> ERROR
       | None => w' = w
       end.
Proof.
  destruct (Re.search (filename info)) as [code|] eqn:Hcode.
  - destruct (process_station_csv_run info zip output_root year code w Hcode)
      as (w' & Hrun & _ & Hlog & Hkept).
    exists w'. split; [done|]. split; [done|].
    destruct ((station_effect zip info output_root year code (files w)).2) as [lv msg] eqn:Hline.
    exists lv, msg. split; [done|].
    revert Hline. unfold station_effect, warning_line, success_line.
    repeat case_match; simpl; by intros [= <- _].
  - exists w. unfold process_station_csv. by rewrite Hcode.
Qed.

(** X2. The only files [process_station_csv] can create or overwrite are
    the two series of the station of the member,
    [<root>/inmet_stations/processed/<variable>/<year>/<code>.csv]; every
    other path holds after the call what it held before. *)
Theorem station_writes_its_two_files info zip output_root year w code p :
  Re.search (filename info) = Some code ->
  p <> station_path output_root "total_precipitation" year code ->
  p <> station_path output_root "2m_air_temperature" year code ->
  files (process_station_csv info zip output_root year w).2 !! p = files w !! p.
Proof.
  intros Hcode H1 H2.
  destruct (process_station_csv_run info zip output_root year code w Hcode)
    as (w' & Hrun & Hfiles & _).
  rewrite Hrun. simpl. rewrite Hfiles. by apply station_effect_lookup.
Qed.

(** X3. Processing a member a second time, from the state the first call
    left, changes no file: the series are overwritten with the same
    contents. *)
Theorem station_rerun_same_files info zip output_root year w :
  let once := (process_station_csv info zip output_root year w).2 in
  files (process_station_csv info zip output_root year once).2 = files once.
Proof.
  destruct (Re.search (filename info)) as [code|] eqn:Hcode.
  - destruct (process_station_csv_run info zip output_root year code w Hcode)
      as (w1 & -> & Hf1 & _). simpl.
    destruct (process_station_csv_run info zip output_root year code w1 Hcode)
      as (w2 & -> & Hf2 & _). simpl.
    rewrite Hf2, Hf1. apply station_effect_again.
  - unfold process_station_csv. by rewrite Hcode.
Qed.

Lemma positions_from_absent label cols : forall k,
  label ∉ cols -> positions_from k label cols = [].
Proof.
  induction cols as [|c cols IH]; intros k Hnot; [done|]. simpl.
  rewrite not_elem_of_cons in Hnot. destruct Hnot as [Hne Hnot].
  destruct (decide (c = label)); [congruence|]. by apply IH.
Qed.

Lemma getitem_absent d label :
  label ∉ columns d -> getitem d label = Raise (KeyError label).
Proof. intros Hnot. unfold getitem, positions. by rewrite positions_from_absent. Qed.

(** X4. A member that can be read but has no column whose normalised
    label is [data] makes line 47 raise [KeyError: 'data']: the call
    returns, no file is written, and the log receives the one warning
    naming the station, the member and the key. *)
Theorem member_without_date_column info zip output_root year w code f d0 :
  Re.search (filename info) = Some code ->
  zip !! filename info = Some f ->
  parse_csv f = Return d0 ->
  "data" ∉ map normalize_label (header f) ->
  exists w',
    process_station_csv info zip output_root year w = (Return tt, w')
    /\ files w' = files w
    /\ log w' = log w ++ [warning_line code (filename info) (KeyError "data")].
Proof.
  intros Hcode Hf Hd0 Hnot.
  destruct (process_station_csv_run info zip output_root year code w Hcode)
    as (w' & Hrun & Hfiles & Hlog & _).
  exists w'. split; [done|].
  assert (Ht : table_of zip info = Raise (KeyError "data")).
  { unfold table_of. rewrite Hf, Hd0. simpl. unfold stamped, datetime_text.
    rewrite getitem_absent; [done|]. simpl.
    by rewrite (proj1 (proj2 (parse_csv_spec _ _ Hd0))). }
  unfold station_effect in Hfiles, Hlog. rewrite Ht in Hfiles, Hlog. done.
Qed.

(** X5. When no label of the table contains [precipitacao total] or
    [bulbo seco], the member is reported as processed with success and no
    file is written. *)
Theorem member_without_variables info zip output_root year w code t :
  Re.search (filename info) = Some code ->
  table_of zip info = Return t ->
  find_column "precipitacao total" t = None ->
  find_column "bulbo seco" t = None ->
  exists w',
    process_station_csv info zip output_root year w = (Return tt, w')
    /\ files w' = files w
    /\ log w' = log w ++ [success_line code].
Proof.
  intros Hcode Ht H1 H2.
  destruct (process_station_csv_run info zip output_root year code w Hcode)
    as (w' & Hrun & Hfiles & Hlog & _).
  exists w'. split; [done|].
  unfold station_effect, variable_file in Hfiles, Hlog.
  rewrite Ht, H1, H2 in Hfiles, Hlog. done.
Qed.

(** X6. Nothing is rolled back: when the precipitation series has been
    written and the temperature block then raises, the precipitation
    file stays, no temperature file is written, and the member is logged
    with a warning instead of the success line. *)
Theorem first_series_stays_when_second_fails info zip output_root year w code t f e :
  Re.search (filename info) = Some code ->
  table_of zip info = Return t ->
  variable_file "precipitacao total" t = Return (Some f) ->
  variable_file "bulbo seco" t = Raise e ->
  exists w',
    process_station_csv info zip output_root year w = (Return tt, w')
    /\ files w' = <[station_path output_root "total_precipitation" year code := f]> (files w)
    /\ log w' = log w ++ [warning_line code (filename info) e].
Proof.
  intros Hcode Ht H1 H2.
  destruct (process_station_csv_run info zip output_root year code w Hcode)
    as (w' & Hrun & Hfiles & Hlog & _).
  exists w'. split; [done|].
  unfold station_effect in Hfiles, Hlog.
  rewrite Ht, H1, H2 in Hfiles, Hlog. done.
Qed.

End StationTheorems.
Section SeriesShape.
Context {ops : PandasOps}.
Import Py Frame Spec.

Lemma table_of_index zip info t :
  table_of zip info = Return t ->
  index_name t = Some "datetime"
  /\ exists ts, index t = map Stamp ts /\ NoDup ts.
Proof.
  unfold table_of. destruct (zip !! filename info) as [f|]; [|done].
  destruct (parse_csv f) as [d0|] eqn:Hd0; [|done]. simpl.
  destruct (stamped d0) as [d1|] eqn:Hd1; [|done]. simpl. intros Ht.
  destruct (indexed_table _ _ Ht) as (i & Hi & Hnd & Hna & _ & kept & Hsub & Hkept).
  apply parse_csv_spec in Hd0 as (Hwf & _).
  destruct (stamped_spec _ _ _ Hwf Hd1 Hi) as [_ Hcells].
  split.
  { revert Ht. unfold indexed.
    destruct (dropna "datetime" d1) as [d2|]; [|done]. simpl.
    destruct (drop_duplicates "datetime" d2) as [d3|]; [|done]. simpl.
    unfold set_index. repeat case_match; try done. by intros [= <-]. }
  assert (Hts : index t = map Stamp (stamps (index t))).
  { apply stamps_all. unfold index. rewrite Hkept, map_map. simpl.
    apply Forall_forall. intros v Hv.
    change (v ∈ cell i <$> kept) in Hv.
    apply list_elem_of_fmap in Hv as (r & -> & Hr).
    assert (Hr1 : r ∈ rows d1) by (by eapply sublist_subseteq).
    rewrite Forall_forall in Hcells. destruct (Hcells _ Hr1) as [Hn|?]; [|done].
    exfalso. rewrite Forall_forall in Hna. apply (Hna (cell i r)); [|done].
    unfold index. rewrite Hkept, map_map. simpl.
    change (cell i r ∈ cell i <$> kept). apply list_elem_of_fmap. by exists r. }
  exists (stamps (index t)). split; [done|].
  rewrite Hts in Hnd. by apply (NoDup_fmap_1 Stamp).
Qed.

Lemma positions_from_same label (ps : list nat) : forall k,
  positions_from k label (map (fun _ => label) ps) = seq k (length ps).
Proof.
  induction ps as [|p ps IH]; intros k; [done|]. simpl.
  destruct (decide (label = label)); [|done]. by rewrite IH.
Qed.

Lemma rename_selected col (ps : list nat) :
  map (fun c => if decide (c = col) then "value" else c) (map (fun _ => col) ps)
  = map (fun _ => "value") ps.
Proof.
  induction ps as [|p ps IH]; [done|]. simpl. rewrite IH.
  by destruct (decide (col = col)).
Qed.

(** The rows of a projected series: one cell each, the number read from
    the cell of the table. *)
Lemma projection_rows col t s :
  projection col t = Return s ->
  exists i,
    index_name s = index_name t /\ columns s = ["value"]
    /\ rows s = filter (fun r : row => Forall notna (key [0] r))
                  (map (fun r : row => (r.1, [to_numeric_value (cell i r)])) (rows t)).
Proof.
  unfold projection, select.
  destruct (positions col (columns t)) as [|i ps] eqn:Hps; [done|]. simpl.
  unfold getitem, rename. cbn [columns rows index_name].
  change (map (fun c => if decide (c = col) then "value" else c) (col :: map (fun _ => col) ps))
    with (map (fun c => if decide (c = col) then "value" else c) (map (fun _ => col) (i :: ps))).
  rewrite rename_selected. unfold positions. rewrite positions_from_same.
  destruct ps as [|j ps]; [|done]. cbn [length seq and_then].
  unfold setitem. cbn [columns rows index_name].
  unfold to_numeric. rewrite !length_map, Nat.eqb_refl. cbn [negb].
  unfold positions. cbn [map positions_from]. destruct (decide ("value" = "value")); [|done].
  cbn [and_then]. unfold dropna. cbn [columns rows index_name positions positions_from].
  unfold positions. cbn [map positions_from]. destruct (decide ("value" = "value")); [|done].
  intros [= <-]. exists i. split; [done|]. split; [done|]. cbn [rows]. f_equal.
  generalize (rows t). intros rs.
  induction rs as [|r rs IH]; [done|]. simpl. by rewrite IH.
Qed.

Lemma to_numeric_value_cases v :
  to_numeric_value v = NA \/ exists x, to_numeric_value v = Num x.
Proof. destruct v; simpl; try case_match; eauto. Qed.

Lemma series_records i (rs : list row) : forall ts,
  map fst rs = map Stamp ts ->
  exists obs : list (Z * Q),
    map fst obs `sublist_of` ts
    /\ map (fun r : row => render r.1 :: map render r.2)
         (filter (fun r : row => Forall notna (key [0] r))
            (map (fun r : row => (r.1, [to_numeric_value (cell i r)])) rs))
       = map (fun o : Z * Q => [Some (repr_timestamp o.1); Some (repr_float o.2)]) obs.
Proof.
  induction rs as [|[a cs] rs IH]; intros ts Hidx.
  { exists []. split; [apply sublist_nil_l|done]. }
  destruct ts as [|ts0 ts]; [done|]. simpl in Hidx. injection Hidx as -> Hidx.
  destruct (IH ts Hidx) as (obs & Hsub & Heq).
  cbn [map]. rewrite filter_cons. destruct (decide _) as [Hv|Hv].
  - apply Forall_cons in Hv as [Hv _]. unfold cell in Hv at 1. simpl in Hv.
    destruct (to_numeric_value_cases (cell i (Stamp ts0, cs))) as [Hx|[x Hx]]; [done|].
    exists ((ts0, x) :: obs). split; [by apply sublist_skip|].
    cbn [map fst snd]. rewrite Hx. f_equal. exact Heq.
  - exists obs. split; [by apply sublist_cons|exact Heq].
Qed.

Lemma variable_file_series marker t f ts :
  index_name t = Some "datetime" ->
  index t = map Stamp ts -> NoDup ts ->
  variable_file marker t = Return (Some f) ->
  series_file f.
Proof.
  intros Hname Hidx Hnd. unfold variable_file.
  destruct (find_column marker t) as [col|]; [|done].
  destruct (String.eqb col ""); [done|].
  destruct (projection col t) as [s|] eqn:Hs; [|done]. simpl. intros [= <-].
  destruct (projection_rows _ _ _ Hs) as (i & Hn & Hc & Hr).
  destruct (series_records i (rows t) ts Hidx) as (obs & Hsub & Heq).
  exists obs. split; [by eapply sublist_NoDup|].
  unfold to_csv. rewrite Hn, Hname, Hc, Hr, Heq. done.
Qed.

Lemma station_file_kept_or_series info zip output_root year w code p f :
  Re.search (filename info) = Some code ->
  files (process_station_csv info zip output_root year w).2 !! p = Some f ->
  files w !! p = Some f \/ series_file f.
Proof.
  intros Hcode Hf.
  destruct (process_station_csv_run info zip output_root year code w Hcode)
    as (w' & Hrun & Hfiles & _).
  rewrite Hrun in Hf. simpl in Hf. rewrite Hfiles in Hf. clear Hrun Hfiles.
  unfold station_effect in Hf.
  destruct (table_of zip info) as [t|] eqn:Ht; [|by left].
  destruct (table_of_index _ _ _ Ht) as (Hname & ts & Hidx & Hnd).
  destruct (variable_file "precipitacao total" t) as [o1|] eqn:H1; [|by left].
  assert (S1 : forall g, o1 = Some g -> series_file g).
  { intros g ->. by eapply variable_file_series. }
  destruct (variable_file "bulbo seco" t) as [o2|] eqn:H2; cbn [fst] in Hf.
  - assert (S2 : forall g, o2 = Some g -> series_file g).
    { intros g ->. by eapply variable_file_series. }
    rewrite !put_lookup in Hf.
    repeat (destruct (decide _)); try (by left);
      repeat (match goal with o : option CsvFile |- _ => destruct o end); try (by left);
      injection Hf as <-; eauto.
  - rewrite !put_lookup in Hf.
    repeat (destruct (decide _)); try (by left);
      repeat (match goal with o : option CsvFile |- _ => destruct o end); try (by left);
      injection Hf as <-; eauto.
Qed.

(** X7. Every file [process_station_csv] writes or changes has the form
    of a series: the header [datetime], [value], and in each record
    exactly two fields, a timestamp and a number, neither of them empty;
    no timestamp comes twice. *)
Theorem written_file_is_series info zip output_root year w p f :
  files (process_station_csv info zip output_root year w).2 !! p = Some f ->
  files w !! p <> Some f ->
  series_file f.
Proof.
  intros Hf Hnew. destruct (Re.search (filename info)) as [code|] eqn:Hcode.
  - by destruct (station_file_kept_or_series _ _ _ _ _ _ _ _ Hcode Hf).
  - unfold process_station_csv in Hf. by rewrite Hcode in Hf.
Qed.

End SeriesShape.
(* ===================================================================== *)
(** ** From the station file back to the station code *)
(* ===================================================================== *)

Section PathFacts.

(** No slash occurs in [s]. *)
Lemma basename_from_plain s : forall acc,
  Path.contains "/" s = false -> Path.basename_from acc s = acc +:+ s.
Proof.
  induction s as [|c s IH]; intros acc Hs.
  { simpl. clear. induction acc as [|a acc IH]; [done|]. rewrite append_cons. by f_equal. }
  cbn [Path.contains String.prefix] in Hs. cbn [Path.basename_from].
  destruct (ascii_dec "/" c) as [<-|Hne].
  { by destruct s. }
  destruct (Ascii.eqb_spec c "/") as [->|_]; [done|].
  assert (Hs' : Path.contains "/" s = false).
  { destruct s; exact Hs. }
  rewrite IH by done. clear.
  induction acc as [|a acc IH]; [done|]. rewrite !append_cons. by f_equal.
Qed.

Lemma basename_from_slash a b : forall acc,
  Path.basename_from acc (a +:+ String "/" b) = Path.basename_from "" b.
Proof.
  induction a as [|c a IH]; intros acc; [done|].
  rewrite append_cons. cbn [Path.basename_from].
  destruct (Ascii.eqb c "/"); apply IH.
Qed.

Lemma endswith_slash_split a :
  Path.endswith_slash a = true -> exists a', a = a' +:+ "/".
Proof.
  induction a as [|c a IH]; [done|]. cbn [Path.endswith_slash].
  destruct a as [|c' a].
  - intros ->%Ascii.eqb_eq. by exists "".
  - intros (a' & ->)%IH. by exists (String c a').
Qed.

Lemma basename_join2 a b :
  Path.contains "/" b = false -> Path.basename (Path.join2 a b) = b.
Proof.
  intros Hb. unfold Path.join2, Path.startswith.
  assert (Hpre : String.prefix "/" b = false).
  { destruct b as [|c b]; [done|]. cbn [Path.contains] in Hb.
    by destruct (String.prefix "/" (String c b)). }
  rewrite Hpre. unfold Path.basename.
  destruct (String.eqb_spec a "") as [->|_]; cbn [orb].
  { change ("" ++ b)%string with b. by rewrite basename_from_plain. }
  destruct (Path.endswith_slash a) eqn:Hslash.
  - apply endswith_slash_split in Hslash as (a' & ->).
    change ((a' +:+ "/") ++ b)%string with ((a' +:+ "/") +:+ b).
    replace ((a' +:+ "/") +:+ b) with (a' +:+ String "/" b).
    + rewrite basename_from_slash. by rewrite basename_from_plain.
    + clear. induction a' as [|c a' IH]; [done|]. rewrite !append_cons. by f_equal.
  - change (a ++ "/" ++ b)%string with (a +:+ String "/" b).
    rewrite basename_from_slash. by rewrite basename_from_plain.
Qed.

Lemma contains_append_plain (c : ascii) (a b : string) :
  Path.contains (String c "") a = false -> Path.contains (String c "") b = false ->
  Path.contains (String c "") (a +:+ b) = false.
Proof.
  intros Ha Hb. induction a as [|x a IH]; [done|].
  rewrite append_cons. cbn [Path.contains String.prefix] in Ha |- *.
  destruct (ascii_dec c x).
  { by destruct a. }
  apply IH. by destruct a.
Qed.

Lemma code_plain code :
  Re.is_code (Re.chars code) ->
  Path.contains "/" code = false /\ Path.contains "." code = false.
Proof.
  intros (c1 & l1 & H1 & U & c2 & l2 & -> & D2 & c3 & l3 & -> & D3 & c4 & l4 & -> & D4 & ->).
  apply (f_equal Re.text) in H1. rewrite ReFacts.text_chars in H1. subst code.
  cbn [Re.text string_of_list_ascii Path.contains String.prefix].
  cbn [Re.atom_matches] in U, D2, D3, D4.
  split.
  - repeat (destruct (ascii_dec _ _) as [<-|_]; [done|]). done.
  - repeat (destruct (ascii_dec _ _) as [<-|_]; [done|]). done.
Qed.

Lemma station_path_basename output_root segment year code :
  Path.contains "/" code = false ->
  Path.basename (station_path output_root segment year code) = code +:+ ".csv".
Proof.
  intros Hcode. unfold station_path. cbn [Path.join foldl].
  apply basename_join2. by apply contains_append_plain.
Qed.

End PathFacts.

Section RoundTrip.
Context {ops : PandasOps}.
Import Py Frame Spec.

(** X8. The report names a station by the code under which its series
    was written: for a code the extractor found in a member name, the
    record computed for the series file
    [<root>/inmet_stations/processed/<variable>/<year>/<code>.csv] carries
    that code, whatever the root, the variable and the year, together
    with the ratio of the file found there. *)
Theorem station_file_reports_its_code name code output_root segment year w :
  Re.search name = Some code ->
  exists w',
    calculate_completeness (station_path output_root segment year code) w
    = (Return {| station_code := code;
                 completeness :=
                   ratio_of_file (files w !! station_path output_root segment year code) |},
       w').
Proof.
  intros Hcode. apply search_some in Hcode as (_ & _ & _ & _ & _ & Hcode).
  apply code_plain in Hcode as [Hslash Hdot].
  destruct (calculate_completeness_run (station_path output_root segment year code) w)
    as (w' & Hrun & _).
  exists w'. rewrite Hrun. do 3 f_equal.
  rewrite station_path_basename by done. by apply replace_extension.
Qed.

End RoundTrip.
(* ===================================================================== *)
(** ** The report of a year (lines 102-121) *)
(* ===================================================================== *)

Section Report.
Context {ops : PandasOps}.
Import Py Frame Spec.

Lemma report_data_run station_files w :
  exists w',
    report_data station_files w = (Return (map (station_record (files w)) station_files), w')
    /\ kept_world w w'.
Proof.
  unfold report_data.
  apply (mapM_run calculate_completeness (fun w p => station_record (files w) p)).
  - intros p w0. destruct (calculate_completeness_run p w0) as (w' & Hrun & Hk).
    exists w'. split; [|exact Hk]. cbv beta. unfold station_record. exact Hrun.
  - intros p w0 w1 (Hf & _). by rewrite Hf.
Qed.

Lemma report_variable_run ls year output_root var w :
  exists w',
    report_variable ls year output_root var w = (Return tt, w')
    /\ (forall l d, heap w !! l = Some d -> heap w' !! l = Some d)
    /\ match ls (files w) (processed_dir output_root var year) with
       | None => files w' = files w /\ log w' = log w ++ [missing_line var year]
       | Some names =>
           match listed_records (files w) (processed_dir output_root var year) names with
           | [] => files w' = files w /\ log w' = log w
           | data =>
               files w' = <[report_path output_root var year := report_csv data]> (files w)
               /\ log w' = log w ++ [report_line (report_path output_root var year)]
           end
       end.
Proof.
  unfold report_variable. unfold bind at 1, get_world.
  destruct (ls (files w) (processed_dir output_root var year)) as [names|].
  2:{ eexists. split; [reflexivity|]. done. }
  unfold bind at 1.
  destruct (report_data_run
              (map (fun f => Path.join (processed_dir output_root var year) [f])
                 (List.filter (fun f => Path.endswith f ".csv") names)) w)
    as (w1 & -> & Hf & Hl & Hk).
  unfold listed_records. rewrite map_map.
  destruct (map _ (List.filter _ names)) as [|r data].
  - exists w1. done.
  - eexists. split; [reflexivity|]. simpl. by rewrite Hf, Hl.
Qed.

Lemma generate_completeness_report_run ls year output_root w :
  exists w1 w2 w',
    generate_completeness_report ls year output_root w = (Return tt, w')
    /\ w1 = mkWorld (heap w) (files w) (log w ++ [start_line year])
    /\ report_variable ls year output_root "total_precipitation" w1 = (Return tt, w2)
    /\ report_variable ls year output_root "2m_air_temperature" w2 = (Return tt, w').
Proof.
  unfold generate_completeness_report. unfold bind at 1, logging.
  set (w1 := mkWorld _ _ _).
  destruct (report_variable_run ls year output_root "total_precipitation" w1)
    as (w2 & H2 & _).
  destruct (report_variable_run ls year output_root "2m_air_temperature" w2)
    as (w3 & H3 & _).
  exists w1, w2, w3. unfold bind. rewrite H2, H3. done.
Qed.

(** X9. For a variable whose directory of series exists and lists at
    least one name ending in [.csv], the report written at
    [<root>/<variable>_<year>_completeness.csv] has the header
    [station_code], [completeness] and one record per such name, in the
    order of the listing: the name without [.csv], and the ratio of the
    file of that name as it was when the report began.  Names that do not
    end in [.csv] get no record. *)
Theorem report_has_a_record_per_listed_file ls year output_root var w names :
  ls (files w) (processed_dir output_root var year) = Some names ->
  Forall (fun f => Path.contains "/" f = false) names ->
  List.filter (fun f => Path.endswith f ".csv") names <> [] ->
  exists w',
    report_variable ls year output_root var w = (Return tt, w')
    /\ files w' !! report_path output_root var year
       = Some (mkCsv ["station_code"; "completeness"]
                 (map (fun f =>
                         [text_field (Path.replace f ".csv" "");
                          Some (repr_float
                                  (ratio_of_file
                                     (files w !! Path.join (processed_dir output_root var year) [f])))])
                    (List.filter (fun f => Path.endswith f ".csv") names)))
    /\ forall p, p <> report_path output_root var year -> files w' !! p = files w !! p.
Proof.
  intros Hls Hplain Hsome.
  destruct (report_variable_run ls year output_root var w) as (w' & Hrun & _ & Hw).
  exists w'. split; [done|]. rewrite Hls in Hw.
  assert (Hdata : report_csv (listed_records (files w) (processed_dir output_root var year) names)
          = mkCsv ["station_code"; "completeness"]
              (map (fun f =>
                      [text_field (Path.replace f ".csv" "");
                       Some (repr_float
                               (ratio_of_file
                                  (files w !! Path.join (processed_dir output_root var year) [f])))])
                 (List.filter (fun f => Path.endswith f ".csv") names))).
  { unfold report_csv, listed_records. f_equal. rewrite map_map.
    apply map_ext_in. intros f Hin. cbn [station_record station_code completeness render].
    apply List.filter_In in Hin as [Hin _].
    rewrite List.Forall_forall in Hplain.
    cbn [Path.join foldl]. by rewrite basename_join2 by by apply Hplain. }
  destruct (listed_records _ _ names) as [|r data] eqn:Hrec.
  { exfalso. unfold listed_records in Hrec. apply map_eq_nil in Hrec. done. }
  destruct Hw as [Hf _]. rewrite Hf, <- Hdata. split; [apply lookup_insert_eq|].
  intros p Hp. by apply lookup_insert_ne.
Qed.

(** X10. No station file, no report: when the directory of a variable
    is missing, or lists no name ending in [.csv], no file is written for
    that variable; the missing directory is logged with one warning, the
    directory without station files with nothing at all. *)
Theorem no_report_without_station_files ls year output_root var w :
  match ls (files w) (processed_dir output_root var year) with
  | None => True
  | Some names => List.filter (fun f => Path.endswith f ".csv") names = []
  end ->
  exists w',
    report_variable ls year output_root var w = (Return tt, w')
    /\ files w' = files w
    /\ log w' = log w ++ match ls (files w) (processed_dir output_root var year) with
                         | None => [missing_line var year]
                         | Some _ => []
                         end.
Proof.
  intros Hnone.
  destruct (report_variable_run ls year output_root var w) as (w' & Hrun & _ & Hw).
  exists w'. split; [done|].
  destruct (ls (files w) (processed_dir output_root var year)) as [names|]; [|done].
  unfold listed_records in Hw. rewrite Hnone in Hw. simpl in Hw.
  by rewrite app_nil_r.
Qed.

(** X11. Whatever [generate_completeness_report] comes to, the only
    files it can have created or overwritten are the two reports of the
    year, so the series it reads are as before; it leaves every frame as
    it was; and its log opens with its own line, followed by at most one
    line per variable. *)
Theorem report_stage_touches_reports_only ls year output_root w o w' :
  generate_completeness_report ls year output_root w = (o, w') ->
  (forall p,
     p <> report_path output_root "total_precipitation" year ->
     p <> report_path output_root "2m_air_temperature" year ->
     files w' !! p = files w !! p)
  /\ (forall l d, heap w !! l = Some d -> heap w' !! l = Some d)
  /\ exists more, log w' = log w ++ start_line year :: more /\ length more <= 2.
Proof.
  destruct (generate_completeness_report_run ls year output_root w)
    as (w1 & w2 & w3 & Hrun & -> & H2 & H3).
  rewrite Hrun. intros [= <- <-].
  destruct (report_variable_run ls year output_root "total_precipitation"
              (mkWorld (heap w) (files w) (log w ++ [start_line year])))
    as (w2' & H2' & Hk2 & Hw2).
  rewrite H2 in H2'. injection H2' as <-.
  destruct (report_variable_run ls year output_root "2m_air_temperature" w2)
    as (w3' & H3' & Hk3 & Hw3).
  rewrite H3 in H3'. injection H3' as <-.
  cbn [files log heap] in Hw2, Hk2.
  assert (F2 : forall p, p <> report_path output_root "total_precipitation" year ->
                         files w2 !! p = files w !! p).
  { intros p Hp. repeat case_match; destruct Hw2 as [-> _]; try done;
      by rewrite lookup_insert_ne. }
  assert (F3 : forall p, p <> report_path output_root "2m_air_temperature" year ->
                         files w3 !! p = files w2 !! p).
  { intros p Hp. repeat case_match; destruct Hw3 as [-> _]; try done;
      by rewrite lookup_insert_ne. }
  assert (L2 : exists m, log w2 = (log w ++ [start_line year]) ++ m /\ length m <= 1).
  { repeat case_match; destruct Hw2 as [_ ->];
      first [exists []; rewrite app_nil_r; split; [done|simpl; lia]
            | eexists [_]; split; [done|simpl; lia]]. }
  assert (L3 : exists m, log w3 = log w2 ++ m /\ length m <= 1).
  { repeat case_match; destruct Hw3 as [_ ->];
      first [exists []; rewrite app_nil_r; split; [done|simpl; lia]
            | eexists [_]; split; [done|simpl; lia]]. }
  split; [intros p P1 P2; by rewrite F3, F2|].
  split; [intros l d Hl; by apply Hk3, Hk2|].
  destruct L2 as (m2 & E2 & Hm2). destruct L3 as (m3 & E3 & Hm3).
  exists (m2 ++ m3). rewrite E3, E2, <- !app_assoc. split; [done|].
  rewrite length_app. lia.
Qed.

End Report.
(* ===================================================================== *)
(** ** A year, and the years of a run (lines 17-29 and 124-150) *)
(* ===================================================================== *)

Section Years.
Context {ops : PandasOps}.
Import Py Frame Spec.

Lemma station_returns info zip output_root year w :
  exists w',
    process_station_csv info zip output_root year w = (Return tt, w')
    /\ forall l d, heap w !! l = Some d -> heap w' !! l = Some d.
Proof.
  destruct (Re.search (filename info)) as [code|] eqn:Hcode.
  - destruct (process_station_csv_run info zip output_root year code w Hcode)
      as (w' & Hrun & _ & _ & Hkept). by exists w'.
  - exists w. unfold process_station_csv. by rewrite Hcode.
Qed.

Lemma station_other_paths info zip output_root year w p :
  (forall code, Re.search (filename info) = Some code ->
     p <> station_path output_root "total_precipitation" year code
     /\ p <> station_path output_root "2m_air_temperature" year code) ->
  files (process_station_csv info zip output_root year w).2 !! p = files w !! p.
Proof.
  intros Hp. destruct (Re.search (filename info)) as [code|] eqn:Hcode.
  - destruct (Hp code eq_refl) as [H1 H2].
    destruct (process_station_csv_run info zip output_root year code w Hcode)
      as (w' & Hrun & Hfiles & _).
    rewrite Hrun. simpl. rewrite Hfiles. by apply station_effect_lookup.
  - unfold process_station_csv. by rewrite Hcode.
Qed.

Lemma submit_stations zip output_root year infos : forall w,
  exists w',
    submit_all (map (fun info => process_station_csv info zip output_root year) infos) w
    = (map (fun _ => Return tt) infos, w')
    /\ (forall l d, heap w !! l = Some d -> heap w' !! l = Some d)
    /\ (forall p f, files w' !! p = Some f -> files w !! p = Some f \/ series_file f)
    /\ (forall p,
          (forall info code, info ∈ infos -> Re.search (filename info) = Some code ->
             p <> station_path output_root "total_precipitation" year code
             /\ p <> station_path output_root "2m_air_temperature" year code) ->
          files w' !! p = files w !! p).
Proof.
  induction infos as [|info infos IH]; intros w.
  { exists w. repeat split; auto. }
  destruct (station_returns info zip output_root year w) as (w1 & Hrun & Hk1).
  destruct (IH w1) as (w' & Hrest & Hk & Hshape & Hpaths).
  exists w'. cbn [map submit_all]. rewrite Hrun, Hrest. split; [done|].
  split; [intros l d Hl; by apply Hk, Hk1|]. split.
  - intros p f Hf. destruct (Hshape p f Hf) as [H1|Hs]; [|by right].
    assert (Hf1 : files (process_station_csv info zip output_root year w).2 !! p = Some f)
      by (by rewrite Hrun).
    destruct (Re.search (filename info)) as [code|] eqn:Hcode.
    + by eapply station_file_kept_or_series.
    + left. revert Hf1. unfold process_station_csv. by rewrite Hcode.
  - intros p Hp. rewrite Hpaths.
    + replace w1 with (process_station_csv info zip output_root year w).2 by (by rewrite Hrun).
      apply station_other_paths. intros code Hcode. apply (Hp info code); [left|done].
    + intros i c Hi Hc. apply (Hp i c); [by right|done].
Qed.

Lemma results_returned {A} (l : list A) : results (map (fun _ => Return tt) l) = inr tt.
Proof. induction l; [done|]. done. Qed.

(** What [process_year_data] comes to, by the answer of the portal. *)
Lemma process_year_data_run portal year output_root w :
  let w0 := mkWorld (heap w) (files w)
              (log w ++ [(INFO, ("Baixando dados para o ano " ++ year ++ " de "
                                 ++ archive_url year)%string)]) in
  match portal (archive_url year) with
  | Refused reason =>
      process_year_data portal year output_root w
      = (inr tt,
         mkWorld (heap w) (files w)
           (log w0 ++ [(ERROR, ("Falha no download para o ano " ++ year ++ ". Erro: "
                                ++ reason)%string)]))
  | Content None => process_year_data portal year output_root w = (inl BadZipFile, w0)
  | Content (Some z) =>
      exists w',
        process_year_data portal year output_root w = (inr tt, w')
        /\ (forall l d, heap w !! l = Some d -> heap w' !! l = Some d)
        /\ (forall p f, files w' !! p = Some f -> files w !! p = Some f \/ series_file f)
        /\ (forall p,
              (forall info code,
                 info ∈ infolist z -> is_csv_member info = true ->
                 Re.search (filename info) = Some code ->
                 p <> station_path output_root "total_precipitation" year code
                 /\ p <> station_path output_root "2m_air_temperature" year code) ->
              files w' !! p = files w !! p)
  end.
Proof.
  intros w0. unfold process_year_data, download_inmet_zip.
  unfold then_ at 1. unfold then_ at 1. unfold run at 1, logging at 1. fold w0.
  destruct (portal (archive_url year)) as [reason|[z|]]; [done| |done].
  unfold then_, run, logging, finish.
  set (w1 := mkWorld _ _ _).
  destruct (submit_stations (members z) output_root year
              (List.filter is_csv_member (infolist z)) w1)
    as (w' & Hrun & Hk & Hshape & Hpaths).
  exists w'. rewrite Hrun, results_returned. split; [done|].
  split; [done|]. split; [done|].
  intros p Hp. rewrite Hpaths; [done|].
  intros info code Hin Hcode. apply list_elem_of_In, List.filter_In in Hin as [Hin Hcsv].
  apply list_elem_of_In in Hin. by apply (Hp info code).
Qed.

Lemma then_logging {B} lv msg (k : unit -> Top B) w :
  then_ (run (logging lv msg)) k w
  = k tt (mkWorld (heap w) (files w) (log w ++ [(lv, msg)])).
Proof. reflexivity. Qed.

Lemma then_returned {A B} (m : Top A) (k : A -> Top B) w a w' :
  m w = (inr a, w') -> then_ m k w = k a w'.
Proof. intros H. unfold then_. by rewrite H. Qed.

Lemma then_failed {A B} (m : Top A) (k : A -> Top B) w e w' :
  m w = (inl e, w') -> then_ m k w = (inl e, w').
Proof. intros H. unfold then_. by rewrite H. Qed.

Lemma run_returned {A} (m : M A) w a w' : m w = (Return a, w') -> run m w = (inr a, w').
Proof. intros H. unfold run. by rewrite H. Qed.

Lemma run_year_run portal ls output_root year w :
  match portal (archive_url year) with
  | Content None =>
      run_year portal ls output_root year w
      = (inl BadZipFile,
         mkWorld (heap w) (files w)
           (log w ++ [(INFO, ("--- Iniciando processamento para o ano de " ++ year
                              ++ " ---")%string);
                      (INFO, ("Baixando dados para o ano " ++ year ++ " de "
                              ++ archive_url year)%string)]))
  | _ => exists w', run_year portal ls output_root year w = (inr tt, w')
  end.
Proof.
  set (w0 := mkWorld (heap w) (files w)
               (log w ++ [(INFO, ("--- Iniciando processamento para o ano de " ++ year
                                  ++ " ---")%string)])).
  pose proof (process_year_data_run portal year output_root w0) as Hyear.
  cbv zeta in Hyear.
  destruct (portal (archive_url year)) as [reason|[z|]].
  - unfold run_year. rewrite then_logging. fold w0.
    rewrite (then_returned _ _ _ _ _ Hyear). set (w1 := mkWorld _ _ _).
    destruct (generate_completeness_report_run ls year output_root w1)
      as (? & ? & w2 & Hrep & _).
    rewrite (then_returned _ _ _ _ _ (run_returned _ _ _ _ Hrep)). by eexists.
  - destruct Hyear as (w1 & Hyear & _).
    unfold run_year. rewrite then_logging. fold w0.
    rewrite (then_returned _ _ _ _ _ Hyear).
    destruct (generate_completeness_report_run ls year output_root w1)
      as (? & ? & w2 & Hrep & _).
    rewrite (then_returned _ _ _ _ _ (run_returned _ _ _ _ Hrep)). by eexists.
  - unfold run_year. rewrite then_logging. fold w0.
    rewrite (then_failed _ _ _ _ _ Hyear). subst w0. cbn [heap files log].
    by rewrite <- app_assoc.
Qed.

Lemma for_each_app {A} (f : A -> Top unit) (l1 l2 : list A) w w1 :
  for_each f l1 w = (inr tt, w1) -> for_each f (l1 ++ l2) w = for_each f l2 w1.
Proof.
  revert w. induction l1 as [|a l1 IH]; intros w; cbn [for_each app].
  { unfold finish. by intros [= <-]. }
  unfold then_. destruct (f a w) as [[e|[]] w0]; [done|]. apply IH.
Qed.

(** X12. [process_year_data] raises nothing but [BadZipFile], and raises
    it only when the portal answered with something that is no archive;
    the files are then as before.  Whatever the members of an archive
    hold, no exception of theirs leaves the call. *)
Theorem year_fails_only_on_bad_archive portal year output_root w :
  match (process_year_data portal year output_root w).1 with
  | inl e =>
      e = BadZipFile /\ portal (archive_url year) = Content None
      /\ files (process_year_data portal year output_root w).2 = files w
  | inr _ => portal (archive_url year) <> Content None
  end.
Proof.
  pose proof (process_year_data_run portal year output_root w) as Hyear.
  cbv zeta in Hyear.
  destruct (portal (archive_url year)) as [reason|[z|]].
  - by rewrite Hyear.
  - destruct Hyear as (w' & -> & _). done.
  - by rewrite Hyear.
Qed.

(** X13. Every file that the processing of a year creates or changes
    has the form of a series: header [datetime], [value], and in each
    record a timestamp and a number, the timestamps pairwise distinct. *)
Theorem year_files_are_series portal year output_root w p f :
  files (process_year_data portal year output_root w).2 !! p = Some f ->
  files w !! p <> Some f ->
  series_file f.
Proof.
  intros Hf Hnew.
  pose proof (process_year_data_run portal year output_root w) as Hyear.
  cbv zeta in Hyear.
  destruct (portal (archive_url year)) as [reason|[z|]].
  - rewrite Hyear in Hf. done.
  - destruct Hyear as (w' & Hrun & _ & Hshape & _). rewrite Hrun in Hf.
    by destruct (Hshape p f Hf).
  - rewrite Hyear in Hf. done.
Qed.

(** X14. The processing of a year touches station files only: a path
    that is not the series file of a station code found in the name of a
    member ending in [.csv] (in any letter case) holds afterwards what it
    held before.  Members with another ending leave no file, even when
    their name carries a station code. *)
Theorem year_touches_station_files_only portal year output_root w p :
  (forall z info code,
     portal (archive_url year) = Content (Some z) ->
     info ∈ infolist z -> is_csv_member info = true ->
     Re.search (filename info) = Some code ->
     p <> station_path output_root "total_precipitation" year code
     /\ p <> station_path output_root "2m_air_temperature" year code) ->
  files (process_year_data portal year output_root w).2 !! p = files w !! p.
Proof.
  intros Hp.
  pose proof (process_year_data_run portal year output_root w) as Hyear.
  cbv zeta in Hyear.
  destruct (portal (archive_url year)) as [reason|[z|]].
  - by rewrite Hyear.
  - destruct Hyear as (w' & -> & _ & _ & Hpaths). apply Hpaths.
    intros info code. by apply Hp.
  - by rewrite Hyear.
Qed.

(** X15. A year whose download is refused is not given up: the failure
    is logged at level ERROR, no member is processed, and the report
    stage of that year runs all the same, on the files that are there;
    the run goes on. *)
Theorem refused_year_is_still_reported portal ls output_root year w reason :
  portal (archive_url year) = Refused reason ->
  exists w1 w2,
    log w1 = log w ++ [(INFO, ("--- Iniciando processamento para o ano de " ++ year
                               ++ " ---")%string);
                       (INFO, ("Baixando dados para o ano " ++ year ++ " de "
                               ++ archive_url year)%string);
                       (ERROR, ("Falha no download para o ano " ++ year ++ ". Erro: "
                                ++ reason)%string)]
    /\ files w1 = files w /\ heap w1 = heap w
    /\ generate_completeness_report ls year output_root w1 = (Return tt, w2)
    /\ run_year portal ls output_root year w
       = (inr tt,
          mkWorld (heap w2) (files w2)
            (log w2 ++ [(INFO, ("--- Finalizado processamento para o ano de " ++ year
                                ++ " ---")%string)])).
Proof.
  intros Hportal.
  set (w0 := mkWorld (heap w) (files w)
               (log w ++ [(INFO, ("--- Iniciando processamento para o ano de " ++ year
                                  ++ " ---")%string)])).
  pose proof (process_year_data_run portal year output_root w0) as Hyear.
  cbv zeta in Hyear. rewrite Hportal in Hyear.
  unfold run_year. rewrite then_logging. fold w0.
  rewrite (then_returned _ _ _ _ _ Hyear). set (w1 := mkWorld _ _ _).
  destruct (generate_completeness_report_run ls year output_root w1)
    as (? & ? & w2 & Hrep & _).
  exists w1, w2. split.
  { subst w1 w0. cbn [log heap files]. by rewrite <- !app_assoc. }
  split; [done|]. split; [done|]. split; [done|].
  by rewrite (then_returned _ _ _ _ _ (run_returned _ _ _ _ Hrep)).
Qed.

(** X16. An answer that is no archive ends the whole run: the years
    before it are done, the year itself stops after the line announcing
    its download, with [BadZipFile], without a report; and the years
    after it are not begun, whatever they are. *)
Theorem bad_archive_stops_the_run portal ls output_root before year later w w1 :
  run_years portal ls before output_root w = (inr tt, w1) ->
  portal (archive_url year) = Content None ->
  run_years portal ls (before ++ year :: later) output_root w
  = (inl BadZipFile,
     mkWorld (heap w1) (files w1)
       (log w1 ++ [(INFO, ("--- Iniciando processamento para o ano de " ++ year
                           ++ " ---")%string);
                   (INFO, ("Baixando dados para o ano " ++ year ++ " de "
                           ++ archive_url year)%string)])).
Proof.
  intros Hbefore Hportal. unfold run_years in *.
  rewrite (for_each_app _ _ _ _ _ Hbefore). cbn [for_each]. unfold then_.
  pose proof (run_year_run portal ls output_root year w1) as Hyear.
  rewrite Hportal in Hyear. by rewrite Hyear.
Qed.

End Years.
(* ===================================================================== *)
(** ** The ratio of a series the pipeline wrote (lines 81-100) *)
(* ===================================================================== *)

Section ReadBack.
Context {ops : PandasOps}.
Import Py Frame Spec.

Lemma series_bounds ts s e :
  s ∈ ts -> e ∈ ts -> (forall t, t ∈ ts -> (s <= t <= e)%Z) ->
  series_min (map Stamp ts) = Stamp s /\ series_max (map Stamp ts) = Stamp e.
Proof.
  intros Hs He Hb.
  assert (exists s' e', series_min (map Stamp ts) = Stamp s'
                        /\ series_max (map Stamp ts) = Stamp e') as (s' & e' & Hs' & He').
  { unfold series_min, series_max. rewrite stamps_map.
    destruct ts as [|t ts]; [by apply elem_of_nil in Hs|]. eauto. }
  destruct (series_extremes _ _ _ Hs' He') as (Hsin & Hein & Hb').
  rewrite stamps_map in *.
  pose proof (Hb _ Hsin). pose proof (Hb _ Hein).
  pose proof (Hb' _ Hs). pose proof (Hb' _ He).
  rewrite Hs', He'. split; f_equal; lia.
Qed.

Lemma ratio_from_stamps ts vals s e :
  s ∈ ts -> e ∈ ts -> (forall t, t ∈ ts -> (s <= t <= e)%Z) ->
  ratio_from (map Stamp ts) vals
  = Return (Num.round2 (Num.truediv (count_valid vals) ((e - s) / Num.hour_ns + 1))).
Proof.
  intros Hs He Hb. destruct (series_bounds _ _ _ Hs He Hb) as [Hmin Hmax].
  unfold ratio_from. rewrite Hmin, Hmax. cbn [expected_of and_then].
  pose proof (Hb _ He) as Hse.
  rewrite whole_hours by lia.
  assert (0 <= (e - s) / Num.hour_ns)%Z by (apply Z.div_pos; [lia|done]).
  destruct (_ <=? 0)%Z eqn:Hle; [apply Z.leb_le in Hle; lia|done].
Qed.

Lemma count_valid_all vals :
  Forall (fun v => to_numeric_value v <> NA) vals ->
  count_valid vals = Z.of_nat (length vals).
Proof.
  intros Hall. rewrite count_valid_filter. f_equal.
  induction Hall as [|v vals Hv Hall IH]; [done|].
  rewrite filter_cons_True by done. simpl. by rewrite IH.
Qed.

Lemma hours_elem s n t :
  t ∈ hours s n <-> exists k, k < n /\ t = (s + Z.of_nat k * Num.hour_ns)%Z.
Proof.
  unfold hours. change (map ?f ?l) with (f <$> l). rewrite list_elem_of_fmap.
  split.
  - intros (k & -> & Hk). apply elem_of_seq in Hk. exists k. split; [lia|done].
  - intros (k & Hk & ->). exists k. split; [done|]. apply elem_of_seq. lia.
Qed.

(** X18. A series with one valid value for every hour from its first to
    its last timestamp scores 1.00, in whatever order its rows come. *)
Theorem full_hourly_series_scores_one w path f d raw parsed vals s n :
  files w !! path = Some f -> parse_csv f = Return d ->
  getitem d "datetime" = Return raw -> to_datetime raw = Return parsed ->
  length parsed = length raw ->
  parsed ≡ₚ map Stamp (hours s n) -> 0 < n ->
  getitem d "value" = Return vals ->
  Forall (fun v => to_numeric_value v <> NA) vals ->
  exists r w', calculate_completeness path w = (Return r, w') /\ completeness r = 1%Q.
Proof.
  intros Hf Hd Hraw Hparsed Hlen Hperm Hn Hvals Hall.
  destruct (calculate_completeness_run path w) as (w' & Hrun & _).
  eexists _, w'. split; [done|]. cbn [completeness]. rewrite Hf.
  assert (Hts : parsed = map Stamp (stamps parsed)).
  { apply stamps_all. rewrite Hperm. apply Forall_forall. intros v Hv.
    change (map ?g ?l) with (g <$> l) in Hv.
    apply list_elem_of_fmap in Hv as (t & -> & _). by exists t. }
  assert (Hin : forall t, t ∈ stamps parsed <-> t ∈ hours s n).
  { intros t. split; intros Ht.
    - assert (Stamp t ∈ parsed) as Hp.
      { rewrite Hts. change (map ?g ?l) with (g <$> l). apply list_elem_of_fmap. by exists t. }
      rewrite Hperm in Hp. change (map ?g ?l) with (g <$> l) in Hp.
      by apply list_elem_of_fmap in Hp as (t' & [= ->] & Ht').
    - assert (Stamp t ∈ parsed) as Hp.
      { rewrite Hperm. change (map ?g ?l) with (g <$> l). apply list_elem_of_fmap. by exists t. }
      rewrite Hts in Hp. change (map ?g ?l) with (g <$> l) in Hp.
      by apply list_elem_of_fmap in Hp as (t' & [= ->] & Ht'). }
  assert (Hcount : length parsed = n).
  { rewrite Hperm, length_map. unfold hours. by rewrite length_map, length_seq. }
  apply getitem_length in Hraw as Hraw'. apply getitem_length in Hvals as Hvals'.
  assert (Hrows : rows d <> []).
  { intros Hnil. rewrite Hnil in Hraw'. simpl in Hraw'. lia. }
  rewrite (ratio_of_file_read f d raw parsed vals) by done.
  set (e := (s + Z.of_nat (n - 1) * Num.hour_ns)%Z).
  assert (Hh : (0 < Num.hour_ns)%Z) by done.
  rewrite Hts, (ratio_from_stamps _ _ s e).
  - rewrite count_valid_all by done.
    replace ((e - s) / Num.hour_ns + 1)%Z with (Z.of_nat (length vals)).
    + apply rounded_same. lia.
    + unfold e. replace (s + Z.of_nat (n - 1) * Num.hour_ns - s)%Z
        with (Z.of_nat (n - 1) * Num.hour_ns)%Z by lia.
      rewrite Z.div_mul by lia. lia.
  - apply Hin, hours_elem. exists 0. split; [done|lia].
  - apply Hin, hours_elem. exists (n - 1). split; [lia|done].
  - intros t (k & Hk & ->)%Hin%hours_elem. unfold e. nia.
Qed.

Lemma read_records_total n (recs : list (list (option string))) : forall i,
  Forall (fun fields => length fields <= n) recs ->
  exists rs, read_records n i recs = Return rs.
Proof.
  induction recs as [|fields recs IH]; intros i Hall; [by exists []|].
  apply Forall_cons in Hall as [Hlen Hall].
  destruct (IH (S i) Hall) as (rs & Hrs).
  cbn [read_records]. unfold read_record.
  destruct (n <? length fields)%nat eqn:Hlt; [apply Nat.ltb_lt in Hlt; lia|].
  cbn [and_then]. rewrite Hrs. by eexists.
Qed.

Lemma read_field_text s : s ∉ na_values -> read_field (Some s) = Str s.
Proof. intros Hs. unfold read_field. by destruct (decide (s ∈ na_values)). Qed.

(** X19. Records that read are all counted: for a file under the
    header [datetime], [value] whose records hold each a text that
    [to_datetime] reads as a timestamp and a text that [to_numeric] reads
    as a number, neither being a marker of a missing value, every record
    is valid, and the ratio is the number of records over the whole hours
    from the first to the last timestamp plus one, rounded as the floats
    of the code round it: a whole number of hundredths at most half a
    hundredth from that quotient, give or take the float error. *)
Theorem readable_records_all_count w path (recs : list (string * string)) ts s e :
  files w !! path
  = Some (mkCsv ["datetime"; "value"]
            (map (fun r : string * string => [Some r.1; Some r.2]) recs)) ->
  Forall (fun r : string * string =>
            (r.1 ∉ na_values) /\ (r.2 ∉ na_values) /\ is_Some (parse_float r.2)) recs ->
  to_datetime (map (fun r : string * string => Str r.1) recs) = Return (map Stamp ts) ->
  length ts = length recs ->
  s ∈ ts -> e ∈ ts ->
  (forall t, t ∈ ts -> (s <= t <= e)%Z) ->
  let hours := ((e - s) / Num.hour_ns + 1)%Z in
  exists r w',
    calculate_completeness path w = (Return r, w')
    /\ completeness r = Num.round2 (Num.truediv (Z.of_nat (length recs)) hours)
    /\ rounded_to_hundredths (inject_Z (Z.of_nat (length recs)) / inject_Z hours)
         (completeness r).
Proof.
  intros Hf Hrecs Hdt Hlen Hs He Hb hours.
  destruct (calculate_completeness_run path w) as (w' & Hrun & _).
  eexists _, w'. split; [done|]. cbn [completeness]. rewrite Hf.
  set (f := mkCsv _ _).
  destruct (read_records_total 2 (records f) 0) as (rs & Hrs).
  { subst f. cbn [records]. apply Forall_forall. intros fields Hin.
    change (map ?g ?l) with (g <$> l) in Hin.
    by apply list_elem_of_fmap in Hin as (o & -> & _). }
  assert (Hd : parse_csv f = Return (mkFrame None ["datetime"; "value"] rs)).
  { unfold parse_csv. cbn [header f length]. by rewrite Hrs. }
  assert (Hraw : getitem (mkFrame None ["datetime"; "value"] rs) "datetime"
                 = Return (map (fun r : string * string => Str r.1) recs)).
  { rewrite (getitem_parse_csv f _ "datetime" 0 Hd eq_refl). f_equal.
    subst f. cbn [records header length]. rewrite map_map.
    apply map_ext_in. intros o Hin%list_elem_of_In.
    rewrite Forall_forall in Hrecs. destruct (Hrecs o Hin) as (Ht & _).
    unfold read_cells. cbn [map length Nat.sub replicate app lookup list_lookup default].
    by rewrite read_field_text. }
  assert (Hvals : getitem (mkFrame None ["datetime"; "value"] rs) "value"
                  = Return (map (fun r : string * string => Str r.2) recs)).
  { rewrite (getitem_parse_csv f _ "value" 1 Hd eq_refl). f_equal.
    subst f. cbn [records header length]. rewrite map_map.
    apply map_ext_in. intros o Hin%list_elem_of_In.
    rewrite Forall_forall in Hrecs. destruct (Hrecs o Hin) as (_ & Hx & _).
    unfold read_cells. cbn [map length Nat.sub replicate app lookup list_lookup default].
    by rewrite read_field_text. }
  assert (Hrows : rows (mkFrame None ["datetime"; "value"] rs) <> []).
  { intros Hnil. apply parse_csv_rows in Hd. rewrite Hnil in Hd.
    subst f. cbn [records length] in Hd. rewrite length_map in Hd.
    destruct recs; [|done]. destruct ts; [by apply elem_of_nil in Hs|done]. }
  rewrite (ratio_of_file_read f _ _ _ _ Hd Hrows Hraw Hdt) by (by rewrite !length_map || done).
  rewrite (ratio_from_stamps _ _ s e) by done.
  assert (Hcount : count_valid (map (fun r : string * string => Str r.2) recs)
                   = Z.of_nat (length recs)).
  { rewrite count_valid_all, length_map; [done|].
    apply Forall_forall. intros v Hv. change (map ?g ?l) with (g <$> l) in Hv.
    apply list_elem_of_fmap in Hv as (o & -> & Hin).
    rewrite Forall_forall in Hrecs. destruct (Hrecs o Hin) as (_ & _ & x & Hx).
    cbn [to_numeric_value]. by rewrite Hx. }
  rewrite Hcount. split; [done|].
  pose proof (Hb _ He) as Hse.
  assert (0 <= (e - s) / Num.hour_ns)%Z by (apply Z.div_pos; [lia|done]).
  apply rounded_spec; lia.
Qed.

(** X20. [calculate_completeness] only reads: it creates and changes no
    file, writes no log line and leaves every frame as it was; and its
    record depends on the path and on the file found there alone, so two
    states that hold the same file at the path give the same record. *)
Theorem completeness_reads_only path w1 w2 :
  files w1 !! path = files w2 !! path ->
  (calculate_completeness path w1).1 = (calculate_completeness path w2).1
  /\ kept_world w1 (calculate_completeness path w1).2.
Proof.
  intros Hsame.
  destruct (calculate_completeness_run path w1) as (w1' & -> & Hk).
  destruct (calculate_completeness_run path w2) as (w2' & -> & _).
  cbn [fst snd]. by rewrite Hsame.
Qed.

End ReadBack.
(* ===================================================================== *)
(** ** The greedy search (line 34) *)
(* ===================================================================== *)

Module Greedy.
Import Re ReFacts.

Section Order.
Context {R : Type}.
Implicit Types (k : list ascii -> option R) (s l : list ascii).

(** The longest run of [a] after which the rest matches is the one taken. *)
Lemma star_greedy a k l1 l2 r :
  Forall (fun c => atom_matches a c = true) l1 ->
  k l2 = Some r ->
  (forall l1' l2', l1 ++ l2 = l1' ++ l2' -> length l1 < length l1' ->
     Forall (fun c => atom_matches a c = true) l1' -> k l2' = None) ->
  star a k (l1 ++ l2) = Some r.
Proof.
  intros Hl1. induction Hl1 as [|c l1 Hc Hl1 IH]; intros Hk Hmax.
  - rewrite app_nil_l in *. destruct l2 as [|c l2]; [done|]. cbn [star].
    destruct (atom_matches a c) eqn:Hc; [|done].
    destruct (star a k l2) as [r'|] eqn:Hs; [|done].
    apply star_sound in Hs as (m1 & m2 & -> & Hm1 & Hm2).
    rewrite (Hmax (c :: m1) m2) in Hm2; [done|done|simpl; lia|by constructor].
  - rewrite <- app_comm_cons. cbn [star]. rewrite Hc, IH; [done|done|].
    intros l1' l2' Heq Hlen Hall.
    apply (Hmax (c :: l1') l2'); [by rewrite <- app_comm_cons, Heq|simpl; lia|by constructor].
Qed.

Lemma star_some_iff {R'} a k (k' : list ascii -> option R') s :
  (forall s', is_Some (k s') <-> is_Some (k' s')) ->
  is_Some (star a k s) <-> is_Some (star a k' s).
Proof.
  intros Hk. induction s as [|c s IH]; cbn [star]; [apply Hk|].
  destruct (atom_matches a c); [|apply Hk].
  destruct (star a k s) as [r|], (star a k' s) as [r'|]; try done.
  - destruct IH as [IH _]. by destruct IH.
  - destruct IH as [_ IH]. by destruct IH.
Qed.

Lemma run_some_iff {R'} p : forall s k (k' : list ascii -> option R'),
  (forall s', is_Some (k s') <-> is_Some (k' s')) ->
  is_Some (run p s k) <-> is_Some (run p s k').
Proof.
  induction p as [|[a|a] p IH]; intros s k k' Hk; cbn [run].
  - apply Hk.
  - destruct s as [|c s]; [done|]. destruct (atom_matches a c); [|done]. by apply IH.
  - apply star_some_iff. intros s'. by apply IH.
Qed.
End Order.

Lemma is_Some_matches {A} (o : option A) :
  is_Some o <-> match o with Some _ => true | None => false end = true.
Proof.
  destruct o as [a|]; split; intros H; first [done | by eexists | by destruct H].
Qed.

Lemma match_at_head rest : match_at (chars "INMET_" ++ rest) = star Dot tail_group rest.
Proof. reflexivity. Qed.

Lemma tail_group_here s : is_Some (tail_group s) <-> code_here s = true.
Proof.
  unfold tail_group, code_here.
  assert (H : is_Some (run [One (Lit "_")] s (fun s1 =>
                run group1 s1 (fun s2 =>
                run after_group s2 (fun _ => Some (take (length s1 - length s2) s1)))))
              <-> is_Some (run [One (Lit "_")] s (fun s1 =>
                    run group1 s1 (fun s2 => run after_group s2 (fun _ => Some tt))))).
  { apply run_some_iff. intros s1. apply run_some_iff. intros s2.
    apply run_some_iff. intros s3. done. }
  rewrite H. apply is_Some_matches.
Qed.

Lemma tail_group_value c b :
  is_code c -> tail_group (chars "_" ++ c ++ chars "_" ++ b) = Some c.
Proof.
  intros Hc.
  assert (Hs : is_Some (tail_group (chars "_" ++ c ++ chars "_" ++ b))).
  { unfold tail_group.
    apply (run_complete [One (Lit "_")] (chars "_") (c ++ chars "_" ++ b)).
    { by exists "_"%char, []. }
    apply run_complete; [done|].
    replace (chars "_" ++ b) with ((chars "_" ++ []) ++ b) by done.
    apply run_complete; [|done].
    apply matches_after_group. exists []. split; [done|constructor]. }
  destruct Hs as [g Hg]. rewrite Hg. f_equal.
  unfold tail_group in Hg.
  apply run_sound in Hg as (l1 & s1 & Heq1 & H1 & Hg).
  apply run_sound in Hg as (l2 & s2 & -> & H2 & Hg).
  apply run_sound in Hg as (l3 & s3 & -> & H3 & Hg).
  rewrite take_group in Hg. injection Hg as <-.
  destruct H1 as (x & l' & -> & _ & ->). simpl in Heq1. injection Heq1 as _ Heq1.
  apply app_inj_1 in Heq1 as [-> _]; [done|].
  by rewrite (is_code_length c), (is_code_length l2).
Qed.

Lemma search_from_skip pre rest :
  "I"%char ∉ pre -> search_from (pre ++ rest) = search_from rest.
Proof.
  induction pre as [|x pre IH]; intros Hpre; [done|].
  apply not_elem_of_cons in Hpre as [Hx Hpre].
  rewrite <- app_comm_cons. cbn [search_from].
  replace (match_at (x :: pre ++ rest)) with (@None (list ascii)); [by apply IH|].
  unfold match_at, before_group. cbn [lits chars list_ascii_of_string map app run].
  cbn [atom_matches]. by rewrite bool_decide_eq_false_2 by congruence.
Qed.

End Greedy.

Section LastCode.
Import Re ReFacts Greedy.

(** X21. Of several codes in a name the last one is taken: when the name
    reads [pre INMET_ a _ c _ b], with no [I] in [pre], no line feed in
    [a], [c] a code, and nowhere further right a [_<code>_], the station
    identifier is [c], whatever codes [a] holds. *)
Theorem last_code_is_taken (pre a c b : list ascii) :
  "I"%char ∉ pre -> one_line a -> is_code c ->
  no_code_after (length a) (a ++ chars "_" ++ c ++ chars "_" ++ b) = true ->
  Re.search (text (pre ++ chars "INMET_" ++ a ++ chars "_" ++ c ++ chars "_" ++ b))
  = Some (text c).
Proof.
  intros Hpre Ha Hc Hlast. unfold Re.search. rewrite chars_text.
  rewrite search_from_skip by done.
  assert (Hm : match_at (chars "INMET_" ++ a ++ chars "_" ++ c ++ chars "_" ++ b) = Some c).
  { rewrite match_at_head. apply star_greedy; [done|by apply tail_group_value|].
    intros l1' l2' Heq Hlen _.
    destruct (tail_group l2') as [g|] eqn:Hg; [exfalso|done].
    assert (Hhere : code_here l2' = true) by (apply tail_group_here; by rewrite Hg).
    unfold no_code_after in Hlast. rewrite forallb_forall in Hlast.
    specialize (Hlast (length l1')).
    rewrite Heq, drop_app_length, Hhere in Hlast.
    assert (Hin : In (length l1') (seq (S (length a)) (length (l1' ++ l2') - length a))).
    { apply in_seq. rewrite length_app. split; [lia|].
      assert (l2' <> []) by (intros ->; done).
      destruct l2'; [done|]. simpl. lia. }
    by specialize (Hlast Hin). }
  change (chars "INMET_" ++ a ++ chars "_" ++ c ++ chars "_" ++ b)
    with ("I"%char :: chars "NMET_" ++ a ++ chars "_" ++ c ++ chars "_" ++ b) in *.
  cbn [search_from]. by rewrite Hm.
Qed.

End LastCode.

(* ===================================================================== *)
(** * The further properties on the sample archive *)
(* ===================================================================== *)

Section FurtherInstances.
Import Py Frame Spec Sample Cases.

(** ** The samples, run *)

Example odd_members_log :
  let ops := Reference.ops in
  map fst (log ((process_station_csv undated_info odd_archive "out" "2020" ;;
                 process_station_csv bare_info odd_archive "out" "2020" ;;
                 process_station_csv twin_info odd_archive "out" "2020") blank).2)
  = [WARNING; INFO; WARNING].
Proof. vm_compute. reflexivity. Qed.

Example two_years_run :
  let r := run_years (ops := Reference.ops) portal listdir ["2019"; "2020"] "out" blank in
  r.1 = inr tt
  /\ files r.2 !! "out/total_precipitation_2020_completeness.csv"
     = Some (mkCsv ["station_code"; "completeness"]
               [[Some "A001"; Some "1.0"]; [Some "A002"; Some "2.0"]])
  /\ files r.2 !! "out/2m_air_temperature_2020_completeness.csv"
     = Some (mkCsv ["station_code"; "completeness"]
               [[Some "A001"; Some "0.75"]; [Some "A002"; Some "2.0"]]).
Proof. vm_compute. done. Qed.

(** ** Instances of the theorems *)

Lemma station_writes_its_two_files_witness :
  files (process_station_csv (ops := Reference.ops) hourly_info archive "out" "2020" shelf).2
    !! "out/three.csv"
  = files shelf !! "out/three.csv".
Proof.
  apply (@station_writes_its_two_files Reference.ops hourly_info archive "out" "2020" shelf
           "A001" "out/three.csv").
  - vm_compute. reflexivity.
  - vm_compute. discriminate.
  - vm_compute. discriminate.
Defined.

Lemma member_without_date_column_witness :
  exists w',
    process_station_csv (ops := Reference.ops) undated_info odd_archive "out" "2020" blank
    = (Return tt, w')
    /\ files w' = files blank
    /\ log w' = log blank ++ [warning_line "B001" "INMET_S_B001_SEM_DATA.CSV" (KeyError "data")].
Proof.
  apply (@member_without_date_column Reference.ops undated_info odd_archive "out" "2020" blank
           "B001" undated_member
           (mkFrame None ["Hora UTC"; precipitation; temperature]
              [(Pos 0, [Str "0000 UTC"; Str "0"; Str "21.5"])])).
  - vm_compute. reflexivity.
  - vm_compute. reflexivity.
  - vm_compute. reflexivity.
  - apply (bool_decide_unpack _). vm_compute. exact I.
Defined.

Lemma member_without_variables_witness :
  exists w',
    process_station_csv (ops := Reference.ops) bare_info odd_archive "out" "2020" blank
    = (Return tt, w')
    /\ files w' = files blank
    /\ log w' = log blank ++ [success_line "B002"].
Proof.
  apply (@member_without_variables Reference.ops bare_info odd_archive "out" "2020" blank
           "B002"
           (mkFrame (Some "datetime")
              ["data"; "hora utc"; "umidade relativa do ar, horaria (%)"]
              [(Stamp midnight, [Str "2020/01/01"; Str "0000 UTC"; Str "80"])])).
  - vm_compute. reflexivity.
  - vm_compute. reflexivity.
  - vm_compute. reflexivity.
  - vm_compute. reflexivity.
Defined.

Lemma first_series_stays_when_second_fails_witness :
  exists w',
    process_station_csv (ops := Reference.ops) twin_info odd_archive "out" "2020" blank
    = (Return tt, w')
    /\ files w'
       = <[station_path "out" "total_precipitation" "2020" "B003"
           := series [[Some "2020-01-01 00:00:00"; Some "0.0"]]]> (files blank)
    /\ log w'
       = log blank ++ [warning_line "B003" "INMET_S_B003_DUPLA.CSV"
                         (TypeError "a DataFrame where a Series is required")].
Proof.
  apply (@first_series_stays_when_second_fails Reference.ops twin_info odd_archive "out" "2020"
           blank "B003"
           (mkFrame (Some "datetime")
              ["data"; "hora utc"; "precipitacao total, horario (mm)"; "bulbo seco"; "bulbo seco"]
              [(Stamp midnight,
                [Str "2020/01/01"; Str "0000 UTC"; Str "0"; Str "21.5"; Str "21.6"])])).
  - vm_compute. reflexivity.
  - vm_compute. reflexivity.
  - vm_compute. reflexivity.
  - vm_compute. reflexivity.
Defined.

Lemma written_file_is_series_witness :
  series_file (ops := Reference.ops)
    (series [[Some "2020-01-01 00:00:00"; Some "0.0"];
             [Some "2020-01-01 01:00:00"; Some "1.2"];
             [Some "2020-01-01 02:00:00"; Some "0.0"];
             [Some "2020-01-01 03:00:00"; Some "0.0"]]).
Proof.
  apply (@written_file_is_series Reference.ops hourly_info archive "out" "2020" blank rain_A001).
  - vm_compute. reflexivity.
  - vm_compute. discriminate.
Defined.

Lemma station_file_reports_its_code_witness :
  exists w',
    calculate_completeness (ops := Reference.ops)
      (station_path "out" "2m_air_temperature" "2020" "A001") processed
    = (Return {| station_code := "A001";
                 completeness :=
                   ratio_of_file (ops := Reference.ops)
                     (files processed !! station_path "out" "2m_air_temperature" "2020" "A001") |},
       w').
Proof.
  apply (@station_file_reports_its_code Reference.ops "INMET_X_A001_TEST.CSV").
  vm_compute. reflexivity.
Defined.

Lemma report_has_a_record_per_listed_file_witness :
  exists w',
    report_variable (ops := Reference.ops) listdir "2020" "out" "2m_air_temperature" processed
    = (Return tt, w')
    /\ files w' !! "out/2m_air_temperature_2020_completeness.csv"
       = Some (mkCsv ["station_code"; "completeness"]
                 [[Some "A001"; Some "0.75"]; [Some "A002"; Some "2.0"]]).
Proof.
  destruct (@report_has_a_record_per_listed_file Reference.ops listdir "2020" "out"
              "2m_air_temperature" processed ["A001.csv"; "A002.csv"])
    as (w' & Hrun & Hfile & _).
  - vm_compute. reflexivity.
  - repeat constructor.
  - vm_compute. discriminate.
  - exists w'. split; [exact Hrun|].
    assert (E : report_path "out" "2m_air_temperature" "2020"
                = "out/2m_air_temperature_2020_completeness.csv") by (vm_compute; reflexivity).
    rewrite E in Hfile. rewrite Hfile. vm_compute. reflexivity.
Defined.

Lemma no_report_without_station_files_witness :
  exists w',
    report_variable (ops := Reference.ops) listdir "2020" "out" "total_precipitation" shelf
    = (Return tt, w')
    /\ files w' = files shelf
    /\ log w' = [missing_line "total_precipitation" "2020"].
Proof.
  destruct (@no_report_without_station_files Reference.ops listdir "2020" "out"
              "total_precipitation" shelf) as (w' & Hrun & Hfiles & Hlog).
  - vm_compute. exact I.
  - exists w'. split; [exact Hrun|]. split; [exact Hfiles|]. rewrite Hlog.
    vm_compute. reflexivity.
Defined.

Lemma report_stage_touches_reports_only_witness :
  let w' := (generate_completeness_report (ops := Reference.ops) listdir "2020" "out" processed).2 in
  (forall p,
     p <> report_path "out" "total_precipitation" "2020" ->
     p <> report_path "out" "2m_air_temperature" "2020" ->
     files w' !! p = files processed !! p)
  /\ (forall l d, heap processed !! l = Some d -> heap w' !! l = Some d)
  /\ exists more, log w' = log processed ++ start_line "2020" :: more /\ length more <= 2.
Proof.
  intros w'.
  apply (@report_stage_touches_reports_only Reference.ops listdir "2020" "out" processed
           (generate_completeness_report (ops := Reference.ops) listdir "2020" "out" processed).1).
  apply surjective_pairing.
Defined.

Lemma year_files_are_series_witness :
  series_file (ops := Reference.ops)
    (series [[Some "2020-01-01 00:00:00"; Some "21.5"];
             [Some "2020-01-01 00:30:00"; Some "21.7"]]).
Proof.
  apply (@year_files_are_series Reference.ops portal "2020" "out" blank
           "out/inmet_stations/processed/2m_air_temperature/2020/A002.csv").
  - vm_compute. reflexivity.
  - vm_compute. discriminate.
Defined.

Lemma year_touches_station_files_only_witness :
  files (process_year_data (ops := Reference.ops) portal "2020" "out" blank).2
    !! station_path "out" "total_precipitation" "2020" "A009"
  = None.
Proof.
  rewrite (@year_touches_station_files_only Reference.ops portal "2020" "out" blank).
  - reflexivity.
  - intros z info code Hz Hin Hcsv Hcode.
    vm_compute in Hz. injection Hz as <-. cbn [infolist year_archive] in Hin.
    rewrite !elem_of_cons, elem_of_nil in Hin.
    destruct Hin as [->|[->|[->|[->|[]]]]]; vm_compute in Hcsv, Hcode; try discriminate;
      injection Hcode as <-; split; vm_compute; discriminate.
Defined.

Lemma refused_year_is_still_reported_witness :
  exists w1 w2,
    log w1 = log blank ++ [(INFO, "--- Iniciando processamento para o ano de 2019 ---");
                           (INFO, ("Baixando dados para o ano 2019 de "
                                   ++ archive_url "2019")%string);
                           (ERROR, "Falha no download para o ano 2019. Erro: Max retries exceeded")]
    /\ files w1 = files blank /\ heap w1 = heap blank
    /\ generate_completeness_report (ops := Reference.ops) listdir "2019" "out" w1 = (Return tt, w2)
    /\ run_year (ops := Reference.ops) portal listdir "out" "2019" blank
       = (inr tt,
          mkWorld (heap w2) (files w2)
            (log w2 ++ [(INFO, "--- Finalizado processamento para o ano de 2019 ---")])).
Proof.
  apply (@refused_year_is_still_reported Reference.ops portal listdir "out" "2019" blank
           "Max retries exceeded").
  vm_compute. reflexivity.
Defined.

Lemma bad_archive_stops_the_run_witness :
  let w1 := (run_years (ops := Reference.ops) portal listdir ["2019"] "out" blank).2 in
  run_years (ops := Reference.ops) portal listdir ["2019"; "2021"; "2020"] "out" blank
  = (inl BadZipFile,
     mkWorld (heap w1) (files w1)
       (log w1 ++ [(INFO, "--- Iniciando processamento para o ano de 2021 ---");
                   (INFO, ("Baixando dados para o ano 2021 de " ++ archive_url "2021")%string)])).
Proof.
  intros w1.
  apply (@bad_archive_stops_the_run Reference.ops portal listdir "out" ["2019"] "2021" ["2020"]
           blank w1).
  - vm_compute. reflexivity.
  - vm_compute. reflexivity.
Defined.

Lemma full_hourly_series_scores_one_witness :
  exists r w',
    calculate_completeness (ops := Reference.ops) "out/full.csv" full_shelf = (Return r, w')
    /\ completeness r = 1%Q.
Proof.
  apply (@full_hourly_series_scores_one Reference.ops full_shelf "out/full.csv"
           (series full_day)
           (mkFrame None ["datetime"; "value"]
              [(Pos 0, [Str "2020-01-01 01:00:00"; Str "20.9"]);
               (Pos 1, [Str "2020-01-01 00:00:00"; Str "21.5"]);
               (Pos 2, [Str "2020-01-01 02:00:00"; Str "22.0"]);
               (Pos 3, [Str "2020-01-01 03:00:00"; Str "23.0"])])
           [Str "2020-01-01 01:00:00"; Str "2020-01-01 00:00:00";
            Str "2020-01-01 02:00:00"; Str "2020-01-01 03:00:00"]
           [Stamp 1577840400000000000; Stamp 1577836800000000000;
            Stamp 1577844000000000000; Stamp 1577847600000000000]
           [Str "20.9"; Str "21.5"; Str "22.0"; Str "23.0"]
           midnight 4).
  - vm_compute. reflexivity.
  - vm_compute. reflexivity.
  - vm_compute. reflexivity.
  - vm_compute. reflexivity.
  - reflexivity.
  - vm_compute. apply perm_swap.
  - lia.
  - vm_compute. reflexivity.
  - repeat constructor; vm_compute; discriminate.
Defined.

Lemma readable_records_all_count_witness :
  exists r w',
    calculate_completeness (ops := Reference.ops) "out/sparse.csv" sparse_shelf = (Return r, w')
    /\ completeness r = (57 # 100)%Q.
Proof.
  destruct (@readable_records_all_count Reference.ops sparse_shelf "out/sparse.csv"
              sparse_records sparse_stamps midnight (midnight + 39 * Num.hour_ns)%Z)
    as (r & w' & Hrun & Hr & _).
  - vm_compute. reflexivity.
  - apply (bool_decide_unpack _). vm_compute. exact I.
  - vm_compute. reflexivity.
  - reflexivity.
  - apply (bool_decide_unpack _). vm_compute. exact I.
  - apply (bool_decide_unpack _). vm_compute. exact I.
  - apply Forall_forall. apply (bool_decide_unpack _). vm_compute. exact I.
  - exists r, w'. split; [exact Hrun|]. rewrite Hr. vm_compute. reflexivity.
Defined.

Lemma completeness_reads_only_witness :
  (calculate_completeness (ops := Reference.ops) rain_A001 processed).1
  = (calculate_completeness (ops := Reference.ops) rain_A001 processed_later).1
  /\ kept_world processed (calculate_completeness (ops := Reference.ops) rain_A001 processed).2.
Proof.
  apply (@completeness_reads_only Reference.ops rain_A001 processed processed_later).
  unfold processed_later. cbn [files]. reflexivity.
Defined.

Lemma last_code_is_taken_witness :
  Re.search "2020/INMET_X_A001_B002_TEST.CSV" = Some "B002".
Proof.
  apply (last_code_is_taken (Re.chars "2020/") (Re.chars "X_A001") (Re.chars "B002")
           (Re.chars "TEST.CSV")).
  - apply (bool_decide_unpack _). vm_compute. exact I.
  - repeat constructor.
  - repeat (eexists _, _; split; [reflexivity|]; split; [reflexivity|]). reflexivity.
  - vm_compute. reflexivity.
Defined.

End FurtherInstances.
